(** * Level-1 codec of the DNA storage system (package [l1], file codec.go)

    A shallow embedding of [l1/codec.go] and the properties of its
    address packer, block assembler/parser, GC balancer, primer locator
    and top-level decode.

    Conventions.
    - [uint64] values are integers in [0, 2^64); every arithmetic
      operation of the source on them is followed by [wrap64].
    - [int] values (block counts, positions) are unbounded integers.
    - [byte] values are integers in [0, 256); [byte(x)] is [to_byte].
    - A Go function that may panic returns in [run]; a function that
      also touches the byte buffers of the caller runs in [M].
    - Go's multiple results are tuples; an [error] result is an
      [option error] ([None] is [nil]).
    - The packages the codec calls ([oligo], [long], [l0],
      [reedsolomon]) and its method [tryRecover] are not part of the
      file: they are type classes, and every statement holds for all
      their instances. *)

From stdpp Require Import base option list numbers.
From Stdlib Require Import ZArith Lia QArith.

Close Scope Q_scope.
Open Scope Z_scope.

(** ** Machine integers *)

Definition wrap64 (z : Z) : Z := z mod 2 ^ 64.

(** [int(u)] for a [uint64] value [u]. *)
Definition to_int (u : Z) : Z := if u <? 2 ^ 63 then u else u - 2 ^ 64.

(** [byte(u)]. *)
Definition to_byte (u : Z) : Z := u mod 256.

(** [^v] on a [uint64]. *)
Definition not64 (v : Z) : Z := 2 ^ 64 - 1 - v.

(** [^b] on a [byte]. *)
Definition not8 (b : Z) : Z := 255 - b.

(** [bits.OnesCount64]: the number of one bits among the low [n] bits. *)
Fixpoint popcount (n : nat) (v : Z) : Z :=
  match n with
  | O => 0
  | S n' => Z.b2z (Z.odd v) + popcount n' (v / 2)
  end.

Definition OnesCount64 (v : Z) : Z := popcount 64 v.

(** ** Errors and panics *)

Inductive error : Type :=
  | Eprimer                 (* var Eprimer: "primer mistmatch" *)
  | Emetadata               (* var Emetadata: "can't recover metadata" *)
  | Einvalid_block_number   (* "invalid block number" *)
  | Einvalid_data_size      (* "invalid data size" *)
  | Eprimer5_short          (* "5'-end primer must be at least four nt long" *)
  | Eaddress_too_big        (* "address too big" *)
  | Ecollab (code : Z).     (* an error value made by a collaborator *)

Inductive fault : Type :=
  | Index_out_of_range
  | Divide_by_zero
  | Nil_dereference
  | Makeslice_len.

Inductive panic : Type :=
  | Preedsolomon            (* "reedsolomon error" *)
  | Pboth_high_gc           (* "both high GC content" *)
  | Paddress_not_zero       (* "Internal error: address not zero at the end" *)
  | Pmetadata_too_big       (* "metadata block too big (FIXME)" *)
  | Pruntime (f : fault).   (* a run-time panic of the language *)

Inductive run (A : Type) : Type :=
  | Done (a : A)
  | Panic (p : panic).
Arguments Done {A} a.
Arguments Panic {A} p.

#[global] Instance run_ret : MRet run := λ A a, Done a.
#[global] Instance run_bind : MBind run := λ A B f m,
  match m with
  | Done a => f a
  | Panic p => Panic p
  end.

(** [l[i]] with Go's bounds check. *)
Definition index {A} (l : list A) (i : Z) : run A :=
  if i <? 0 then Panic (Pruntime Index_out_of_range)
  else match l !! Z.to_nat i with
       | Some x => Done x
       | None => Panic (Pruntime Index_out_of_range)
       end.

(** [l[i] = x] with Go's bounds check. *)
Definition store {A} (l : list A) (i : Z) (x : A) : run (list A) :=
  if (i <? 0) || (Z.of_nat (length l) <=? i)
  then Panic (Pruntime Index_out_of_range)
  else Done (<[Z.to_nat i := x]> l).

(** [for i := i0; i < i0 + n; i++ { s = body i s }]. *)
Fixpoint for_up {S} (n : nat) (i : Z) (body : Z → S → run S) (s : S) : run S :=
  match n with
  | O => Done s
  | S n' => s' ← body i s; for_up n' (i + 1) body s'
  end.

(** [for i := n - 1; i >= 0; i-- { s = body i s }]. *)
Fixpoint for_down {S} (n : nat) (body : Z → S → run S) (s : S) : run S :=
  match n with
  | O => Done s
  | S i => s' ← body (Z.of_nat i) s; for_down i body s'
  end.

(** ** The erasure coder ([reedsolomon.Encoder])

    [ec_Encode shards] is the content of [shards] after the call together
    with the error result; [ec_Verify] returns [(ok, err)].  A shard is a
    byte slice. *)

Record Encoder : Type := {
  ec_Encode : list (list Z) → list (list Z) * option error;
  ec_Verify : list (list Z) → bool * option error;
}.

(** [reedsolomon.New(dataShards, parityShards)]. *)
Class ReedSolomon : Type := {
  reedsolomon_New : Z → Z → Encoder + error;
}.

(** [make([]T, n)] for an [int] length. *)
Definition make {A} (n : Z) (zero : A) : run (list A) :=
  if n <? 0 then Panic (Pruntime Makeslice_len)
  else Done (replicate (Z.to_nat n) zero).

(** ** Codec configuration *)

Definition PrimerErrors : Z := 3.

(** [var maxvals = []int{3: 47, 4: 186, 5: 733}]: a slice of length 6
    whose entries 0..2 are zero. *)
Definition maxvals : list Z := [0; 0; 0; 47; 186; 733].

(** [criteria.Criteria] is only handed on to the level-0 codec, so the
    codec is parametric in it. *)
Record Codec (Crit : Type) : Type := {
  blknum : Z;
  rsnum : Z;
  mdsz : Z;
  crit : Crit;
  olen : Z;
  ec : Encoder;
}.
Arguments blknum {Crit} c.
Arguments rsnum {Crit} c.
Arguments mdsz {Crit} c.
Arguments crit {Crit} c.
Arguments olen {Crit} c.
Arguments ec {Crit} c.

(** ** Collaborators *)

(** The nucleotide sequence ([oligo.Oligo], [long.Copy], [oligo.Find],
    [oligo.GCcontent]).  [Append o b] is the value of [o] after
    [o.Append(b)].  The GC fraction is a ratio of two counts. *)
Class Oligo (O : Type) : Type := {
  Len : O → Z;
  Slice : O → Z → Z → O;
  Append : O → O → O;
  Copy : O → O;
  Find : O → O → Z → Z * Z;
  GCcontent : O → Q;
}.

(** The level-0 codec ([l0.Encode], [l0.Decode]). *)
Class Level0 (O Crit : Type) : Type := {
  l0_Encode : O → Z → Z → Crit → O + error;
  l0_Decode : O → O → Crit → Z * option error;
}.

(** A decoded data vector: one entry per block, [None] for a [nil]
    (absent) block. *)
Abbreviation blocks := (list (option (list Z))).

(** The method [tryRecover] of the codec, whose body is not part of this file: it
    returns [(data, mdblk, err)]. *)
Class Recovery (O Crit : Type) : Type := {
  tryRecover : Codec Crit → O → O → O → bool → blocks * list Z * option error;
}.

(** ** Caller-visible memory and the call trace

    A [[]byte] is [None] ([nil]) or a reference into [bufs]; a
    [[][]byte] is [None] or a reference into [vecs].  [calls] records
    the invocations of the inner [encode] and [decode]. *)

Inductive call : Type :=
  | Call_encode (sf : bool)
  | Call_decode (flip : bool).

Record state : Type := {
  bufs : list (list Z);
  vecs : list (list (option nat));
  calls : list call;
}.

Definition M (A : Type) : Type := state → state * run A.

#[global] Instance M_ret : MRet M := λ A a s, (s, Done a).
#[global] Instance M_bind : MBind M := λ A B f m s,
  let '(s', r) := m s in
  match r with
  | Done a => f a s'
  | Panic p => (s', Panic p)
  end.

Definition lift {A} (r : run A) : M A := λ s, (s, r).

(** The state with one more call on the trace. *)
Definition logged (c : call) (s : state) : state :=
  {| bufs := bufs s; vecs := vecs s; calls := calls s ++ [c] |}.

Definition log (c : call) : M unit := λ s, (logged c s, Done ()).

(** [len(v)] for [v [][]byte]. *)
Definition vec_len (v : option nat) : M Z := λ s,
  match v with
  | None => (s, Done 0)
  | Some l => match vecs s !! l with
              | Some es => (s, Done (Z.of_nat (length es)))
              | None => (s, Panic (Pruntime Nil_dereference))
              end
  end.

(** [v[i]] for [v [][]byte]. *)
Definition vec_get (v : option nat) (i : Z) : M (option nat) := λ s,
  match v with
  | None => (s, Panic (Pruntime Index_out_of_range))
  | Some l => match vecs s !! l with
              | Some es => (s, index es i)
              | None => (s, Panic (Pruntime Nil_dereference))
              end
  end.

(** [len(b)] for [b []byte]. *)
Definition buf_len (b : option nat) : M Z := λ s,
  match b with
  | None => (s, Done 0)
  | Some l => match bufs s !! l with
              | Some bs => (s, Done (Z.of_nat (length bs)))
              | None => (s, Panic (Pruntime Nil_dereference))
              end
  end.

(** [b[j]] for [b []byte]. *)
Definition buf_get (b : option nat) (j : Z) : M Z := λ s,
  match b with
  | None => (s, Panic (Pruntime Index_out_of_range))
  | Some l => match bufs s !! l with
              | Some bs => (s, index bs j)
              | None => (s, Panic (Pruntime Nil_dereference))
              end
  end.

(** [make([][]byte, n)]. *)
Definition new_vec (n : Z) : M (option nat) := λ s,
  match make n (None : option nat) with
  | Done es => ({| bufs := bufs s; vecs := vecs s ++ [es]; calls := calls s |},
                Done (Some (length (vecs s))))
  | Panic p => (s, Panic p)
  end.

(** [make([]byte, n)]. *)
Definition new_buf (n : Z) : M (option nat) := λ s,
  match make n 0 with
  | Done bs => ({| bufs := bufs s ++ [bs]; vecs := vecs s; calls := calls s |},
                Done (Some (length (bufs s))))
  | Panic p => (s, Panic p)
  end.

(** [v[i] = b] for [v [][]byte]. *)
Definition vec_set (v : option nat) (i : Z) (b : option nat) : M unit := λ s,
  match v with
  | None => (s, Panic (Pruntime Index_out_of_range))
  | Some l => match vecs s !! l with
              | Some es =>
                  match store es i b with
                  | Done es' => ({| bufs := bufs s; vecs := <[l := es']> (vecs s);
                                    calls := calls s |}, Done ())
                  | Panic p => (s, Panic p)
                  end
              | None => (s, Panic (Pruntime Nil_dereference))
              end
  end.

(** [b[j] = x] for [b []byte]. *)
Definition buf_set (b : option nat) (j : Z) (x : Z) : M unit := λ s,
  match b with
  | None => (s, Panic (Pruntime Index_out_of_range))
  | Some l => match bufs s !! l with
              | Some bs =>
                  match store bs j x with
                  | Done bs' => ({| bufs := <[l := bs']> (bufs s); vecs := vecs s;
                                    calls := calls s |}, Done ())
                  | Panic p => (s, Panic p)
                  end
              | None => (s, Panic (Pruntime Nil_dereference))
              end
  end.

(** A loop body either goes on with a new loop state or leaves the
    enclosing function with its results. *)
Inductive flow (S R : Type) : Type :=
  | Next (s : S)
  | Return (r : R).
Arguments Next {S R} s.
Arguments Return {S R} r.

(** [for i := i0; i < i0 + n; i++ { body }] with [return] in the body. *)
Fixpoint forM_up {S R} (n : nat) (i : Z) (body : Z → S → M (flow S R)) (s : S)
  : M (flow S R) :=
  match n with
  | O => mret (Next s)
  | S n' => f ← body i s;
            match f with
            | Next s' => forM_up n' (i + 1) body s'
            | Return r => mret (Return r)
            end
  end.

(** ** Data blocks: the parity bit *)

(** [uint64(buf[0]) | uint64(buf[1]) << 8 | uint64(buf[2]) << 16 |
    uint64(buf[3]) << 24]. *)
Definition block_value (b0 b1 b2 b3 : Z) : Z :=
  Z.lor (Z.lor (Z.lor b0 (wrap64 (b1 ≪ 8))) (wrap64 (b2 ≪ 16))) (wrap64 (b3 ≪ 24)).

(** [v <<= 1; if bits.OnesCount64(v)%2 != 0 { v += 1 }]. *)
Definition with_parity (v : Z) : Z :=
  let v := wrap64 (v ≪ 1) in
  if negb (OnesCount64 v mod 2 =? 0) then wrap64 (v + 1) else v.

(** The data part of one iteration of the parsing loop, after a
    successful level-0 decode to [v]: the block, or [None] when the
    parity check fails. *)
Definition data_block (flip : bool) (v : Z) : option (list Z) :=
  let pbit := Z.land v 1 in
  let v := v ≫ 1 in
  if (OnesCount64 v + pbit) mod 2 =? 0 then
    let v := if flip then not64 v else v in
    Some [to_byte v; to_byte (v ≫ 8); to_byte (v ≫ 16); to_byte (v ≫ 24)]
  else None.

(** The proposition [g > 0.6] of the GC balancer. *)
Definition high_gc (g : Q) : bool := negb (Qle_bool g (6 # 10)).

Section Codec.
Context {Crit O : Type} `{!ReedSolomon, !Oligo O, !Level0 O Crit, !Recovery O Crit}.

Definition NewCodec (blknum mdsz rsnum : Z) (crit : Crit) : run (option (Codec Crit)) :=
  if (mdsz <? 3) || (mdsz >? 5) then Done None
  else
    let mdnum := blknum - rsnum in
    match reedsolomon_New mdnum rsnum with
    | inr _ => Panic Preedsolomon
    | inl enc =>
        Done (Some {| blknum := blknum; rsnum := rsnum; mdsz := mdsz;
                      crit := crit;
                      olen := blknum * 17 + mdsz * (blknum - rsnum) + 5 * rsnum;
                      ec := enc |})
    end.

Definition BlockNum (c : Codec Crit) : Z := blknum c.
Definition BlockSize (c : Codec Crit) : Z := 4.
Definition DataLen (c : Codec Crit) : Z := blknum c * 4.
Definition OligoLen (c : Codec Crit) : Z := olen c.

Definition MaxAddr (c : Codec Crit) : run Z :=
  let mdnum := blknum c - rsnum c in
  maxval ← index maxvals (mdsz c);
  let maxval := wrap64 maxval in
  let ma := Nat.iter (Z.to_nat mdnum) (λ ma, wrap64 (ma * maxval)) 1 in
  Done (ma / 4).

(** *** Address packer *)

(** The body of the digit-splitting loop:
    [mdb[i] = address % mdlen; address /= mdlen]. *)
Definition split_step (mdlen : Z) (i : Z) (s : list Z * Z) : run (list Z * Z) :=
  let '(mdb, address) := s in
  if mdlen =? 0 then Panic (Pruntime Divide_by_zero)
  else mdb' ← store mdb i (address mod mdlen);
       Done (mdb', address / mdlen).

(** The last part of [calculateMdBlocks], "calculate metadata erasure
    blocks": the digits go through the erasure coder as one-byte shards
    and are read back. *)
Definition erasure_blocks (c : Codec Crit) (mdb : list Z) : run (list Z * option error) :=
  let mdshard := (λ d, [to_byte d]) <$> mdb in
  match ec_Encode (ec c) mdshard with
  | (_, Some err) => Done ([], Some err)
  | (mdshard', None) =>
      mdb' ← for_up (length mdshard) 0
               (λ i mdb, sh ← index mdshard' i;
                         b ← index sh 0;
                         store mdb i b)
               mdb;
      Done (mdb', None)
  end.

Definition calculateMdBlocks (c : Codec Crit) (address : Z) (ef sf : bool)
  : run (list Z * option error) :=
  maxaddr ← MaxAddr c;
  if address >? maxaddr then Done ([], Some Eaddress_too_big)
  else
    let address := if sf then wrap64 (address + wrap64 (maxaddr * 2)) else address in
    let address := if ef then wrap64 (address + maxaddr) else address in
    let mdnum := wrap64 (blknum c - rsnum c) in
    mdlen ← index maxvals (mdsz c);
    let mdlen := wrap64 mdlen in
    let mdb := replicate (Z.to_nat (wrap64 (mdnum + wrap64 (rsnum c)))) 0 in
    '(mdb, address) ←
      for_down (Z.to_nat (to_int (wrap64 (mdnum - 1)) + 1)) (split_step mdlen)
               (mdb, address);
    if negb (address =? 0) then Panic Paddress_not_zero
    else if mdsz c * 2 >? 8 then Panic Pmetadata_too_big
    else erasure_blocks c mdb.

(** The tail of [decode]: fold the first [blknum - rsnum] digits and
    split off the two flags.  Returns [(address, ef, sf)]. *)
Definition unpack (c : Codec Crit) (mdblk : list Z) : run (Z * bool * bool) :=
  maxval ← index maxvals (mdsz c);
  let maxval := wrap64 maxval in
  md ← for_up (Z.to_nat (blknum c - rsnum c)) 0
         (λ i md, d ← index mdblk i; Done (wrap64 (wrap64 (md * maxval) + d)))
         0;
  maxaddr ← MaxAddr c;
  let '(sf, md) :=
    if md >=? wrap64 (2 * maxaddr) then (true, wrap64 (md - wrap64 (2 * maxaddr)))
    else (false, md) in
  let '(ef, md) :=
    if md >=? maxaddr then (true, wrap64 (md - maxaddr)) else (false, md) in
  Done (md, ef, sf).

(** *** Block assembler *)

(** [d[i][j] = ^data[i][j]]: the operand [d[i]] of the left side is
    evaluated first, then the right side, then the store. *)
Definition negate_byte (data d : option nat) (i j : Z) (_ : unit) : M (flow unit unit) :=
  di ← vec_get d i;
  blk ← vec_get data i;
  x ← buf_get blk j;
  _ ← buf_set di j (not8 x);
  mret (Next ()).

(** [d[i] = make([]byte, len(data[i]))] and the loop over its bytes. *)
Definition negate_block (data d : option nat) (i : Z) (_ : unit) : M (flow unit unit) :=
  blk ← vec_get data i;
  m ← buf_len blk;
  b ← new_buf m;
  _ ← vec_set d i b;
  _ ← forM_up (Z.to_nat m) 0 (negate_byte data d i) ();
  mret (Next ()).

(** The [if sf] block of [encode]: the complemented payload, built in
    new buffers.  The bounds [len(data)] and [len(data[i])] are read
    once per loop: the bodies store into [d] and [d[i]] only. *)
Definition negate (data : option nat) : M (option nat) :=
  n ← vec_len data;
  d ← new_vec n;
  _ ← forM_up (Z.to_nat n) 0 (negate_block data d) ();
  mret d.

(** One iteration of the assembling loop of [encode]. *)
Definition encode_block (c : Codec Crit) (mdb : list Z) (data : option nat)
    (i : Z) (o : O) : M (flow O (option O * option error)) :=
  buf ← vec_get data i;
  b0 ← buf_get buf 0;
  b1 ← buf_get buf 1;
  b2 ← buf_get buf 2;
  b3 ← buf_get buf 3;
  let v := with_parity (block_value b0 b1 b2 b3) in
  let prefix := Slice o (Len o - 4) (Len o) in
  match l0_Encode prefix v 17 (crit c) with
  | inr err => mret (Return (None, Some err))
  | inl b =>
      let o := Append o b in
      let prefix := Slice o (Len o - 4) 0 in
      let sz := if i >=? blknum c - rsnum c then 5 else mdsz c in
      m ← lift (index mdb i);
      match l0_Encode prefix m sz (crit c) with
      | inr err => mret (Return (None, Some err))
      | inl b => mret (Next (Append o b))
      end
  end.

(** The body of [for _, blk := range data]: every block has
    [BlockSize] bytes. *)
Definition check_size (c : Codec Crit) (data : option nat) (i : Z) (_ : unit)
  : M (flow unit (option O * option error)) :=
  blk ← vec_get data i;
  m ← buf_len blk;
  if negb (m =? BlockSize c)
  then mret (Return (None, Some Einvalid_data_size))
  else mret (Next ()).

Definition encode (c : Codec Crit) (p5 p3 : O) (address : Z) (ef sf : bool)
    (data : option nat) : M (option O * option error) :=
  n ← vec_len data;
  if negb (n =? BlockNum c) then mret (None, Some Einvalid_block_number)
  else
    chk ← forM_up (Z.to_nat n) 0 (check_size c data) ();
    match chk with
    | Return r => mret r
    | Next _ =>
        if Len p5 <? 4 then mret (None, Some Eprimer5_short)
        else
          '(mdb, err) ← lift (calculateMdBlocks c address ef sf);
          match err with
          | Some e => mret (None, Some e)
          | None =>
              data ← (if sf then negate data else mret data);
              let o := Copy p5 in
              res ← forM_up (Z.to_nat (blknum c)) 0 (encode_block c mdb data) o;
              match res with
              | Return r => mret r
              | Next o => mret (Some (Append o p3), None)
              end
          end
    end.

(** [oligo.GCcontent(o) > 0.6] on a possibly [nil] oligo. *)
Definition gc_exceeds (o : option O) : M bool :=
  match o with
  | Some o => mret (high_gc (GCcontent o))
  | None => lift (Panic (Pruntime Nil_dereference))
  end.

(** *** GC balancer *)

Definition Encode (c : Codec Crit) (p5 p3 : O) (address : Z) (ef : bool)
    (data : option nat) : M (option O * option error) :=
  _ ← log (Call_encode false);
  '(o, err) ← encode c p5 p3 address ef false data;
  match err with
  | Some _ => mret (o, err)
  | None =>
      high ← gc_exceeds o;
      if (high : bool) then
        _ ← log (Call_encode true);
        '(o1, err) ← encode c p5 p3 address ef true data;
        match err with
        | Some _ => mret (o, err)
        | None =>
            high1 ← gc_exceeds o1;
            if (high1 : bool) then lift (Panic Pboth_high_gc)
            else mret (o1, err)
        end
      else mret (o, err)
  end.

(** *** Block parser *)

(** The variables the parsing loop of [decode] carries from one block
    to the next. *)
Record parse : Type := {
  p_prefix : O;
  p_ol : O;
  p_data : blocks;
  p_mdblk : list Z;
  p_mdok : bool;
  p_err : option error;
}.

(** The statements of one iteration up to the label [savedblk]: the
    block [d] and the value of [err]. *)
Definition parse_data (c : Codec Crit) (flip : bool) (prefix ol : O) (err : option error)
  : option (list Z) * option error :=
  if Len ol <? 17 then (None, err)
  else
    let '(v, err) := l0_Decode prefix (Slice ol 0 17) (crit c) in
    match err with
    | Some _ => (None, err)
    | None => (data_block flip v, err)
    end.

(** One iteration of the parsing loop. *)
Definition parse_block (c : Codec Crit) (flip : bool) (i : Z) (p : parse) : run parse :=
  let ol := p_ol p in
  let '(d, err) := parse_data c flip (p_prefix p) ol (p_err p) in
  let data := p_data p ++ [d] in
  let mdsz := if i >=? blknum c - rsnum c then 5 else mdsz c in
  let mdol := Slice ol 17 (17 + mdsz) in
  '(mdblk, mdok, err) ←
    (if negb (Len mdol =? mdsz) then Done (p_mdblk p, false, err)
     else
       let '(m, err) := l0_Decode (Slice ol 13 17) mdol (crit c) in
       mdblk ← store (p_mdblk p) i m;
       Done (mdblk, if err is Some _ then false else p_mdok p, err));
  Done {| p_prefix := Slice ol (13 + mdsz) (17 + mdsz);
          p_ol := Slice ol (17 + mdsz) 0;
          p_data := data; p_mdblk := mdblk; p_mdok := mdok; p_err := err |}.

(** The parsing loop over the body [sol] behind the 5' primer. *)
Definition parse_blocks (c : Codec Crit) (flip : bool) (prefix sol : O) : run parse :=
  mdblk ← make (blknum c) 0;
  for_up (Z.to_nat (blknum c)) 0 (parse_block c flip)
    {| p_prefix := prefix; p_ol := sol; p_data := []; p_mdblk := mdblk;
       p_mdok := true; p_err := None |}.

(** The results of [decode]: [(address, ef, sf, data, err)]. *)
Definition decoded : Type := Z * bool * bool * blocks * option error.

(** The end of [decode]: the address and the flags out of the digits. *)
Definition resolve (c : Codec Crit) (data : blocks) (mdblk : list Z) (err : option error)
  : run decoded :=
  '(address, ef, sf) ← unpack c mdblk;
  Done (address, ef, sf, data, err).

(** The part of [decode] behind the parsing loop, "Handle the
    metadata": verify the digits, give up or ask the recovery, and
    resolve the address. *)
Definition validate (c : Codec Crit) (p5 p3 sol : O) (flip recover : bool) (p : parse)
  : run decoded :=
  let data := p_data p in
  let mdblk := p_mdblk p in
  let '(mdok, err) :=
    if p_mdok p then
      let mdshards := (λ m, [to_byte m]) <$> mdblk in
      let '(ok, err) := ec_Verify (ec c) mdshards in
      (if err is Some _ then false else ok, err)
    else (false, p_err p) in
  if negb mdok then
    if negb recover then Done (0, false, false, data, Some Emetadata)
    else
      let '(data, mdblk, err) := tryRecover c p5 p3 sol flip in
      match err with
      | Some _ => Done (0, false, false, data, err)
      | None => resolve c data mdblk err
      end
  else resolve c data mdblk err.

Definition decode (c : Codec Crit) (p5 p3 ol : O) (flip recover : bool) : run decoded :=
  let '(pos5, len5) := Find ol p5 PrimerErrors in
  if negb (pos5 =? 0) then Done (0, false, false, [], Some Eprimer)
  else
    let '(pos3, len3) := Find ol p3 PrimerErrors in
    if (pos3 <? 0) || negb (pos3 + len3 =? Len ol)
    then Done (0, false, false, [], Some Eprimer)
    else
      let sol := Slice ol (pos5 + len5) pos3 in
      let prefix := Slice p5 (Len p5 - 4) (Len p5) in
      p ← parse_blocks c flip prefix sol;
      validate c p5 p3 sol flip recover p.

(** *** Top-level decode.  Returns [(address, ef, data, err)]. *)
Definition Decode (c : Codec Crit) (p5 p3 ol : O) (recover : bool)
  : M (Z * bool * blocks * option error) :=
  _ ← log (Call_decode false);
  '(address, ef, sf, data, err) ← lift (decode c p5 p3 ol false recover);
  if (if err is Some _ then true else false) || negb sf
  then mret (address, ef, data, err)
  else
    _ ← log (Call_decode true);
    '(address, ef, sf, data, err) ← lift (decode c p5 p3 ol true recover);
    mret (address, ef, data, err).

End Codec.

(** ** Reference collaborators

    Small executable collaborators, used to evaluate the codec on
    concrete inputs.  The oligo is a list of nucleotides; the level-0
    codec writes a value in base 4 without any constraint; every parity
    shard of the erasure coder is the sum of the data bytes; recovery
    always gives up. *)

Inductive nt : Type := NtA | NtC | NtG | NtT.

#[global] Instance nt_eq_dec : EqDecision nt.
Proof. solve_decision. Defined.

Definition list_Slice (o : list nt) (from to : Z) : list nt :=
  let n := Z.of_nat (length o) in
  let to := if to <=? 0 then n else Z.min to n in
  let from := Z.max 0 from in
  take (Z.to_nat (to - from)) (drop (Z.to_nat from) o).

Definition mismatches (p seg : list nt) : Z :=
  Z.of_nat (length (filter (λ xy, xy.1 ≠ xy.2) (zip p seg))).

(** The position at or after [pos] where [p] matches with the fewest
    mismatches, at most [maxerr]; the first one among equals.  [best]
    is the best match before [pos] and its number of mismatches. *)
Fixpoint find_from (ol p : list nt) (maxerr pos : Z) (best : Z * Z) : Z * Z :=
  match ol with
  | [] => best
  | _ :: ol' =>
      let e := mismatches p ol in
      let hit := (length p <=? length ol)%nat && (e <=? maxerr) in
      let better := (best.1 <? 0) || (e <? best.2) in
      find_from ol' p maxerr (pos + 1) (if hit && better then (pos, e) else best)
  end.

Definition list_Find (ol p : list nt) (maxerr : Z) : Z * Z :=
  let best := find_from ol p maxerr 0 (-1, 0) in
  if best.1 <? 0 then (-1, 0) else (best.1, Z.of_nat (length p)).

Definition gc_count (o : list nt) : Z :=
  Z.of_nat (length (filter (λ x, x = NtC ∨ x = NtG) o)).

#[local] Instance list_oligo : Oligo (list nt) := {|
  Len := λ o, Z.of_nat (length o);
  Slice := list_Slice;
  Append := λ o b, o ++ b;
  Copy := λ o, o;
  Find := list_Find;
  GCcontent := λ o, Qmake (gc_count o) (Pos.of_nat (length o));
|}.

Definition nt_of_Z (d : Z) : nt :=
  if d =? 0 then NtA else if d =? 1 then NtC else if d =? 2 then NtG else NtT.

Definition Z_of_nt (x : nt) : Z :=
  match x with NtA => 0 | NtC => 1 | NtG => 2 | NtT => 3 end.

(** [w] base-4 digits of [v], least significant first. *)
Fixpoint digits4 (w : nat) (v : Z) : list nt :=
  match w with
  | O => []
  | S w' => nt_of_Z (v mod 4) :: digits4 w' (v / 4)
  end.

Definition value4 (seg : list nt) : Z :=
  foldr (λ x acc, Z_of_nt x + 4 * acc) 0 seg.

#[local] Instance base4_l0 : Level0 (list nt) unit := {|
  l0_Encode := λ prefix v w crit,
    if v <? 4 ^ w then inl (digits4 (Z.to_nat w) v) else inr (Ecollab 3);
  l0_Decode := λ prefix seg crit, (value4 seg, None);
|}.

Definition sum_bytes (shards : list (list Z)) : Z :=
  foldr (λ sh acc, (default 0 (head sh) + acc) mod 256) 0 shards.

Definition sum_encoder (d p : Z) : Encoder := {|
  ec_Encode := λ shards,
    let data := take (Z.to_nat d) shards in
    (data ++ replicate (Z.to_nat p) [sum_bytes data], None);
  ec_Verify := λ shards,
    let data := take (Z.to_nat d) shards in
    (bool_decide (drop (Z.to_nat d) shards = replicate (Z.to_nat p) [sum_bytes data]),
     None);
|}.

#[local] Instance sum_rs : ReedSolomon := {|
  reedsolomon_New := λ d p,
    if (d <=? 0) || (p <? 0) || (256 <? d + p) then inr (Ecollab 1)
    else inl (sum_encoder d p);
|}.

#[local] Instance no_recovery : Recovery (list nt) unit := {|
  tryRecover := λ c p5 p3 sol flip, ([], [], Some (Ecollab 2));
|}.

(** The configuration B = 8, R = 2, M = 3. *)
Definition codec823 : Codec unit :=
  {| blknum := 8; rsnum := 2; mdsz := 3; crit := tt; olen := 164;
     ec := sum_encoder 6 2 |}.

(** The configuration B = 3, R = 1, M = 4. *)
Definition codec314 : Codec unit :=
  {| blknum := 3; rsnum := 1; mdsz := 4; crit := tt; olen := 64;
     ec := sum_encoder 2 1 |}.

(** The configuration B = 3, R = 1, M = 5. *)
Definition codec315 : Codec unit :=
  {| blknum := 3; rsnum := 1; mdsz := 5; crit := tt; olen := 66;
     ec := sum_encoder 2 1 |}.

Definition primer5 : list nt := [NtA; NtC; NtG; NtT; NtA; NtC].
Definition primer3 : list nt := [NtT; NtT; NtG; NtA; NtC; NtA].

(** A memory holding eight blocks [01 02 03 04] and the vector of
    them. *)
Definition mem8 : state :=
  {| bufs := replicate 8 [1; 2; 3; 4];
     vecs := [Some <$> seq 0 8];
     calls := [] |}.

(** ** Vocabulary of the statements *)

(** The digits [l] folded into [acc], most significant first, without
    wrap-around. *)
Definition fold_digits (base : Z) (l : list Z) (acc : Z) : Z :=
  fold_left (λ md d, md * base + d) l acc.

(** The value the packer splits: the address moved into the quarter
    of the address space that the two flags select. *)
Definition adjusted (a : Z) (ef sf : bool) (maxaddr : Z) : Z :=
  a + (if sf then 2 * maxaddr else 0) + (if ef then maxaddr else 0).

(** The digit base of a metadata block of [mdsz] nucleotides. *)
Definition baseM (mdsz : Z) : Z := default 0 (maxvals !! Z.to_nat mdsz).

(** The number of address digits, [B - R]. *)
Definition mdnum {Crit} (c : Codec Crit) : nat := Z.to_nat (blknum c - rsnum c).

(** A value of Go's [byte]. *)
Definition is_byte (b : Z) : Prop := 0 ≤ b < 256.

(** The bytes of the low 32 bits of [v], least significant first: what
    the parser appends to a materialized block. *)
Definition le_bytes (v : Z) : list Z :=
  [to_byte v; to_byte (v ≫ 8); to_byte (v ≫ 16); to_byte (v ≫ 24)].

(** [s'] keeps the trace and every buffer and vector of [s]: what
    [s'] has more are new cells behind them. *)
Definition frame (s s' : state) : Prop :=
  calls s' = calls s ∧ bufs s `prefix_of` bufs s' ∧ vecs s `prefix_of` vecs s'.

(** A byte slice that did not exist in [s0]. *)
Definition fresh_buf (s0 : state) (b : option nat) : Prop :=
  ∀ l, b = Some l → (length (bufs s0) ≤ l)%nat.

(** [d] is a vector that did not exist in [s0], and so are the byte
    slices it holds. *)
Definition fresh_vec (s0 : state) (d : option nat) (s : state) : Prop :=
  frame s0 s ∧
  ∃ ld es, d = Some ld ∧ (length (vecs s0) ≤ ld)%nat ∧ vecs s !! ld = Some es ∧
           Forall (fresh_buf s0) es.

(** From a state in [P] the computation ends in [Q] with its result,
    or panics in a state in [E]. *)
Definition hoare {A} (P : state → Prop) (m : M A) (Q : A → state → Prop)
    (E : state → Prop) : Prop :=
  ∀ s s' r, P s → m s = (s', r) →
    match r with Done a => Q a s' | Panic _ => E s' end.

(** A computation that only reads. *)
Definition reads {A} (m : M A) : Prop := ∀ s, (m s).1 = s.

(** Every buffer and vector of [s] is in [s'] with the same content. *)
Definition unchanged (s s' : state) : Prop :=
  (∀ l bs, bufs s !! l = Some bs → bufs s' !! l = Some bs) ∧
  (∀ l es, vecs s !! l = Some es → vecs s' !! l = Some es).

(** Both primers are where [decode] wants them: the 5' primer is
    found at position 0 and the 3' primer is found ending at the end of
    the oligo. *)
Definition primers_match {O} `{!Oligo O} (p5 p3 ol : O) : Prop :=
  (Find ol p5 PrimerErrors).1 = 0 ∧
  0 ≤ (Find ol p3 PrimerErrors).1 ∧
  (Find ol p3 PrimerErrors).1 + (Find ol p3 PrimerErrors).2 = Len ol.

(** The part of the oligo between the two primer matches. *)
Definition body {O} `{!Oligo O} (p5 p3 ol : O) : O :=
  Slice ol ((Find ol p5 PrimerErrors).1 + (Find ol p5 PrimerErrors).2)
        (Find ol p3 PrimerErrors).1.

(** The last four symbols of the 5' primer. *)
Definition primer_prefix {O} `{!Oligo O} (p5 : O) : O := Slice p5 (Len p5 - 4) (Len p5).

(** The results of [Decode] out of those of [decode]: [sf] is dropped. *)
Definition result (r : run decoded) : run (Z * bool * blocks * option error) :=
  '(address, ef, _, data, err) ← r; Done (address, ef, data, err).

(** The width of the metadata segment of block [i]. *)
Definition md_width {Crit} (c : Codec Crit) (i : Z) : Z :=
  if i >=? blknum c - rsnum c then 5 else mdsz c.

(** The decode prefix and the remaining stream in front of block [i],
    when the parser starts on [sol] with [prefix]: they depend on the
    widths of the segments before, not on what these decode to. *)
Fixpoint stream {Crit O} `{!Oligo O} (c : Codec Crit) (i : nat) (prefix sol : O) : O * O :=
  match i with
  | O => (prefix, sol)
  | S i' =>
      let ol := (stream c i' prefix sol).2 in
      let w := md_width c (Z.of_nat i') in
      (Slice ol (13 + w) (17 + w), Slice ol (17 + w) 0)
  end.

(** What the parser makes of the data segment of block [i]: its four
    bytes, or [None] when the segment is short, does not decode or fails
    the parity check. *)
Definition data_at {Crit O} `{!Oligo O, !Level0 O Crit}
    (c : Codec Crit) (flip : bool) (prefix sol : O) (i : nat) : option (list Z) :=
  (parse_data c flip (stream c i prefix sol).1 (stream c i prefix sol).2 None).1.

(** The metadata segment of block [i]. *)
Definition md_segment {Crit O} `{!Oligo O} (c : Codec Crit) (prefix sol : O) (i : nat) : O :=
  Slice (stream c i prefix sol).2 17 (17 + md_width c (Z.of_nat i)).

(** The digit the parser reads from the metadata segment of block [i],
    or [None] when the segment is short or does not decode. *)
Definition md_at {Crit O} `{!Oligo O, !Level0 O Crit}
    (c : Codec Crit) (prefix sol : O) (i : nat) : option Z :=
  if Len (md_segment c prefix sol i) =? md_width c (Z.of_nat i) then
    match l0_Decode (Slice (stream c i prefix sol).2 13 17) (md_segment c prefix sol i)
                    (crit c) with
    | (m, None) => Some m
    | (_, Some _) => None
    end
  else None.

(** The state of the parsing loop in front of block [j]. *)
Definition parsed {Crit O} `{!Oligo O, !Level0 O Crit}
    (c : Codec Crit) (flip : bool) (prefix sol : O) (j : nat) (p : parse) : Prop :=
  (p_prefix p, p_ol p) = stream c j prefix sol ∧
  length (p_data p) = j ∧
  (∀ i, (i < j)%nat → p_data p !! i = Some (data_at c flip prefix sol i)) ∧
  (p_mdok p = true ↔ ∀ i, (i < j)%nat → is_Some (md_at c prefix sol i)) ∧
  (∀ i m, (i < j)%nat → md_at c prefix sol i = Some m → p_mdblk p !! i = Some m).

(** The verdict of [decode] on the metadata digits of a finished
    parse: every digit was read and the erasure code verifies. *)
Definition verified {Crit O} (c : Codec Crit) (p : @parse O) : bool :=
  p_mdok p &&
  (let '(ok, err) := ec_Verify (ec c) ((λ m, [to_byte m]) <$> p_mdblk p) in
   if err is Some _ then false else ok).

(** The block counts are Go [int]s with [0 ≤ R ≤ B]. *)
Definition counts_ok {Crit} (c : Codec Crit) : Prop :=
  0 ≤ rsnum c ≤ blknum c ∧ blknum c < 2 ^ 63.

(** What the address packer relies on from the erasure coder: given
    [B] one-byte shards, [Encode] reports no error, keeps them one byte
    long and leaves the first [B - R] of them as they are. *)
Definition encoder_contract {Crit} (c : Codec Crit) : Prop :=
  ∀ shards,
    length shards = Z.to_nat (blknum c) →
    Forall (λ sh, length sh = 1%nat) shards →
    ∃ shards',
      ec_Encode (ec c) shards = (shards', None) ∧
      length shards' = length shards ∧
      Forall (λ sh, length sh = 1%nat) shards' ∧
      take (Z.to_nat (blknum c - rsnum c)) shards' =
        take (Z.to_nat (blknum c - rsnum c)) shards.

(** A memory holding three blocks [55 55 55 55], whose data segments
    are rich in G under the reference level-0 codec. *)
Definition mem_gc : state :=
  {| bufs := replicate 3 [85; 85; 85; 85];
     vecs := [Some <$> seq 0 3];
     calls := [] |}.

(** The oligo of the concrete scenario: address 12345, [ef] clear,
    eight blocks [01 02 03 04], B = 8, R = 2, M = 3. *)
Definition oligo823 : list nt := Eval vm_compute in
  match (Encode codec823 primer5 primer3 12345 false (Some 0%nat) mem8).2 with
  | Done (Some o, _) => o
  | _ => []
  end.

(** The scenario's oligo with the first symbol of the first data
    segment changed, an oligo that is only the two primers, and one that
    starts with the wrong primer. *)
Definition oligo823_bad : list nt := <[6%nat := NtC]> oligo823.
Definition oligo_empty : list nt := primer5 ++ primer3.
Definition oligo_swapped : list nt := primer3 ++ primer5.

(** ** Vocabulary of the round trip *)

(** What the vector [data] of the caller holds in [s]: one entry per
    block, [None] for a block that is [nil]. *)
Definition payload (s : state) (data : option nat) : blocks :=
  match data ≫= (vecs s !!.) with
  | Some es => (λ e : option nat, e ≫= (bufs s !!.)) <$> es
  | None => []
  end.

(** A block of [BlockSize] bytes. *)
Definition is_block (b : list Z) : Prop := length b = 4%nat ∧ Forall is_byte b.

(** The offset of block [i] in the body of an oligo: [i] data segments
    of 17 symbols and [i] metadata segments, the first [B - R] of them
    [mdsz] wide and the others 5 wide. *)
Definition span {Crit} (c : Codec Crit) (i : Z) : Z :=
  17 * i + mdsz c * Z.min i (blknum c - rsnum c)
  + 5 * Z.max 0 (i - (blknum c - rsnum c)).

(** The oligo type behaves as a sequence of symbols: [repr o] is the
    sequence held by [o].  [Slice o from to] is the part from [from] up
    to [to], and up to the end when [to] is 0; nothing is asked of a
    slice that reaches outside [o]. *)
Record sequence_laws {O A : Type} `{!Oligo O} (repr : O → list A) : Prop := {
  repr_inj : ∀ a b, repr a = repr b → a = b;
  repr_Len : ∀ o, Len o = Z.of_nat (length (repr o));
  repr_Append : ∀ o b, repr (Append o b) = repr o ++ repr b;
  repr_Copy : ∀ o, repr (Copy o) = repr o;
  repr_Slice : ∀ o from to, 0 ≤ from ≤ to → 0 < to ≤ Len o →
    repr (Slice o from to) = take (Z.to_nat (to - from)) (drop (Z.to_nat from) (repr o));
  repr_Slice_end : ∀ o from, 0 ≤ from ≤ Len o →
    repr (Slice o from 0) = drop (Z.to_nat from) (repr o);
}.

(** What the codec relies on from the level-0 codec: an oligo that
    [l0.Encode] returns for a [uint64] value has the length asked for
    and decodes, behind the same prefix, to that value. *)
Definition level0_laws {O Crit : Type} `{!Oligo O, !Level0 O Crit} : Prop :=
  ∀ (prefix b : O) v n (crit : Crit),
    0 ≤ v < 2 ^ 64 → 0 ≤ n → l0_Encode prefix v n crit = inl b →
    Len b = n ∧ l0_Decode prefix b crit = (v, None).

(** What [decode] relies on from the erasure coder: the shards that
    [Encode] leaves behind hold bytes and pass [Verify]. *)
Definition verify_contract {Crit} (c : Codec Crit) : Prop :=
  ∀ shards shards',
    length shards = Z.to_nat (blknum c) →
    Forall (Forall is_byte) shards →
    ec_Encode (ec c) shards = (shards', None) →
    Forall (Forall is_byte) shards' ∧ ec_Verify (ec c) shards' = (true, None).

(** The two primers are found where [encode] has put them. *)
Definition primers_found {O} `{!Oligo O} (p5 p3 ol : O) : Prop :=
  Find ol p5 PrimerErrors = (0, Len p5) ∧
  Find ol p3 PrimerErrors = (Len ol - Len p3, Len p3).

(** A memory holding three blocks whose oligo is rich in G and C as it
    is and not when the payload is complemented. *)
Definition mem_flip : state :=
  {| bufs := [[85; 85; 85; 149]; [149; 149; 149; 149]; [149; 149; 149; 149]];
     vecs := [Some <$> seq 0 3];
     calls := [] |}.

(** The oligo that [Encode] makes of the payload of [mem_flip] at
    address 100 in the configuration B = 3, R = 1, M = 4: the one of the
    second run. *)
Definition oligo314 : list nt := Eval vm_compute in
  match (Encode codec314 primer5 primer3 100 false (Some 0%nat) mem_flip).2 with
  | Done (Some o, _) => o
  | _ => []
  end.

(** ** Vocabulary of the primer search *)

(** What [decode] can take from [oligo.Find], for a notion [matches ol p
    pos len] of "[p] matches [ol] at position [pos], over [len] symbols,
    within the tolerance [PrimerErrors]": a position that is not negative
    is the position of such a match ([find_sound]), and some match is
    reported when there is one ([find_complete]).  Which match is
    reported when there are several is left to the search. *)
Definition find_sound {O} `{!Oligo O} (matches : O → O → Z → Z → Prop) : Prop :=
  ∀ ol p, 0 ≤ (Find ol p PrimerErrors).1 →
    matches ol p (Find ol p PrimerErrors).1 (Find ol p PrimerErrors).2.

Definition find_complete {O} `{!Oligo O} (matches : O → O → Z → Z → Prop) : Prop :=
  ∀ ol p pos len, matches ol p pos len → 0 ≤ (Find ol p PrimerErrors).1.

(** The 5' primer matches starting at position 0 of the oligo, and the
    3' primer matches ending exactly at its end. *)
Definition matches_at_start {O} (matches : O → O → Z → Z → Prop) (p5 ol : O) : Prop :=
  ∃ len, matches ol p5 0 len.

Definition matches_at_end {O} `{!Oligo O} (matches : O → O → Z → Z → Prop)
    (p3 ol : O) : Prop :=
  ∃ pos len, matches ol p3 pos len ∧ pos + len = Len ol.

(** Matching for the reference oligos: the whole of [p] lies in [ol]
    from position [pos] on, with at most [PrimerErrors] symbols that
    differ. *)
Definition list_matches (ol p : list nt) (pos len : Z) : Prop :=
  0 ≤ pos < Z.of_nat (length ol) ∧
  len = Z.of_nat (length p) ∧
  pos + len ≤ Z.of_nat (length ol) ∧
  mismatches p (drop (Z.to_nat pos) ol) ≤ PrimerErrors.

(** A recovery that gives up with the primer error. *)
Definition primer_recovery : Recovery (list nt) unit := {|
  tryRecover := λ c p5 p3 sol flip, ([], [], Some Eprimer);
|}.

(** The scenario's oligo with two symbols of its 5' primer and one of
    its 3' primer changed, and with four symbols of its 5' primer
    changed. *)
Definition oligo823_noisy : list nt :=
  <[1%nat := NtA]> (<[4%nat := NtG]> (<[172%nat := NtT]> oligo823)).
Definition oligo823_broken : list nt :=
  <[0%nat := NtT]> (<[1%nat := NtA]> (<[2%nat := NtA]> (<[4%nat := NtG]> oligo823))).

(** An oligo that ends with the 3' primer, one symbol changed, and has
    an exact copy of it further in; and one that starts with the 5'
    primer, one symbol changed, followed by an exact copy. *)
Definition oligo_shadowed3 : list nt :=
  primer5 ++ primer3 ++ [NtA; NtA; NtA; NtA] ++ <[0%nat := NtA]> primer3.
Definition oligo_shadowed5 : list nt :=
  <[0%nat := NtC]> primer5 ++ primer5 ++ primer3.

(** * Properties *)

(** ** The concrete scenario B = 8, R = 2, M = 3 *)

Example NewCodec_823 : NewCodec 8 3 2 tt = Done (Some codec823).
Proof. reflexivity. Qed.

Example NewCodec_invalid : NewCodec 8 6 2 tt = Done None ∧ NewCodec 8 2 2 tt = Done None.
Proof. split; reflexivity. Qed.

Example MaxAddr_823 : MaxAddr codec823 = Done (47 ^ 6 / 4).
Proof. reflexivity. Qed.

Example OligoLen_823 :
  OligoLen codec823 = 17 * 8 + 3 * 6 + 5 * 2 ∧
  Len oligo823 = Len primer5 + OligoLen codec823 + Len primer3.
Proof. split; reflexivity. Qed.

Example pack_823 :
  calculateMdBlocks codec823 12345 false false = Done ([0; 0; 0; 5; 27; 31; 63; 63], None).
Proof. by vm_compute. Qed.

Example unpack_823 :
  unpack codec823 [0; 0; 0; 5; 27; 31; 63; 63] = Done (12345, false, false).
Proof. by vm_compute. Qed.

(** ** Machine arithmetic *)

Lemma wrap64_small z : 0 ≤ z < 2 ^ 64 → wrap64 z = z.
Proof. intros Hz. unfold wrap64. by apply Z.mod_small. Qed.

Lemma wrap64_range z : 0 ≤ wrap64 z < 2 ^ 64.
Proof. unfold wrap64. apply Z.mod_pos_bound. lia. Qed.

Lemma wrap64_le z : 0 ≤ z → wrap64 z ≤ z.
Proof. intros Hz. unfold wrap64. apply Z.mod_le; lia. Qed.

Lemma iter_wrap_pow (b : Z) (n : nat) :
  Nat.iter n (λ ma, wrap64 (ma * b)) 1 = wrap64 (b ^ Z.of_nat n).
Proof.
  induction n as [|n IH].
  - reflexivity.
  - rewrite Nat.iter_succ, IH. unfold wrap64.
    rewrite Z.mul_mod_idemp_l by lia.
    rewrite Nat2Z.inj_succ, Z.pow_succ_r by lia.
    f_equal. lia.
Qed.

Lemma store_ok {A} (l : list A) (n : nat) x :
  (n < length l)%nat → store l (Z.of_nat n) x = Done (<[n := x]> l).
Proof.
  intros Hn. unfold store.
  destruct (Z.ltb_spec (Z.of_nat n) 0); [lia|].
  destruct (Z.leb_spec (Z.of_nat (length l)) (Z.of_nat n)); [lia|].
  cbn. by rewrite Nat2Z.id.
Qed.

Lemma index_ok {A} (l : list A) (n : nat) x :
  l !! n = Some x → index l (Z.of_nat n) = Done x.
Proof.
  intros Hn. unfold index.
  destruct (Z.ltb_spec (Z.of_nat n) 0); [lia|].
  by rewrite Nat2Z.id, Hn.
Qed.

(** ** The digit loops *)

Section Digits.
Variable base : Z.
Hypothesis base_pos : 0 < base.

Lemma fold_digits_snoc l d acc :
  fold_digits base (l ++ [d]) acc = fold_digits base l acc * base + d.
Proof. unfold fold_digits. by rewrite fold_left_app. Qed.

Lemma fold_digits_ge l acc :
  0 ≤ acc → Forall (λ d, 0 ≤ d) l → acc ≤ fold_digits base l acc.
Proof.
  revert acc. induction l as [|d l IH]; intros acc Hacc Hl; [reflexivity|].
  inversion Hl as [|? ? Hd Hl']; subst. cbn.
  etrans; [|apply IH; [nia|done]]. nia.
Qed.

(** The splitting loop stores, most significant first, the [k] low
    digits of [address] and leaves the quotient. *)
Lemma split_loop_spec (k : nat) mdb address :
  0 ≤ address → (k ≤ length mdb)%nat →
  ∃ mdb',
    for_down k (split_step base) (mdb, address) = Done (mdb', address / base ^ Z.of_nat k) ∧
    length mdb' = length mdb ∧
    drop k mdb' = drop k mdb ∧
    Forall (λ d, 0 ≤ d < base) (take k mdb') ∧
    fold_digits base (take k mdb') (address / base ^ Z.of_nat k) = address.
Proof.
  revert mdb address. induction k as [|k IH]; intros mdb address Ha Hk.
  - exists mdb. cbn. rewrite Z.div_1_r, take_0. by repeat split.
  - cbn [for_down]. unfold split_step at 2.
    destruct (Z.eqb_spec base 0) as [->|_]; [lia|].
    rewrite store_ok by lia. cbn [mbind run_bind].
    destruct (IH (<[k := address mod base]> mdb) (address / base)) as
      (mdb' & Hrun & Hlen & Hdrop & Hdig & Hfold).
    { apply Z.div_pos; lia. } { rewrite length_insert. lia. }
    rewrite length_insert in Hlen.
    assert (Hk' : mdb' !! k = Some (address mod base)).
    { rewrite <- (Nat.add_0_r k), <- lookup_drop, Hdrop, lookup_drop, Nat.add_0_r.
      apply list_lookup_insert_eq. lia. }
    assert (Hdiv : address / base / base ^ Z.of_nat k = address / base ^ Z.of_nat (S k)).
    { rewrite Nat2Z.inj_succ, Z.pow_succ_r by lia. rewrite Z.div_div by lia. done. }
    exists mdb'. rewrite Hrun, Hdiv in *. split_and!.
    + done.
    + done.
    + replace (S k) with (k + 1)%nat by lia.
      rewrite <- !drop_drop, Hdrop, !drop_drop. apply drop_insert_lt. lia.
    + rewrite (take_S_r _ _ _ Hk'). apply Forall_app. split; [done|].
      apply Forall_singleton. apply Z.mod_pos_bound. lia.
    + rewrite (take_S_r _ _ _ Hk'), fold_digits_snoc, Hfold.
      rewrite Z.mul_comm. symmetry. apply Z.div_mod. lia.
Qed.

(** The folding loop of [unpack] computes [fold_digits] as long as the
    result fits 64 bits. *)
Lemma fold_loop_spec (k j : nat) (mdblk : list Z) acc :
  (j + k ≤ length mdblk)%nat → 0 ≤ acc →
  Forall (λ d, 0 ≤ d) (take k (drop j mdblk)) →
  fold_digits base (take k (drop j mdblk)) acc < 2 ^ 64 →
  for_up k (Z.of_nat j)
    (λ i md, d ← index mdblk i; Done (wrap64 (wrap64 (md * base) + d))) acc
  = Done (fold_digits base (take k (drop j mdblk)) acc).
Proof.
  revert j acc. induction k as [|k IH]; intros j acc Hlen Hacc Hdig Hfit.
  - by rewrite take_0.
  - destruct (lookup_lt_is_Some_2 mdblk j) as [d Hd]; [lia|].
    rewrite (drop_S _ _ _ Hd) in *. cbn [take] in *.
    inversion Hdig as [|? ? Hd0 Hdig']; subst.
    cbn [for_up]. rewrite (index_ok _ _ _ Hd). cbn [mbind run_bind].
    change (fold_digits base (d :: take k (drop (S j) mdblk)) acc)
      with (fold_digits base (take k (drop (S j) mdblk)) (acc * base + d)) in *.
    assert (Hstep : acc * base + d ≤ fold_digits base (take k (drop (S j) mdblk)) (acc * base + d)).
    { apply fold_digits_ge; [nia|done]. }
    assert (Hw : wrap64 (wrap64 (acc * base) + d) = acc * base + d).
    { rewrite (wrap64_small (acc * base)) by nia. apply wrap64_small. nia. }
    rewrite Hw. replace (Z.of_nat j + 1) with (Z.of_nat (S j)) by lia.
    apply IH; [lia|nia|done|done].
Qed.


End Digits.

(** ** The address packer *)

Section Packer.
Context {Crit : Type}.
Implicit Types c : Codec Crit.

Lemma index_maxvals m :
  3 ≤ m ≤ 5 → index maxvals m = Done (baseM m) ∧ 47 ≤ baseM m ≤ 733.
Proof.
  intros Hm.
  assert (m = 3 ∨ m = 4 ∨ m = 5) as [-> | [-> | ->]] by lia; by vm_compute.
Qed.

Lemma MaxAddr_eq c :
  3 ≤ mdsz c ≤ 5 →
  MaxAddr c = Done (wrap64 (baseM (mdsz c) ^ Z.of_nat (mdnum c)) / 4).
Proof.
  intros Hm. destruct (index_maxvals _ Hm) as [Hi Hb].
  unfold MaxAddr. rewrite Hi. cbn [mbind run_bind].
  rewrite wrap64_small by lia. by rewrite iter_wrap_pow.
Qed.

(** The first half of [calculateMdBlocks]: an address within range is
    split into [B - R] digits; what does not fit is the residual the
    code checks. *)
Lemma calculateMdBlocks_split c a ef sf maxaddr :
  counts_ok c → 3 ≤ mdsz c ≤ 5 → MaxAddr c = Done maxaddr → 0 ≤ a ≤ maxaddr →
  let base := baseM (mdsz c) in
  let value := adjusted a ef sf maxaddr in
  ∃ mdb,
    length mdb = Z.to_nat (blknum c) ∧
    Forall (λ d, 0 ≤ d < base) (take (mdnum c) mdb) ∧
    fold_digits base (take (mdnum c) mdb) (value / base ^ Z.of_nat (mdnum c)) = value ∧
    0 ≤ value ≤ wrap64 (base ^ Z.of_nat (mdnum c)) ∧
    calculateMdBlocks c a ef sf =
      if negb (value / base ^ Z.of_nat (mdnum c) =? 0) then Panic Paddress_not_zero
      else if mdsz c * 2 >? 8 then Panic Pmetadata_too_big
      else erasure_blocks c mdb.
Proof.
  intros [HR HB] Hm Hmax Ha base value.
  destruct (index_maxvals _ Hm) as [Hi Hb]. fold base in Hi, Hb.
  pose proof (MaxAddr_eq c Hm) as Hmax'. rewrite Hmax in Hmax'.
  injection Hmax' as Hmax'. fold base in Hmax'.
  pose proof (wrap64_range (base ^ Z.of_nat (mdnum c))) as Hw.
  assert (Hq : 4 * maxaddr ≤ wrap64 (base ^ Z.of_nat (mdnum c))).
  { rewrite Hmax'. apply Z.mul_div_le. lia. }
  assert (Hm0 : 0 ≤ maxaddr) by (rewrite Hmax'; apply Z.div_pos; lia).
  assert (Hv : 0 ≤ value ≤ 4 * maxaddr).
  { unfold value, adjusted. destruct sf, ef; lia. }
  assert (Hadj :
    (if ef then wrap64 ((if sf then wrap64 (a + wrap64 (maxaddr * 2)) else a) + maxaddr)
     else (if sf then wrap64 (a + wrap64 (maxaddr * 2)) else a)) = value).
  { unfold value, adjusted.
    destruct sf, ef; rewrite ?(wrap64_small (maxaddr * 2)) by lia;
      rewrite ?(wrap64_small (a + maxaddr * 2)) by lia;
      rewrite ?wrap64_small by lia; lia. }
  assert (Hn : wrap64 (blknum c - rsnum c) = blknum c - rsnum c)
    by (apply wrap64_small; lia).
  assert (Hlen : Z.to_nat (wrap64 (wrap64 (blknum c - rsnum c) + wrap64 (rsnum c)))
                 = Z.to_nat (blknum c)).
  { rewrite Hn, (wrap64_small (rsnum c)) by lia. rewrite wrap64_small by lia.
    f_equal. lia. }
  assert (Hcnt : Z.to_nat (to_int (wrap64 (wrap64 (blknum c - rsnum c) - 1)) + 1) = mdnum c).
  { rewrite Hn. unfold mdnum.
    destruct (decide (blknum c - rsnum c = 0)) as [-> | Hne]; [done|].
    rewrite wrap64_small by lia. unfold to_int.
    destruct (Z.ltb_spec (blknum c - rsnum c - 1) (2 ^ 63)); lia. }
  destruct (split_loop_spec base ltac:(lia) (mdnum c)
              (replicate (Z.to_nat (blknum c)) 0) value)
    as (mdb & Hrun & Hlenmdb & _ & Hdig & Hfold).
  { lia. } { rewrite length_replicate. unfold mdnum. lia. }
  rewrite length_replicate in Hlenmdb.
  exists mdb. split_and!; [done | done | done | lia | lia |].
  unfold calculateMdBlocks. rewrite Hmax. cbn [mbind run_bind].
  destruct (Z.gtb_spec a maxaddr); [lia|].
  rewrite Hi. cbn [mbind run_bind].
  rewrite Hadj, Hlen, Hcnt, (wrap64_small base) by lia.
  rewrite Hrun. cbn [mbind run_bind]. done.
Qed.

(** Reading the shards back after the erasure coder. *)
Lemma readback_spec (shards : list (list Z)) (k j : nat) (mdb : list Z) :
  length shards = length mdb →
  Forall (λ sh, length sh = 1%nat) shards →
  (j + k ≤ length mdb)%nat →
  ∃ mdb',
    for_up k (Z.of_nat j)
      (λ i mdb, sh ← index shards i; b ← index sh 0; store mdb i b) mdb = Done mdb' ∧
    length mdb' = length mdb ∧
    (∀ i, (j ≤ i < j + k)%nat → mdb' !! i = shards !! i ≫= head) ∧
    (∀ i, ¬ (j ≤ i < j + k)%nat → mdb' !! i = mdb !! i).
Proof.
  intros Hlen Hone. revert j mdb Hlen.
  induction k as [|k IH]; intros j mdb Hlen Hjk.
  - exists mdb. split_and!; [done | done | intros; lia | done].
  - destruct (lookup_lt_is_Some_2 shards j) as [sh Hsh]; [lia|].
    pose proof (Forall_lookup_1 _ _ _ _ Hone Hsh) as Hsh1.
    destruct sh as [|b [|? ?]]; try discriminate.
    cbn [for_up]. rewrite (index_ok _ _ _ Hsh). cbn [mbind run_bind].
    change (index [b] 0) with (Done b). cbn [mbind run_bind].
    rewrite store_ok by lia. cbn [mbind run_bind].
    replace (Z.of_nat j + 1) with (Z.of_nat (S j)) by lia.
    destruct (IH (S j) (<[j := b]> mdb)) as (mdb' & Hrun & Hlen' & Hin & Hout).
    { by rewrite length_insert. } { rewrite length_insert. lia. }
    rewrite length_insert in Hlen'.
    exists mdb'. split_and!; [done | done | |].
    + intros i Hi. destruct (decide (i = j)) as [-> | Hne].
      * rewrite Hout by lia. rewrite list_lookup_insert_eq by lia. by rewrite Hsh.
      * apply Hin. lia.
    + intros i Hi. rewrite Hout by lia. apply list_lookup_insert_ne. lia.
Qed.

(** With digits below 256 and a coder that keeps its contract, the
    second half of [calculateMdBlocks] returns the address digits
    unchanged, followed by the parity digits. *)
Lemma erasure_blocks_spec c mdb :
  encoder_contract c → (mdnum c ≤ length mdb)%nat →
  length mdb = Z.to_nat (blknum c) →
  Forall (λ d, 0 ≤ d < 256) (take (mdnum c) mdb) →
  ∃ mdb',
    erasure_blocks c mdb = Done (mdb', None) ∧
    length mdb' = length mdb ∧
    take (mdnum c) mdb' = take (mdnum c) mdb.
Proof.
  intros Henc Hn Hlen Hdig. unfold erasure_blocks.
  destruct (Henc ((λ d, [to_byte d]) <$> mdb)) as (shards' & Hrun & Hlen' & Hone & Htake).
  { by rewrite length_fmap. }
  { apply Forall_fmap, Forall_true. done. }
  rewrite Hrun, length_fmap. rewrite length_fmap in Hlen'.
  destruct (readback_spec shards' (length mdb) 0 mdb) as (mdb' & Hrb & Hl & Hin & _);
    [done | done | lia |].
  change (Z.of_nat 0) with 0 in Hrb. rewrite Hrb. cbn [mbind run_bind].
  exists mdb'. split_and!; [done | done |].
  apply list_eq. intros i. destruct (decide (i < mdnum c)%nat) as [Hi | Hi].
  - rewrite !lookup_take_lt by done. rewrite Hin by lia.
    assert (Hsh : shards' !! i = ((λ d, [to_byte d]) <$> mdb) !! i).
    { rewrite <- (lookup_take_lt shards' (mdnum c)) by done.
      fold (mdnum c) in Htake. rewrite Htake. by apply lookup_take_lt. }
    rewrite Hsh, list_lookup_fmap.
    destruct (mdb !! i) as [d|] eqn:Hd; [|done]. cbn.
    assert (0 ≤ d < 256) as Hd256.
    { eapply (Forall_lookup_1 _ _ i d Hdig). by rewrite lookup_take_lt. }
    unfold to_byte. by rewrite Z.mod_small.
  - rewrite !lookup_take_ge by lia. done.
Qed.

End Packer.

Section Roundtrip.
Context {Crit : Type}.
Implicit Types c : Codec Crit.

(** Splitting the flags off a folded value. *)
Lemma unpack_spec c mdblk maxaddr :
  counts_ok c → 3 ≤ mdsz c ≤ 5 → MaxAddr c = Done maxaddr →
  (mdnum c ≤ length mdblk)%nat →
  Forall (λ d, 0 ≤ d) (take (mdnum c) mdblk) →
  let md := fold_digits (baseM (mdsz c)) (take (mdnum c) mdblk) 0 in
  md < 2 ^ 64 →
  unpack c mdblk =
    let '(sf, md) :=
      if md >=? wrap64 (2 * maxaddr) then (true, wrap64 (md - wrap64 (2 * maxaddr)))
      else (false, md) in
    let '(ef, md) :=
      if md >=? maxaddr then (true, wrap64 (md - maxaddr)) else (false, md) in
    Done (md, ef, sf).
Proof.
  intros _ Hm Hmax Hlen Hdig md Hfit.
  destruct (index_maxvals _ Hm) as [Hi Hb].
  unfold unpack. rewrite Hi. cbn [mbind run_bind].
  rewrite (wrap64_small (baseM (mdsz c))) by lia.
  pose proof (fold_loop_spec (baseM (mdsz c)) ltac:(lia) (mdnum c) 0 mdblk 0) as Hloop.
  rewrite drop_0 in Hloop. fold (mdnum c).
  change (Z.of_nat 0) with 0 in Hloop.
  rewrite Hloop by (done || lia). cbn [mbind run_bind].
  rewrite Hmax. cbn [mbind run_bind]. done.
Qed.

Lemma adjusted_flags a ef sf maxaddr :
  0 ≤ a < maxaddr → 4 * maxaddr ≤ 2 ^ 64 →
  let md := adjusted a ef sf maxaddr in
  (let '(sf, md) :=
     if md >=? wrap64 (2 * maxaddr) then (true, wrap64 (md - wrap64 (2 * maxaddr)))
     else (false, md) in
   let '(ef, md) :=
     if md >=? maxaddr then (true, wrap64 (md - maxaddr)) else (false, md) in
   Done (md, ef, sf)) = Done (a, ef, sf).
Proof.
  intros Ha Hm md. subst md. unfold adjusted.
  rewrite (wrap64_small (2 * maxaddr)) by lia.
  destruct sf, ef;
    repeat (rewrite ?wrap64_small by lia;
            match goal with
            | |- context [?x >=? ?y] => destruct (Z.geb_spec x y); try lia
            end);
    rewrite ?wrap64_small by lia; repeat f_equal; lia.
Qed.

(** The reference erasure coder keeps the contract. *)
Lemma sum_encoder_contract c :
  counts_ok c → ec c = sum_encoder (blknum c - rsnum c) (rsnum c) → encoder_contract c.
Proof.
  intros [HR HB] Hec shards Hlen Hone. rewrite Hec. cbn.
  eexists. split; [reflexivity|]. split_and!.
  - rewrite length_app, length_take, length_replicate. lia.
  - apply Forall_app. split; [by apply Forall_take|].
    apply Forall_replicate. done.
  - rewrite take_app_le by (rewrite length_take; lia).
    rewrite take_take. f_equal. lia.
Qed.

End Roundtrip.

(** ** The panics of the packer *)

Section Panics.
Context {Crit : Type}.
Implicit Types c : Codec Crit.

Lemma bind_no_panic {A B} (m : run A) (f : A → run B) p :
  m ≠ Panic p → (∀ a, f a ≠ Panic p) → m ≫= f ≠ Panic p.
Proof.
  intros Hm Hf. destruct m; cbn [mbind run_bind]; [apply Hf|].
  intros [= ->]. by apply Hm.
Qed.

(** Indexing raises run-time panics only. *)
Lemma index_no_panic {A} (l : list A) i p :
  (∀ f, p ≠ Pruntime f) → index l i ≠ Panic p.
Proof. intros Hp. unfold index. repeat case_match; try done; intros [= <-]; by eapply Hp. Qed.

Lemma store_no_panic {A} (l : list A) i x p :
  (∀ f, p ≠ Pruntime f) → store l i x ≠ Panic p.
Proof. intros Hp. unfold store. repeat case_match; try done; intros [= <-]; by eapply Hp. Qed.

Lemma for_up_no_panic {S} n i (body : Z → S → run S) s p :
  (∀ i s, body i s ≠ Panic p) → for_up n i body s ≠ Panic p.
Proof.
  intros Hb. revert i s. induction n as [|n IH]; intros i s; [done|].
  cbn [for_up]. apply bind_no_panic; [apply Hb | intros; apply IH].
Qed.

Lemma for_down_no_panic {S} n (body : Z → S → run S) s p :
  (∀ i s, body i s ≠ Panic p) → for_down n body s ≠ Panic p.
Proof.
  intros Hb. revert s. induction n as [|n IH]; intros s; [done|].
  cbn [for_down]. apply bind_no_panic; [apply Hb | intros; apply IH].
Qed.

Lemma MaxAddr_no_panic c p : (∀ f, p ≠ Pruntime f) → MaxAddr c ≠ Panic p.
Proof.
  intros Hp. unfold MaxAddr. apply bind_no_panic; [by apply index_no_panic | done].
Qed.

Lemma split_no_panic n mdlen s p :
  (∀ f, p ≠ Pruntime f) → for_down n (split_step mdlen) s ≠ Panic p.
Proof.
  intros Hp. apply for_down_no_panic. intros i [mdb addr]. unfold split_step.
  case_match; [intros [= <-]; by eapply Hp|].
  apply bind_no_panic; [by apply store_no_panic | done].
Qed.

Lemma erasure_blocks_no_panic c mdb p :
  (∀ f, p ≠ Pruntime f) → erasure_blocks c mdb ≠ Panic p.
Proof.
  intros Hp. unfold erasure_blocks. destruct (ec_Encode _ _) as [sh [e|]]; [done|].
  apply bind_no_panic; [|done]. apply for_up_no_panic. intros i s.
  apply bind_no_panic; [by apply index_no_panic|]. intros sh'.
  apply bind_no_panic; [by apply index_no_panic|]. intros b. by apply store_no_panic.
Qed.

End Panics.

(** C1 (amended).  For every configuration with [0 ≤ R ≤ B] and metadata
    width [M] 3 or 4, an erasure coder that keeps its contract, every
    address [a] strictly below [MaxAddr] and every pair of flags:
    [calculateMdBlocks] returns a digit vector of length [B] whose first
    [B - R] entries are the base-[baseM] digits, most significant first,
    of [a + 2*MaxAddr*[sf] + MaxAddr*[ef]], and [unpack] of that vector
    is exactly [(a, ef, sf)]. *)
Theorem pack_unpack_roundtrip {Crit} (c : Codec Crit) a ef sf maxaddr :
  counts_ok c → mdsz c = 3 ∨ mdsz c = 4 → encoder_contract c →
  MaxAddr c = Done maxaddr → 0 ≤ a < maxaddr →
  ∃ mdb,
    calculateMdBlocks c a ef sf = Done (mdb, None) ∧
    length mdb = Z.to_nat (blknum c) ∧
    Forall (λ d, 0 ≤ d < baseM (mdsz c)) (take (mdnum c) mdb) ∧
    fold_digits (baseM (mdsz c)) (take (mdnum c) mdb) 0 = adjusted a ef sf maxaddr ∧
    unpack c mdb = Done (a, ef, sf).
Proof.
  intros Hcnt HM Henc Hmax Ha.
  assert (Hm : 3 ≤ mdsz c ≤ 5) by lia.
  destruct (index_maxvals _ Hm) as [_ Hb].
  assert (Hb' : baseM (mdsz c) ≤ 186) by (destruct HM as [-> | ->]; by vm_compute).
  pose proof (MaxAddr_eq c Hm) as Hmax'. rewrite Hmax in Hmax'.
  injection Hmax' as Hmax'.
  pose proof (wrap64_range (baseM (mdsz c) ^ Z.of_nat (mdnum c))) as Hw.
  assert (Hq : 4 * maxaddr ≤ wrap64 (baseM (mdsz c) ^ Z.of_nat (mdnum c))).
  { rewrite Hmax'. apply Z.mul_div_le. lia. }
  assert (Hpow : wrap64 (baseM (mdsz c) ^ Z.of_nat (mdnum c))
                 ≤ baseM (mdsz c) ^ Z.of_nat (mdnum c)).
  { apply wrap64_le, Z.pow_nonneg. lia. }
  destruct (calculateMdBlocks_split c a ef sf maxaddr Hcnt Hm Hmax ltac:(lia))
    as (mdb & Hlen & Hdig & Hfold & Hval & Hrun).
  assert (Hlt : adjusted a ef sf maxaddr < 4 * maxaddr).
  { unfold adjusted. destruct sf, ef; lia. }
  rewrite Z.div_small in Hfold, Hrun by lia.
  change (negb (0 =? 0)) with false in Hrun. cbv iota in Hrun.
  destruct (Z.gtb_spec (mdsz c * 2) 8) as [|_]; [lia|].
  assert (Hn : (mdnum c ≤ length mdb)%nat).
  { rewrite Hlen. unfold mdnum. destruct Hcnt. lia. }
  destruct (erasure_blocks_spec c mdb Henc Hn Hlen) as (mdb' & Hrun' & Hlen' & Htake).
  { eapply Forall_impl; [|exact Hdig]. cbn. lia. }
  exists mdb'. rewrite Hrun, Htake. split_and!; [done | congruence | done | done |].
  rewrite (unpack_spec c mdb' maxaddr Hcnt Hm Hmax); rewrite ?Htake, ?Hfold.
  - apply adjusted_flags; lia.
  - lia.
  - eapply Forall_impl; [|exact Hdig]. cbn. lia.
  - lia.
Qed.

(** An instance of [pack_unpack_roundtrip]: B = 8, R = 2, M = 3, address
    12345 with both flags clear. *)
Lemma pack_unpack_roundtrip_witness :
  ∃ mdb,
    calculateMdBlocks codec823 12345 false false = Done (mdb, None) ∧
    length mdb = 8%nat ∧
    Forall (λ d, 0 ≤ d < 47) (take 6 mdb) ∧
    fold_digits 47 (take 6 mdb) 0 = 12345 ∧
    unpack codec823 mdb = Done (12345, false, false).
Proof.
  apply (pack_unpack_roundtrip codec823 12345 false false 2694803832).
  - split; cbn; lia.
  - left. reflexivity.
  - apply sum_encoder_contract; [split; cbn; lia | reflexivity].
  - reflexivity.
  - lia.
Defined.

(** C1 as stated fails on the code at both ends of its range: with
    [M = 5] the packer aborts for address 0, and the address [MaxAddr]
    itself with both flags clear is read back as address 0 with [ef]
    set. *)
Lemma pack_unpack_counterexample :
  calculateMdBlocks codec315 0 false false = Panic Pmetadata_too_big ∧
  MaxAddr codec823 = Done 2694803832 ∧
  ∃ mdb, calculateMdBlocks codec823 2694803832 false false = Done (mdb, None) ∧
         unpack codec823 mdb = Done (0, true, false).
Proof.
  split; [by vm_compute|]. split; [by vm_compute|].
  exists [11; 35; 11; 35; 11; 35; 138; 138]. split; by vm_compute.
Qed.

(** C2.  The source at B = 3, R = 1, M = 4: [MaxAddr] is 8649 =
    186^2 / 4, and packing the address 8649 with both flags set leaves
    the residual 1, so the "address not zero" abort is reached although
    the address is not above [MaxAddr].  [Encode] gets there with the
    address 8649 and [ef] set as soon as its first run has a GC fraction
    above 0.6. *)
Theorem residual_at_MaxAddr :
  MaxAddr codec314 = Done 8649 ∧
  adjusted 8649 true true 8649 = 186 ^ 2 ∧
  calculateMdBlocks codec314 8649 true true = Panic Paddress_not_zero ∧
  Encode codec314 primer5 primer3 8649 true (Some 0%nat) mem_gc
    = (logged (Call_encode true) (logged (Call_encode false) mem_gc),
       Panic Paddress_not_zero).
Proof. split_and!; by vm_compute. Qed.

(** ** The metadata width guard *)

Section Guard.
Context {Crit O : Type} `{!ReedSolomon, !Oligo O, !Level0 O Crit}.
Implicit Types c : Codec Crit.

(** With a width of at most 4 the guard of [calculateMdBlocks] never
    fires, whatever the other parameters are. *)
Lemma guard_silent c a ef sf :
  mdsz c * 2 ≤ 8 → calculateMdBlocks c a ef sf ≠ Panic Pmetadata_too_big.
Proof.
  intros Hm. unfold calculateMdBlocks.
  apply bind_no_panic; [by apply MaxAddr_no_panic|]. intros maxaddr.
  case_match; [done|].
  apply bind_no_panic; [by apply index_no_panic|]. intros mdlen.
  apply bind_no_panic; [by apply split_no_panic|].
  intros [mdb addr]. case_match; [done|].
  destruct (Z.gtb_spec (mdsz c * 2) 8); [lia|]. by apply erasure_blocks_no_panic.
Qed.

(** With the width 5 the guard fires for every address within range:
    [733^n] is odd, so the split leaves no residual and the guard is
    reached. *)
Lemma guard_fires c a ef sf maxaddr :
  counts_ok c → mdsz c = 5 → MaxAddr c = Done maxaddr → 0 ≤ a ≤ maxaddr →
  calculateMdBlocks c a ef sf = Panic Pmetadata_too_big.
Proof.
  intros Hcnt HM Hmax Ha.
  assert (Hm : 3 ≤ mdsz c ≤ 5) by lia.
  pose proof (MaxAddr_eq c Hm) as Hmax'. rewrite Hmax in Hmax'.
  injection Hmax' as Hmax'.
  destruct (calculateMdBlocks_split c a ef sf maxaddr Hcnt Hm Hmax Ha)
    as (mdb & _ & _ & _ & Hval & Hrun).
  rewrite HM in *. change (baseM 5) with 733 in *.
  set (w := wrap64 (733 ^ Z.of_nat (mdnum c))) in *.
  assert (Hodd : Z.odd w = true).
  { unfold w, wrap64. rewrite <- Z.bit0_odd, Z.mod_pow2_bits_low, Z.bit0_odd by lia.
    destruct (mdnum c) as [|n]; [done|].
    rewrite Z.odd_pow by lia. done. }
  apply Z.odd_spec in Hodd as [k Hk].
  assert (Hq : 4 * maxaddr < w).
  { rewrite Hmax'. pose proof (Z.mul_div_le w 4 ltac:(lia)).
    pose proof (Z.div_mod w 4 ltac:(lia)). pose proof (Z.mod_pos_bound w 4 ltac:(lia)).
    destruct (decide (w mod 4 = 0)); lia. }
  assert (Hle : w ≤ 733 ^ Z.of_nat (mdnum c)) by (apply wrap64_le, Z.pow_nonneg; lia).
  assert (Hadj : adjusted a ef sf maxaddr ≤ 4 * maxaddr).
  { unfold adjusted. destruct sf, ef; lia. }
  rewrite Z.div_small in Hrun by lia. exact Hrun.
Qed.

(** Above [MaxAddr] the packer returns the out-of-range error before
    it reaches any of its internal checks. *)
Lemma address_too_big c a ef sf maxaddr :
  MaxAddr c = Done maxaddr → maxaddr < a →
  calculateMdBlocks c a ef sf = Done ([], Some Eaddress_too_big).
Proof.
  intros Hmax Ha. unfold calculateMdBlocks. rewrite Hmax. cbn [mbind run_bind].
  destruct (Z.gtb_spec a maxaddr); [done | lia].
Qed.

(** The size check of [encode] leaves the function only with the
    invalid-size error. *)
Lemma check_size_return c data n i s s' r :
  forM_up n i (check_size (O := O) c data) () s = (s', Done (Return r)) →
  r = (None, Some Einvalid_data_size).
Proof.
  revert i s. induction n as [|n IH]; intros i s; [done|].
  cbn [forM_up]. unfold mbind at 1, M_bind at 1.
  destruct (check_size c data i () s) as [s1 [[[]|r1]|p]] eqn:Hstep; [| |done].
  - apply IH.
  - cbn. intros [= <- <-]. revert Hstep. unfold check_size, mbind, M_bind, mret, M_ret.
    destruct (vec_get data i s) as [s2 [blk|?]]; [|done].
    destruct (buf_len blk s2) as [s3 [m|?]]; [|done].
    case_match; cbn; congruence.
Qed.

(** With the width 5 no call of [encode] returns an oligo. *)
Lemma encode_width5 c (p5 p3 : O) a ef sf data s s' o err :
  counts_ok c → mdsz c = 5 → 0 ≤ a →
  encode c p5 p3 a ef sf data s = (s', Done (o, err)) → o = None ∧ is_Some err.
Proof.
  intros Hcnt HM Ha. unfold encode. unfold mbind at 1, M_bind at 1.
  destruct (vec_len data s) as [s1 [n|?]]; [|done].
  case_match; [cbn; intros [= <- <- <-]; eauto|].
  unfold mbind at 1, M_bind at 1.
  destruct (forM_up _ _ _ _ s1) as [s2 [[[]|r]|?]] eqn:Hchk; [| |done].
  - case_match; [cbn; intros [= <- <- <-]; eauto|].
    unfold mbind at 1, M_bind at 1, lift.
    pose proof (MaxAddr_eq c ltac:(lia)) as Hmax.
    destruct (Z.le_gt_cases a (wrap64 (baseM (mdsz c) ^ Z.of_nat (mdnum c)) / 4)).
    + by rewrite (guard_fires c a ef sf _ Hcnt HM Hmax).
    + rewrite (address_too_big c a ef sf _ Hmax) by done.
      cbn. intros [= <- <- <-]; eauto.
  - apply check_size_return in Hchk as ->. cbn. intros [= <- <- <-]; eauto.
Qed.

(** With the width 5 a call of [encode] whose arguments pass the
    checks of the payload and of the primer, with an address within
    range, aborts on the guard. *)
Lemma encode_width5_aborts c (p5 p3 : O) a ef sf data s maxaddr :
  counts_ok c → mdsz c = 5 → MaxAddr c = Done maxaddr → 0 ≤ a ≤ maxaddr →
  vec_len data s = (s, Done (BlockNum c)) →
  forM_up (Z.to_nat (BlockNum c)) 0 (check_size (O := O) c data) () s = (s, Done (Next ())) →
  4 ≤ Len p5 →
  encode c p5 p3 a ef sf data s = (s, Panic Pmetadata_too_big).
Proof.
  intros Hcnt HM Hmax Ha Hlen Hchk Hp5. unfold encode.
  unfold mbind at 1, M_bind at 1. rewrite Hlen.
  rewrite Z.eqb_refl. cbn [negb].
  unfold mbind at 1, M_bind at 1. rewrite Hchk.
  destruct (Z.ltb_spec (Len p5) 4); [lia|].
  unfold mbind at 1, M_bind at 1, lift.
  by rewrite (guard_fires c a ef sf maxaddr Hcnt HM Hmax Ha).
Qed.

End Guard.

(** C3 (amended).  [NewCodec] returns an absent codec exactly when the
    width [M] is outside {3,4,5}; for [M] in {3,4,5} it returns the codec
    once the erasure coder is built and aborts when that fails.  The guard
    of the digit packer fires when it is reached with [2*M > 8]: for a
    codec of width 5 every call of [calculateMdBlocks] with an address up
    to [MaxAddr] aborts with the oversized-metadata fault, every call
    with a larger address returns the out-of-range error, every call of
    [encode] that gets as far as the packer with an address within range
    aborts with that fault, and no call of [encode] returns an oligo; for
    the widths 3 and 4 the guard never fires. *)
Theorem metadata_width_guard {Crit O : Type} `{!ReedSolomon, !Oligo O, !Level0 O Crit} :
  (∀ B M R (crit : Crit), NewCodec B M R crit = Done None ↔ M < 3 ∨ 5 < M) ∧
  (∀ B M R (crit : Crit), 3 ≤ M ≤ 5 →
     NewCodec B M R crit =
       match reedsolomon_New (B - R) R with
       | inl enc => Done (Some {| blknum := B; rsnum := R; mdsz := M; crit := crit;
                                  olen := B * 17 + M * (B - R) + 5 * R; ec := enc |})
       | inr _ => Panic Preedsolomon
       end) ∧
  (∀ (c : Codec Crit) a ef sf maxaddr,
     counts_ok c → mdsz c = 5 → MaxAddr c = Done maxaddr → 0 ≤ a →
     calculateMdBlocks c a ef sf =
       if a >? maxaddr then Done ([], Some Eaddress_too_big)
       else Panic Pmetadata_too_big) ∧
  (∀ (c : Codec Crit) (p5 p3 : O) a ef sf data s maxaddr,
     counts_ok c → mdsz c = 5 → MaxAddr c = Done maxaddr → 0 ≤ a ≤ maxaddr →
     vec_len data s = (s, Done (BlockNum c)) →
     forM_up (Z.to_nat (BlockNum c)) 0 (check_size (O := O) c data) () s
       = (s, Done (Next ())) →
     4 ≤ Len p5 →
     encode c p5 p3 a ef sf data s = (s, Panic Pmetadata_too_big)) ∧
  (∀ (c : Codec Crit) (p5 p3 : O) a ef sf data s s' o err,
     counts_ok c → mdsz c = 5 → 0 ≤ a →
     encode c p5 p3 a ef sf data s = (s', Done (o, err)) → o = None ∧ is_Some err) ∧
  (∀ (c : Codec Crit) a ef sf,
     mdsz c = 3 ∨ mdsz c = 4 → calculateMdBlocks c a ef sf ≠ Panic Pmetadata_too_big).
Proof.
  split_and!.
  - intros B M R k. unfold NewCodec.
    destruct (Z.ltb_spec M 3), (Z.gtb_spec M 5); cbn [orb];
      try (split; [intros _; lia | done]).
    destruct (reedsolomon_New _ _); split; (done || lia).
  - intros B M R k HM. unfold NewCodec.
    destruct (Z.ltb_spec M 3), (Z.gtb_spec M 5); try lia. done.
  - intros c a ef sf maxaddr Hcnt HM Hmax Ha.
    destruct (Z.gtb_spec a maxaddr).
    + by apply (address_too_big c a ef sf maxaddr).
    + apply (guard_fires c a ef sf maxaddr); (done || lia).
  - intros c p5 p3 a ef sf data s maxaddr. apply encode_width5_aborts.
  - intros c p5 p3 a ef sf data s s' o err. apply encode_width5.
  - intros c a ef sf HM. apply guard_silent. lia.
Qed.

(** An instance of [metadata_width_guard]: with B = 3, R = 1, M = 5 the
    packer aborts for address 0. *)
Lemma metadata_width_guard_witness :
  counts_ok codec315 ∧ mdsz codec315 = 5 ∧ MaxAddr codec315 = Done 134322 ∧
  calculateMdBlocks codec315 0 false false = Panic Pmetadata_too_big ∧
  encode codec315 primer5 primer3 0 false false (Some 0%nat) mem_gc
    = (mem_gc, Panic Pmetadata_too_big).
Proof.
  assert (Hcnt : counts_ok codec315) by (split; cbn; lia).
  split_and!; [done | done | done | |].
  - destruct (metadata_width_guard (Crit := unit) (O := list nt)) as (_ & _ & H & _).
    apply (H codec315 0 false false 134322); (done || lia).
  - destruct (metadata_width_guard (Crit := unit) (O := list nt)) as (_ & _ & _ & H & _).
    apply (H codec315 primer5 primer3 0 false false (Some 0%nat) mem_gc 134322);
      (done || lia || by vm_compute).
Defined.

(** C3 as stated fails on the code: with M = 5 a call of the packer
    with an address above [MaxAddr] does not abort, it returns the
    out-of-range error. *)
Lemma metadata_width_guard_counterexample :
  MaxAddr codec315 = Done 134322 ∧
  calculateMdBlocks codec315 134323 false false = Done ([], Some Eaddress_too_big).
Proof. split; by vm_compute. Qed.

(** ** The parity bit of a data block *)

Lemma popcount_0 n : popcount n 0 = 0.
Proof.
  induction n as [|n IH]; [done|].
  cbn [popcount]. change (0 / 2) with 0. by rewrite IH.
Qed.

Lemma popcount_double n v (b : bool) :
  popcount (S n) (2 * v + Z.b2z b) = Z.b2z b + popcount n v.
Proof.
  cbn [popcount]. f_equal.
  - rewrite Z.add_comm, Z.odd_add_mul_2. by destruct b.
  - f_equal. destruct b; cbn [Z.b2z]; Z.div_mod_to_equations; lia.
Qed.

Lemma popcount_small n k v :
  0 ≤ v < 2 ^ Z.of_nat n → popcount (n + k) v = popcount n v.
Proof.
  revert v. induction n as [|n IH]; intros v Hv.
  - assert (v = 0) as -> by (cbn in Hv; lia). apply popcount_0.
  - cbn [Nat.add popcount]. f_equal. apply IH.
    rewrite Nat2Z.inj_succ, Z.pow_succ_r in Hv by lia.
    Z.div_mod_to_equations. lia.
Qed.

Lemma lor_shift_add a b k :
  0 ≤ k → 0 ≤ a < 2 ^ k → Z.lor a (b * 2 ^ k) = a + b * 2 ^ k.
Proof.
  intros Hk Ha. rewrite <- Z.add_lor_land.
  enough (Z.land a (b * 2 ^ k) = 0) as -> by lia.
  apply Z.bits_inj'. intros n Hn. rewrite Z.land_spec, Z.bits_0.
  destruct (Z.lt_ge_cases n k).
  - by rewrite Z.mul_pow2_bits_low, andb_false_r.
  - destruct (decide (a = 0)) as [-> | Hne]; [by rewrite Z.bits_0|].
    rewrite (Z.bits_above_log2 a n); [done | lia |].
    apply Z.log2_lt_pow2; [lia|].
    apply Z.lt_le_trans with (2 ^ k); [lia|]. apply Z.pow_le_mono_r; lia.
Qed.

Lemma block_value_sum b0 b1 b2 b3 :
  is_byte b0 → is_byte b1 → is_byte b2 → is_byte b3 →
  block_value b0 b1 b2 b3 = b0 + 2 ^ 8 * b1 + 2 ^ 16 * b2 + 2 ^ 24 * b3.
Proof.
  unfold is_byte, block_value. intros H0 H1 H2 H3.
  rewrite !Z.shiftl_mul_pow2 by lia.
  rewrite !wrap64_small by lia.
  rewrite (lor_shift_add b0 b1 8) by lia.
  rewrite (lor_shift_add _ b2 16) by lia.
  rewrite (lor_shift_add _ b3 24) by lia. lia.
Qed.

Lemma le_bytes_sum b0 b1 b2 b3 h :
  is_byte b0 → is_byte b1 → is_byte b2 → is_byte b3 →
  le_bytes (b0 + 2 ^ 8 * b1 + 2 ^ 16 * b2 + 2 ^ 24 * b3 + 2 ^ 32 * h) = [b0; b1; b2; b3].
Proof.
  unfold is_byte, le_bytes, to_byte. intros H0 H1 H2 H3.
  rewrite !Z.shiftr_div_pow2 by lia.
  repeat f_equal; Z.div_mod_to_equations; lia.
Qed.

(** The encoder's word: the value shifted left with the parity bit
    that makes the number of one bits even. *)
Lemma with_parity_spec v :
  0 ≤ v < 2 ^ 32 →
  ∃ p : bool,
    with_parity v = 2 * v + Z.b2z p ∧
    (Z.b2z p + popcount 32 v) mod 2 = 0 ∧
    OnesCount64 (with_parity v) = Z.b2z p + popcount 32 v.
Proof.
  intros Hv.
  assert (Hpop : ∀ b : bool, OnesCount64 (2 * v + Z.b2z b) = Z.b2z b + popcount 32 v).
  { intros b. unfold OnesCount64. change 64%nat with (S 63).
    rewrite popcount_double. f_equal.
    change 63%nat with (32 + 31)%nat. apply popcount_small. lia. }
  unfold with_parity. rewrite Z.shiftl_mul_pow2 by lia.
  rewrite (wrap64_small (v * 2 ^ 1)) by lia.
  replace (v * 2 ^ 1) with (2 * v + Z.b2z false) by (cbn; lia).
  rewrite Hpop. cbn [Z.b2z]. rewrite Z.add_0_l, Z.add_0_r.
  destruct (Z.eqb_spec (popcount 32 v mod 2) 0) as [He | Hne]; cbn [negb].
  - exists false. cbn [Z.b2z]. rewrite Z.add_0_r, Z.add_0_l. split_and!; [done | done |].
    specialize (Hpop false). cbn [Z.b2z] in Hpop. by rewrite Z.add_0_r, Z.add_0_l in Hpop.
  - exists true. cbn [Z.b2z]. rewrite wrap64_small by lia. split_and!; [done | |].
    + Z.div_mod_to_equations. lia.
    + apply (Hpop true).
Qed.

(** The parser on a word [2*v + p]. *)
Lemma data_block_word flip v (p : bool) :
  0 ≤ v < 2 ^ 32 →
  data_block flip (2 * v + Z.b2z p) =
    if (Z.b2z p + popcount 32 v) mod 2 =? 0
    then Some (le_bytes (if flip then not64 v else v)) else None.
Proof.
  intros Hv. unfold data_block.
  assert (Hbit : Z.land (2 * v + Z.b2z p) 1 = Z.b2z p).
  { change 1 with (Z.ones 1). rewrite Z.land_ones by lia.
    destruct p; cbn [Z.b2z]; Z.div_mod_to_equations; lia. }
  assert (Hval : (2 * v + Z.b2z p) ≫ 1 = v).
  { rewrite Z.shiftr_div_pow2 by lia.
    destruct p; cbn [Z.b2z]; Z.div_mod_to_equations; lia. }
  rewrite Hbit, Hval. unfold OnesCount64. change 64%nat with (32 + 32)%nat.
  rewrite popcount_small by lia. rewrite (Z.add_comm (popcount 32 v)). done.
Qed.

(** C5.  For a block of four bytes the encoder combines them little
    endian into a 32-bit value [v], shifts it left and sets the low bit
    to the parity of [v], so that the 33-bit word has an even number of
    one bits.  The parser takes the low bit of a decoded word as the
    parity bit and the remaining bits as the value, and materializes a
    block, the little-endian bytes of the value (of its complement when
    the inverted polarity is decoded), exactly when the number of one
    bits of the value plus the parity bit is even.  So the parser
    returns the encoder's block, on both polarities. *)
Theorem block_parity b0 b1 b2 b3 :
  is_byte b0 → is_byte b1 → is_byte b2 → is_byte b3 →
  let v := block_value b0 b1 b2 b3 in
  let w := with_parity v in
  v = b0 + 2 ^ 8 * b1 + 2 ^ 16 * b2 + 2 ^ 24 * b3 ∧
  w = 2 * v + OnesCount64 v mod 2 ∧
  0 ≤ w < 2 ^ 33 ∧
  OnesCount64 w mod 2 = 0 ∧
  (∀ flip u,
     data_block flip u =
       if (OnesCount64 (u ≫ 1) + Z.land u 1) mod 2 =? 0
       then Some (le_bytes (if flip then not64 (u ≫ 1) else u ≫ 1))
       else None) ∧
  data_block false w = Some [b0; b1; b2; b3] ∧
  data_block true (with_parity (block_value (not8 b0) (not8 b1) (not8 b2) (not8 b3)))
    = Some [b0; b1; b2; b3].
Proof.
  intros H0 H1 H2 H3 v w.
  pose proof (block_value_sum b0 b1 b2 b3 H0 H1 H2 H3) as Hsum. fold v in Hsum.
  assert (Hv : 0 ≤ v < 2 ^ 32) by (unfold is_byte in *; lia).
  destruct (with_parity_spec v Hv) as (p & Hw & Heven & Hcount). fold w in Hw, Hcount.
  assert (H64 : OnesCount64 v = popcount 32 v).
  { unfold OnesCount64. change 64%nat with (32 + 32)%nat. by apply popcount_small. }
  refine (conj _ (conj _ (conj _ (conj _ (conj _ (conj _ _)))))).
  - done.
  - rewrite Hw, H64. f_equal. destruct p; cbn [Z.b2z] in *; Z.div_mod_to_equations; lia.
  - rewrite Hw. destruct p; cbn [Z.b2z]; lia.
  - by rewrite Hcount.
  - reflexivity.
  - rewrite Hw, data_block_word by done.
    rewrite Heven. cbn [Z.eqb]. f_equal. rewrite Hsum.
    rewrite <- (le_bytes_sum b0 b1 b2 b3 0) by done. f_equal. lia.
  - assert (N0 : is_byte (not8 b0)) by (unfold is_byte, not8 in *; lia).
    assert (N1 : is_byte (not8 b1)) by (unfold is_byte, not8 in *; lia).
    assert (N2 : is_byte (not8 b2)) by (unfold is_byte, not8 in *; lia).
    assert (N3 : is_byte (not8 b3)) by (unfold is_byte, not8 in *; lia).
    pose proof (block_value_sum _ _ _ _ N0 N1 N2 N3) as Hsum'.
    set (v' := block_value (not8 b0) (not8 b1) (not8 b2) (not8 b3)) in *.
    assert (Hv' : 0 ≤ v' < 2 ^ 32) by (unfold is_byte in *; lia).
    destruct (with_parity_spec v' Hv') as (p' & Hw' & Heven' & _).
    rewrite Hw', data_block_word by done.
    rewrite Heven'. cbn [Z.eqb]. f_equal.
    rewrite <- (le_bytes_sum b0 b1 b2 b3 (2 ^ 32 - 1)) by done. f_equal.
    unfold not64. rewrite Hsum'. unfold not8. lia.
Qed.

(** An instance of [block_parity]: the block [01 02 03 04]. *)
Lemma block_parity_witness :
  is_byte 1 ∧ is_byte 2 ∧ is_byte 3 ∧ is_byte 4 ∧
  with_parity (block_value 1 2 3 4) = 2 * block_value 1 2 3 4 + OnesCount64 (block_value 1 2 3 4) mod 2 ∧
  data_block false (with_parity (block_value 1 2 3 4)) = Some [1; 2; 3; 4].
Proof.
  assert (H1 : is_byte 1) by (unfold is_byte; lia).
  assert (H2 : is_byte 2) by (unfold is_byte; lia).
  assert (H3 : is_byte 3) by (unfold is_byte; lia).
  assert (H4 : is_byte 4) by (unfold is_byte; lia).
  destruct (block_parity 1 2 3 4 H1 H2 H3 H4) as (_ & Hw & _ & _ & _ & Hd & _).
  split_and!; done.
Defined.

(** ** Memory: what a computation leaves untouched *)

Lemma frame_refl s : frame s s.
Proof. by split_and!. Qed.

Lemma frame_trans s1 s2 s3 : frame s1 s2 → frame s2 s3 → frame s1 s3.
Proof.
  intros (Hc & Hb & Hv) (Hc' & Hb' & Hv'). split_and!.
  - congruence.
  - by etrans.
  - by etrans.
Qed.

Lemma prefix_insert_ge {A} (l0 l : list A) i x :
  l0 `prefix_of` l → (length l0 ≤ i)%nat → l0 `prefix_of` <[i := x]> l.
Proof.
  intros [k ->] Hi. rewrite insert_app_r_alt by done. by apply prefix_app_r.
Qed.

Lemma hoare_ret {A} P (a : A) (Q : A → state → Prop) E :
  (∀ s, P s → Q a s) → hoare P (mret a) Q E.
Proof. intros HQ s s' r HP [= <- <-]. by apply HQ. Qed.

Lemma hoare_bind {A B} P (m : M A) (f : A → M B) Q Q' E :
  hoare P m Q E → (∀ a, hoare (Q a) (f a) Q' E) → hoare P (m ≫= f) Q' E.
Proof.
  intros Hm Hf s s' r HP. unfold mbind, M_bind.
  destruct (m s) as [s1 [a|p]] eqn:Hms.
  - intros Hfa. apply (Hf a s1 s' r); [|done]. apply (Hm s s1 (Done a) HP Hms).
  - intros [= <- <-]. apply (Hm s s1 (Panic p) HP Hms).
Qed.


Lemma hoare_reads {A} P (m : M A) E :
  reads m → (∀ s, P s → E s) → hoare P m (λ _, P) E.
Proof.
  intros Hm HE s s' r HP Hrun. specialize (Hm s). rewrite Hrun in Hm. cbn in Hm.
  subst s'. destruct r; [done | by apply HE].
Qed.

Lemma reads_lift {A} (r : run A) : reads (lift r).
Proof. done. Qed.

Lemma reads_vec_len v : reads (vec_len v).
Proof. intros s. unfold vec_len. by repeat case_match. Qed.

Lemma reads_vec_get v i : reads (vec_get v i).
Proof. intros s. unfold vec_get. by repeat case_match. Qed.

Lemma reads_buf_len b : reads (buf_len b).
Proof. intros s. unfold buf_len. by repeat case_match. Qed.

Lemma reads_buf_get b j : reads (buf_get b j).
Proof. intros s. unfold buf_get. by repeat case_match. Qed.

Lemma reads_ret {A} (a : A) : reads (mret a).
Proof. done. Qed.

Lemma reads_bind {A B} (m : M A) (f : A → M B) :
  reads m → (∀ a, reads (f a)) → reads (m ≫= f).
Proof.
  intros Hm Hf s. unfold mbind, M_bind. specialize (Hm s).
  destruct (m s) as [s1 [a|p]]; cbn in Hm; subst s1; [apply Hf | done].
Qed.

Lemma reads_forM_up {S R} n i (body : Z → S → M (flow S R)) st :
  (∀ i st, reads (body i st)) → reads (forM_up n i body st).
Proof.
  intros Hb. revert i st. induction n as [|n IH]; intros i st; [done|].
  cbn [forM_up]. apply reads_bind; [apply Hb|]. intros [st'|r]; [apply IH | done].
Qed.

Lemma hoare_forM_up {S R} (I E : state → Prop) n i (body : Z → S → M (flow S R)) st :
  (∀ i st, hoare I (body i st) (λ _, I) E) → hoare I (forM_up n i body st) (λ _, I) E.
Proof.
  intros Hb. revert i st. induction n as [|n IH]; intros i st.
  - by apply hoare_ret.
  - cbn [forM_up]. eapply hoare_bind; [apply Hb|].
    intros [st'|r]; [apply IH | by apply hoare_ret].
Qed.

Lemma hoare_pure_pre {A} (P : state → Prop) (φ : Prop) (m : M A) Q E :
  (φ → hoare P m Q E) → hoare (λ s, P s ∧ φ) m Q E.
Proof. intros Hm s s' r [HP Hφ]. by apply Hm. Qed.

(** *** The complemented payload lives in new cells *)

Section Negate.
Variable s0 : state.
Variable d : option nat.

Lemma fresh_vec_frame s : fresh_vec s0 d s → frame s0 s.
Proof. by intros [? _]. Qed.

Lemma hoare_fresh_reads {A} (m : M A) :
  reads m → hoare (fresh_vec s0 d) m (λ _, fresh_vec s0 d) (frame s0).
Proof. intros Hm. apply hoare_reads; [done | apply fresh_vec_frame]. Qed.

Lemma hoare_new_buf m :
  hoare (fresh_vec s0 d) (new_buf m)
    (λ b s, fresh_vec s0 d s ∧ fresh_buf s0 b) (frame s0).
Proof.
  intros s s' r ((Hc & Hb & Hv) & Hd). unfold new_buf.
  destruct (make m 0) as [bs|p]; intros [= <- <-]; [|by split_and!].
  split; [split|].
  - split_and!; [done | by apply prefix_app_r | done].
  - done.
  - intros l [= <-]. by apply prefix_length.
Qed.

Lemma hoare_vec_set i b :
  fresh_buf s0 b →
  hoare (fresh_vec s0 d) (vec_set d i b) (λ _, fresh_vec s0 d) (frame s0).
Proof.
  intros Hfresh s s' r ((Hc & Hb & Hv) & ld & es & -> & Hld & Hes & Hall).
  unfold vec_set. rewrite Hes.
  destruct (store es i b) as [es'|p] eqn:Hst; intros [= <- <-]; [|by split_and!].
  assert (Hes' : es' = <[Z.to_nat i := b]> es).
  { revert Hst. unfold store. case_match; congruence. }
  split.
  - split_and!; [done | done | by apply prefix_insert_ge].
  - exists ld, es'. split_and!; [done | done | |].
    + cbn. apply list_lookup_insert_eq. by eapply lookup_lt_Some.
    + subst es'. by apply Forall_insert.
Qed.

Lemma hoare_vec_get_fresh i :
  hoare (fresh_vec s0 d) (vec_get d i)
    (λ b s, fresh_vec s0 d s ∧ fresh_buf s0 b) (frame s0).
Proof.
  intros s s' r Hinv. pose proof Hinv as (Hf & ld & es & -> & Hld & Hes & Hall).
  unfold vec_get. rewrite Hes. intros [= <- <-].
  unfold index. repeat case_match; simplify_eq; try done.
  split; [done|].
  match goal with H : es !! _ = Some _ |- _ => exact (Forall_lookup_1 _ _ _ _ Hall H) end.
Qed.

Lemma hoare_buf_set b j x :
  fresh_buf s0 b →
  hoare (fresh_vec s0 d) (buf_set b j x) (λ _, fresh_vec s0 d) (frame s0).
Proof.
  intros Hfresh s s' r Hinv. pose proof Hinv as ((Hc & Hb & Hv) & ld & es & Hd & Hld & Hes & Hall).
  unfold buf_set. destruct b as [l|]; [|by intros [= <- <-]; split_and!].
  destruct (bufs s !! l) as [bs|]; [|by intros [= <- <-]; split_and!].
  destruct (store bs j x) as [bs'|p]; intros [= <- <-]; [|by split_and!].
  split.
  - split_and!; [done | | done]. apply prefix_insert_ge; [done|]. by apply Hfresh.
  - by exists ld, es.
Qed.

Lemma hoare_negate_byte data i j u :
  hoare (fresh_vec s0 d) (negate_byte data d i j u) (λ _, fresh_vec s0 d) (frame s0).
Proof.
  unfold negate_byte.
  eapply hoare_bind; [apply hoare_vec_get_fresh|]. intros di.
  apply hoare_pure_pre. intros Hdi.
  eapply hoare_bind; [apply hoare_fresh_reads, reads_vec_get|]. intros blk.
  eapply hoare_bind; [apply hoare_fresh_reads, reads_buf_get|]. intros x.
  eapply hoare_bind; [by apply hoare_buf_set|]. intros ?. by apply hoare_ret.
Qed.

Lemma hoare_negate_block data i u :
  hoare (fresh_vec s0 d) (negate_block data d i u) (λ _, fresh_vec s0 d) (frame s0).
Proof.
  unfold negate_block.
  eapply hoare_bind; [apply hoare_fresh_reads, reads_vec_get|]. intros blk.
  eapply hoare_bind; [apply hoare_fresh_reads, reads_buf_len|]. intros m.
  eapply hoare_bind; [apply hoare_new_buf|]. intros b.
  apply hoare_pure_pre. intros Hb.
  eapply hoare_bind; [by apply hoare_vec_set|]. intros ?.
  eapply hoare_bind; [apply hoare_forM_up; intros; apply hoare_negate_byte|].
  intros ?. by apply hoare_ret.
Qed.

End Negate.

(** [negate] returns a new vector of new byte slices and leaves every
    cell of the state it started from as it was. *)
Lemma negate_fresh data s0 :
  hoare (eq s0) (negate data) (λ d, fresh_vec s0 d) (frame s0).
Proof.
  unfold negate.
  eapply hoare_bind.
  { apply hoare_reads; [apply reads_vec_len|]. intros s <-. apply frame_refl. }
  intros n. eapply (hoare_bind _ _ _ (λ d, fresh_vec s0 d)).
  { intros s s' r <-. unfold new_vec.
    destruct (make n None) as [es|p] eqn:Hmk; intros [= <- <-]; [|apply frame_refl].
    split.
    - split_and!; [done | done | by apply prefix_app_r].
    - exists (length (vecs s0)), es. split_and!; [done | done | |].
      + cbn. by rewrite lookup_app_r, Nat.sub_diag.
      + revert Hmk. unfold make. case_match; [done|]. intros [= <-].
        apply Forall_replicate. by intros l. }
  intros d.
  eapply hoare_bind; [apply hoare_forM_up; intros; apply hoare_negate_block|].
  intros ?. by apply hoare_ret.
Qed.

Lemma negate_frame data s0 :
  hoare (frame s0) (negate data) (λ _, frame s0) (frame s0).
Proof.
  intros s s' r Hs Hrun.
  pose proof (negate_fresh data s s s' r eq_refl Hrun) as Hpost.
  destruct r; [apply fresh_vec_frame in Hpost|]; by eapply frame_trans.
Qed.

Section Frame.
Context {Crit O : Type} `{!Oligo O, !Level0 O Crit}.
Implicit Types c : Codec Crit.

Lemma reads_check_size c data i u : reads (check_size (O := O) c data i u).
Proof.
  unfold check_size.
  apply reads_bind; [apply reads_vec_get|]. intros blk.
  apply reads_bind; [apply reads_buf_len|]. intros m.
  case_match; apply reads_ret.
Qed.

Lemma reads_encode_block c mdb data i (o : O) : reads (encode_block c mdb data i o).
Proof.
  unfold encode_block.
  apply reads_bind; [apply reads_vec_get|]. intros buf.
  do 4 (apply reads_bind; [apply reads_buf_get|]; intros ?).
  case_match; [|apply reads_ret].
  apply reads_bind; [apply reads_lift|]. intros m.
  case_match; apply reads_ret.
Qed.

(** [encode] keeps the trace and every cell of the memory it is
    called in, whether it returns or panics. *)
Lemma encode_frame c (p5 p3 : O) a ef sf data s0 :
  hoare (frame s0) (encode c p5 p3 a ef sf data) (λ _, frame s0) (frame s0).
Proof.
  unfold encode.
  eapply hoare_bind; [by apply hoare_reads; [apply reads_vec_len|]|]. intros n.
  case_match; [by apply hoare_ret|].
  eapply hoare_bind.
  { apply hoare_reads; [|done]. apply reads_forM_up. intros. apply reads_check_size. }
  intros [[]|r]; [|by apply hoare_ret].
  case_match; [by apply hoare_ret|].
  eapply hoare_bind; [by apply hoare_reads; [apply reads_lift|]|]. intros [mdb err].
  destruct err; [by apply hoare_ret|].
  eapply hoare_bind.
  { destruct sf; [apply negate_frame | by apply hoare_ret]. }
  intros data'.
  eapply hoare_bind.
  { apply hoare_reads; [|done]. apply reads_forM_up. intros. apply reads_encode_block. }
  intros [o|r]; by apply hoare_ret.
Qed.

Lemma encode_frame_run c (p5 p3 : O) a ef sf data s s' r :
  encode c p5 p3 a ef sf data s = (s', r) → frame s s'.
Proof.
  intros Hrun. pose proof (encode_frame c p5 p3 a ef sf data s s s' r (frame_refl s) Hrun).
  by destruct r.
Qed.

End Frame.

(** ** The GC balancer *)

Section Balancer.
Context {Crit O : Type} `{!Oligo O, !Level0 O Crit}.
Implicit Types c : Codec Crit.


(** [Encode] in terms of the two runs of [encode]. *)
Lemma Encode_run c (p5 p3 : O) a ef data s :
  let first := encode c p5 p3 a ef false data (logged (Call_encode false) s) in
  let second := encode c p5 p3 a ef true data (logged (Call_encode true) first.1) in
  Encode c p5 p3 a ef data s =
    match first.2 with
    | Panic p => (first.1, Panic p)
    | Done (o, Some e) => (first.1, Done (o, Some e))
    | Done (None, None) => (first.1, Panic (Pruntime Nil_dereference))
    | Done (Some o, None) =>
        if high_gc (GCcontent o) then
          match second.2 with
          | Panic p => (second.1, Panic p)
          | Done (_, Some e) => (second.1, Done (Some o, Some e))
          | Done (None, None) => (second.1, Panic (Pruntime Nil_dereference))
          | Done (Some o1, None) =>
              if high_gc (GCcontent o1) then (second.1, Panic Pboth_high_gc)
              else (second.1, Done (Some o1, None))
          end
        else (first.1, Done (Some o, None))
    end.
Proof.
  intros first second. subst second. unfold Encode.
  unfold mbind at 1, M_bind at 1, log at 1. unfold mbind at 1, M_bind at 1.
  fold first. destruct first as [s1 [[[o|] [e|]]|p]]; cbn [fst snd]; try done.
  unfold gc_exceeds. unfold mbind at 1, M_bind at 1, mret at 1, M_ret at 1.
  destruct (high_gc (GCcontent o)); [|done].
  unfold mbind at 1, M_bind at 1, log at 1. unfold mbind at 1, M_bind at 1.
  destruct (encode c p5 p3 a ef true data (logged (Call_encode true) s1))
    as [s2 [[[o1|] [e|]]|p]]; cbn [fst snd]; try done.
  unfold mbind, M_bind, mret, M_ret. by destruct (high_gc (GCcontent o1)).
Qed.

End Balancer.



Lemma frame_unchanged s s' :
  bufs s `prefix_of` bufs s' → vecs s `prefix_of` vecs s' → unchanged s s'.
Proof. intros Hb Hv. split; intros l x Hl; by eapply prefix_lookup_Some. Qed.

(** C9.  Neither [encode], on either polarity, nor [Encode] stores into
    the memory it is called in: every byte slice and every vector that
    exists before the call has the same content after it, whether the
    call returns or panics.  The complemented payload of the [sf = true]
    path is a vector allocated by [negate], holding byte slices allocated
    by [negate]. *)
Theorem Encode_keeps_payload {Crit O : Type} `{!Oligo O, !Level0 O Crit}
    (c : Codec Crit) (p5 p3 : O) a ef data s :
  (∀ s' r, Encode c p5 p3 a ef data s = (s', r) → unchanged s s') ∧
  (∀ sf s' r, encode c p5 p3 a ef sf data s = (s', r) → unchanged s s') ∧
  (∀ s' d, negate data s = (s', Done d) → unchanged s s' ∧ fresh_vec s d s').
Proof.
  split_and!.
  - intros s' r. rewrite Encode_run. cbv zeta.
    pose proof (encode_frame_run c p5 p3 a ef false data
                  (logged (Call_encode false) s)) as Hf.
    destruct (encode c p5 p3 a ef false data _) as [s1 r1].
    specialize (Hf s1 r1 eq_refl) as (_ & Hb1 & Hv1). cbn [fst snd logged bufs vecs] in *.
    pose proof (encode_frame_run c p5 p3 a ef true data
                  (logged (Call_encode true) s1)) as Hs.
    destruct (encode c p5 p3 a ef true data _) as [s2 r2].
    specialize (Hs s2 r2 eq_refl) as (_ & Hb2 & Hv2). cbn [fst snd logged bufs vecs] in *.
    assert (unchanged s s1) by by apply frame_unchanged.
    assert (unchanged s s2) by (apply frame_unchanged; by etrans).
    intros Hrun. repeat case_match; by simplify_eq.
  - intros sf s' r Hrun. apply encode_frame_run in Hrun as (_ & Hb & Hv).
    by apply frame_unchanged.
  - intros s' d Hrun. pose proof (negate_fresh data s s s' (Done d) eq_refl Hrun) as Hd.
    split; [|done]. destruct Hd as [(_ & Hb & Hv) _]. by apply frame_unchanged.
Qed.

(** An instance of [Encode_keeps_payload]: the inverted-polarity run of
    the concrete scenario leaves the eight blocks as they were. *)
Lemma Encode_keeps_payload_witness :
  unchanged mem8 (encode codec823 primer5 primer3 12345 false true (Some 0%nat) mem8).1 ∧
  bufs (encode codec823 primer5 primer3 12345 false true (Some 0%nat) mem8).1
    = replicate 8 [1; 2; 3; 4] ++ replicate 8 [254; 253; 252; 251].
Proof.
  split; [|by vm_compute].
  destruct (Encode_keeps_payload codec823 primer5 primer3 12345 false (Some 0%nat) mem8)
    as (_ & H & _).
  apply (H true _ (encode codec823 primer5 primer3 12345 false true (Some 0%nat) mem8).2).
  apply surjective_pairing.
Defined.

(** ** The block parser *)

Section Parser.
Context {Crit O : Type} `{!Oligo O, !Level0 O Crit, !Recovery O Crit}.
Implicit Types c : Codec Crit.

Lemma parse_data_fst c flip (prefix ol : O) err err' :
  (parse_data c flip prefix ol err).1 = (parse_data c flip prefix ol err').1.
Proof.
  unfold parse_data. case_match; [done|].
  destruct (l0_Decode _ _ _) as [v [e|]]; done.
Qed.

(** A data segment that is short, does not decode or fails the parity
    check gives an absent block. *)
Lemma parse_data_absent c flip (prefix ol : O) err :
  Len ol < 17 ∨
  is_Some (l0_Decode prefix (Slice ol 0 17) (crit c)).2 ∨
  data_block flip (l0_Decode prefix (Slice ol 0 17) (crit c)).1 = None →
  (parse_data c flip prefix ol err).1 = None.
Proof.
  unfold parse_data. intros Hcase.
  destruct (Z.ltb_spec (Len ol) 17); [done|].
  destruct (l0_Decode _ _ _) as [v [e|]]; [done|]. cbn in *.
  destruct Hcase as [? | [[? [=]] | ?]]; [lia | done].
Qed.

(** One iteration of the parsing loop takes the state in front of block
    [j] to the state in front of block [j + 1]. *)
Lemma parsed_step c flip (prefix sol : O) (j : nat) p :
  parsed c flip prefix sol j p → (j < length (p_mdblk p))%nat →
  ∃ p', parse_block c flip (Z.of_nat j) p = Done p' ∧
        parsed c flip prefix sol (S j) p' ∧
        length (p_mdblk p') = length (p_mdblk p).
Proof.
  intros (Hst & Hlen & Hdata & Hok & Hmd) Hj.
  assert (Hpre : p_prefix p = (stream c j prefix sol).1) by by rewrite <- Hst.
  assert (Hol : p_ol p = (stream c j prefix sol).2) by by rewrite <- Hst.
  unfold parse_block.
  destruct (parse_data c flip (p_prefix p) (p_ol p) (p_err p)) as [d err] eqn:Hd.
  assert (Hd' : d = data_at c flip prefix sol j).
  { unfold data_at. rewrite <- Hpre, <- Hol.
    rewrite (parse_data_fst _ _ _ _ None (p_err p)), Hd. done. }
  fold (md_width c (Z.of_nat j)).
  pose proof (eq_refl (md_at c prefix sol j)) as Hat. unfold md_at at 2 in Hat.
  unfold md_segment in Hat. rewrite <- Hol in Hat.
  set (w := md_width c (Z.of_nat j)) in *.
  set (mdol := Slice (p_ol p) 17 (17 + w)) in *.
  assert (Hnext : ∀ mdblk mdok err',
    length mdblk = length (p_mdblk p) →
    (mdok = true ↔ p_mdok p = true ∧ is_Some (md_at c prefix sol j)) →
    (∀ i, (i < j)%nat → mdblk !! i = p_mdblk p !! i) →
    (∀ m, md_at c prefix sol j = Some m → mdblk !! j = Some m) →
    parsed c flip prefix sol (S j)
      {| p_prefix := Slice (p_ol p) (13 + w) (17 + w);
         p_ol := Slice (p_ol p) (17 + w) 0;
         p_data := p_data p ++ [d]; p_mdblk := mdblk; p_mdok := mdok; p_err := err' |}).
  { intros mdblk mdok err' Hl Hmdok Hold Hnew.
    split_and!; cbn [p_prefix p_ol p_data p_mdblk p_mdok p_err].
    - by rewrite Hol.
    - rewrite length_app. cbn. lia.
    - intros i Hi. destruct (decide (i = j)) as [-> | Hne].
      + rewrite lookup_app_r by lia. rewrite Hlen, Nat.sub_diag. cbn. by rewrite Hd'.
      + rewrite lookup_app_l by lia. apply Hdata. lia.
    - rewrite Hmdok, Hok. split.
      + intros [Hall Hj'] i Hi. destruct (decide (i = j)) as [-> | Hne]; [done|].
        apply Hall. lia.
      + intros Hall. split; [intros i Hi|]; apply Hall; lia.
    - intros i m Hi Hm. destruct (decide (i = j)) as [-> | Hne]; [by apply Hnew|].
      rewrite Hold by lia. apply Hmd; [lia | done]. }
  destruct (Z.eqb_spec (Len mdol) w) as [Hw | Hw]; cbn [negb].
  - destruct (l0_Decode (Slice (p_ol p) 13 17) mdol (crit c)) as [m err'] eqn:Hdec.
    rewrite store_ok by done. cbn [mbind run_bind].
    eexists. split; [reflexivity|]. split; [|by cbn; rewrite length_insert].
    apply Hnext.
    + by rewrite length_insert.
    + rewrite Hat. destruct err'; split.
      * done.
      * by intros [_ [? [=]]].
      * intros Hp. split; [done | by eexists].
      * by intros [Hp _].
    + intros i Hi. apply list_lookup_insert_ne. lia.
    + intros m'. rewrite Hat. destruct err'; [done|]. intros [= <-].
      by apply list_lookup_insert_eq.
  - cbn [mbind run_bind]. eexists. split; [reflexivity|]. split; [|done].
    apply Hnext; [done | | done |].
    + rewrite Hat. split; [done|]. by intros [_ [? [=]]].
    + by rewrite Hat.
Qed.

Lemma parsed_loop c flip (prefix sol : O) (k j : nat) p :
  parsed c flip prefix sol j p → (j + k ≤ length (p_mdblk p))%nat →
  ∃ p', for_up k (Z.of_nat j) (parse_block c flip) p = Done p' ∧
        parsed c flip prefix sol (j + k) p' ∧
        length (p_mdblk p') = length (p_mdblk p).
Proof.
  revert j p. induction k as [|k IH]; intros j p Hp Hjk.
  - exists p. by rewrite Nat.add_0_r.
  - destruct (parsed_step c flip prefix sol j p Hp) as (p1 & Hrun & Hp1 & Hl1); [lia|].
    cbn [for_up]. rewrite Hrun. cbn [mbind run_bind].
    replace (Z.of_nat j + 1) with (Z.of_nat (S j)) by lia.
    destruct (IH (S j) p1 Hp1) as (p' & Hrun' & Hp' & Hl'); [lia|].
    exists p'. rewrite Hrun', Hl', Hl1. split_and!; [done | | done].
    by replace (j + S k)%nat with (S j + k)%nat by lia.
Qed.

(** The parsing loop runs over all [B] blocks and never aborts. *)
Lemma parse_blocks_spec c flip (prefix sol : O) :
  0 ≤ blknum c →
  ∃ p, parse_blocks c flip prefix sol = Done p ∧
       parsed c flip prefix sol (Z.to_nat (blknum c)) p ∧
       length (p_mdblk p) = Z.to_nat (blknum c).
Proof.
  intros HB. unfold parse_blocks, make.
  destruct (Z.ltb_spec (blknum c) 0); [lia|]. cbn [mbind run_bind].
  set (p0 := {| p_prefix := prefix; p_ol := sol; p_data := [];
                p_mdblk := replicate (Z.to_nat (blknum c)) 0;
                p_mdok := true; p_err := None |}).
  destruct (parsed_loop c flip prefix sol (Z.to_nat (blknum c)) 0 p0) as (p & Hrun & Hp & Hl).
  { split_and!; cbn; try done; try (intros; lia). split; [intros _ i Hi; lia | done]. }
  { cbn. rewrite length_replicate. lia. }
  exists p. split_and!; [done | done |].
  rewrite Hl. cbn. by rewrite length_replicate.
Qed.

End Parser.

(** ** Primers, validation and the top-level decode *)

Section Decode.
Context {Crit O : Type} `{!Oligo O, !Level0 O Crit, !Recovery O Crit}.
Implicit Types c : Codec Crit.

Lemma primers_match_dec (p5 p3 ol : O) :
  {primers_match p5 p3 ol} + {¬ primers_match p5 p3 ol}.
Proof.
  unfold primers_match.
  destruct (decide ((Find ol p5 PrimerErrors).1 = 0)); [|right; tauto].
  destruct (decide (0 ≤ (Find ol p3 PrimerErrors).1)); [|right; tauto].
  destruct (decide ((Find ol p3 PrimerErrors).1 + (Find ol p3 PrimerErrors).2 = Len ol));
    [left | right]; tauto.
Qed.

(** [decode] behind the primer checks. *)
Lemma decode_matched c (p5 p3 ol : O) flip recover :
  primers_match p5 p3 ol →
  decode c p5 p3 ol flip recover =
    p ← parse_blocks c flip (primer_prefix p5) (body p5 p3 ol);
    validate c p5 p3 (body p5 p3 ol) flip recover p.
Proof.
  unfold primers_match, body, primer_prefix, decode.
  destruct (Find ol p5 PrimerErrors) as [pos5 len5].
  destruct (Find ol p3 PrimerErrors) as [pos3 len3]. cbn [fst snd].
  intros (-> & H3 & Hend). change (0 =? 0) with true. cbn [negb].
  destruct (Z.ltb_spec pos3 0); [lia|].
  destruct (Z.eqb_spec (pos3 + len3) (Len ol)); [done | lia].
Qed.

Lemma decode_mismatched c (p5 p3 ol : O) flip recover :
  ¬ primers_match p5 p3 ol →
  decode c p5 p3 ol flip recover = Done (0, false, false, [], Some Eprimer).
Proof.
  unfold primers_match, decode.
  destruct (Find ol p5 PrimerErrors) as [pos5 len5].
  destruct (Find ol p3 PrimerErrors) as [pos3 len3]. cbn [fst snd].
  intros Hno. destruct (Z.eqb_spec pos5 0); [|done]. cbn [negb].
  destruct (Z.ltb_spec pos3 0); [done|].
  destruct (Z.eqb_spec (pos3 + len3) (Len ol)); [|done].
  exfalso. apply Hno. lia.
Qed.

(** The ways [validate] returns. *)
Lemma validate_spec c (p5 p3 sol : O) flip recover p a ef sf data err :
  validate c p5 p3 sol flip recover p = Done (a, ef, sf, data, err) →
  (verified c p = false ∧ recover = false ∧
   err = Some Emetadata ∧ a = 0 ∧ ef = false ∧ sf = false ∧ data = p_data p) ∨
  (verified c p = true ∧
   err = None ∧ data = p_data p ∧ unpack c (p_mdblk p) = Done (a, ef, sf)) ∨
  (verified c p = false ∧ recover = true ∧
   data = (tryRecover c p5 p3 sol flip).1.1 ∧ err = (tryRecover c p5 p3 sol flip).2 ∧
   (is_Some err → a = 0 ∧ ef = false ∧ sf = false)).
Proof.
  unfold validate, verified, resolve.
  destruct (p_mdok p); cbn [andb];
    [destruct (ec_Verify _ _) as [ok [e|]]; [|destruct ok]|];
    cbn [negb];
    try (destruct (unpack c (p_mdblk p)) as [[[a' ef'] sf']|] eqn:Hun;
         cbn [mbind run_bind]; [|done]; intros [= <- <- <- <- <-]; right; left; done).
  all: destruct recover; cbn [negb];
    [|intros [= <- <- <- <- <-]; left; done].
  all: destruct (tryRecover c p5 p3 sol flip) as [[data' mdblk'] [e'|]]; cbn [fst snd].
  all: try (intros [= <- <- <- <- <-]; right; right; split_and!; done).
  all: destruct (unpack c mdblk') as [[[a' ef'] sf']|]; cbn [mbind run_bind]; [|done].
  all: intros [= <- <- <- <- <-]; right; right; split_and!; try done; by intros [? [=]].
Qed.

(** When the metadata does not verify and no recovery is requested,
    [validate] returns the parsed blocks with the metadata error. *)
Lemma validate_unverified c (p5 p3 sol : O) flip p :
  verified c p = false →
  validate c p5 p3 sol flip false p = Done (0, false, false, p_data p, Some Emetadata).
Proof.
  unfold validate, verified.
  destruct (p_mdok p); cbn [andb]; [|done].
  destruct (ec_Verify _ _) as [ok [e|]]; [done|]. by intros ->.
Qed.

(** [Decode] in terms of the two runs of [decode]. *)
Lemma Decode_run c (p5 p3 ol : O) recover s :
  let first := decode c p5 p3 ol false recover in
  let second := decode c p5 p3 ol true recover in
  let retry :=
    match first with
    | Done (_, _, sf, _, None) => sf
    | _ => false
    end in
  Decode c p5 p3 ol recover s =
    (if retry then logged (Call_decode true) (logged (Call_decode false) s)
     else logged (Call_decode false) s,
     if retry then result second else result first).
Proof.
  intros first second retry.
  unfold Decode, mbind at 1, M_bind at 1, log at 1.
  unfold mbind at 1, M_bind at 1, lift at 1. fold first. subst retry.
  destruct first as [[[[[address ef] sf] data] [e|]]|p]; [done| |done].
  destruct sf; [|done]. cbn [orb negb].
  unfold mbind at 1, M_bind at 1, log at 1. unfold mbind, M_bind, lift. fold second.
  unfold result. by destruct second as [[[[[? ?] ?] ?] ?]|?].
Qed.

End Decode.

(** ** Top-level decode *)

(** C8.  [Decode] first runs [decode] with the polarity hypothesis
    false.  Exactly when that run returns no error and its [sf] flag is
    set, [decode] is run once more, with the hypothesis inverted, and the
    results of [Decode] are those of the second run, whatever they are.
    In every other case the results of the first run are returned as they
    are.  So [decode] runs once or twice. *)
Theorem Decode_retry {Crit O : Type} `{!Oligo O, !Level0 O Crit, !Recovery O Crit}
    (c : Codec Crit) (p5 p3 ol : O) recover s :
  let first := decode c p5 p3 ol false recover in
  let second := decode c p5 p3 ol true recover in
  let retry :=
    match first with
    | Done (_, _, sf, _, None) => sf
    | _ => false
    end in
  (retry = true ↔ ∃ address ef data, first = Done (address, ef, true, data, None)) ∧
  Decode c p5 p3 ol recover s =
    (if retry then logged (Call_decode true) (logged (Call_decode false) s)
     else logged (Call_decode false) s,
     if retry then result second else result first) ∧
  calls (Decode c p5 p3 ol recover s).1 =
    calls s ++ [Call_decode false] ++ (if retry then [Call_decode true] else []).
Proof.
  intros first second retry.
  pose proof (Decode_run c p5 p3 ol recover s) as Hrun. cbv zeta in Hrun.
  fold first second in Hrun. fold retry in Hrun.
  split_and!.
  - subst retry. destruct first as [[[[[address ef] sf] data] [e|]]|p];
      try destruct sf;
      (split; [intros Hr; first [discriminate Hr | eauto]
              | intros (a' & e' & d' & Heq); by simplify_eq]).
  - exact Hrun.
  - rewrite Hrun. destruct retry; cbn; by rewrite <- ?app_assoc.
Qed.

(** An instance of [Decode_retry]: decoding the oligo of the concrete
    scenario runs [decode] once and returns the address and the blocks. *)
Lemma Decode_retry_witness :
  Decode codec823 primer5 primer3 oligo823 false mem8 =
    (logged (Call_decode false) mem8,
     Done (12345, false, replicate 8 (Some [1; 2; 3; 4]), None)).
Proof.
  destruct (Decode_retry codec823 primer5 primer3 oligo823 false mem8) as (_ & Hrun & _).
  rewrite Hrun. by vm_compute.
Defined.

(** ** The primer locator *)

(** What [find_from] returns is the best match so far or the position of
    a match in the part it has searched, and it is such a position when
    that part holds a match. *)
Lemma find_from_spec (p : list nt) maxerr suf pos best :
  (find_from suf p maxerr pos best = best ∨
   ∃ k : nat, (k < length suf)%nat ∧
     (find_from suf p maxerr pos best).1 = pos + Z.of_nat k ∧
     (length p ≤ length (drop k suf))%nat ∧ mismatches p (drop k suf) ≤ maxerr) ∧
  (0 ≤ pos → 0 ≤ best.1 → 0 ≤ (find_from suf p maxerr pos best).1) ∧
  (0 ≤ pos → ∀ k : nat, (k < length suf)%nat →
     (length p ≤ length (drop k suf))%nat → mismatches p (drop k suf) ≤ maxerr →
     0 ≤ (find_from suf p maxerr pos best).1).
Proof.
  revert pos best. induction suf as [|x suf IH]; intros pos best.
  { cbn. split_and!; [by left | done | intros _ k Hk; lia]. }
  cbn [find_from]. cbv zeta.
  set (e := mismatches p (x :: suf)).
  set (hit := (length p <=? length (x :: suf))%nat && (e <=? maxerr)).
  set (better := (best.1 <? 0) || (e <? best.2)).
  set (best' := if hit && better then (pos, e) else best).
  destruct (IH (pos + 1) best') as (IH1 & IH2 & IH3).
  assert (Hhit : hit = true → (length p ≤ length (x :: suf))%nat ∧ e ≤ maxerr).
  { unfold hit. intros [H1 H2]%andb_true_iff.
    apply Nat.leb_le in H1. apply Z.leb_le in H2. done. }
  split_and!.
  - destruct IH1 as [Heq | (k & Hk & Hpos & Hlen & He)].
    + rewrite Heq. unfold best'. destruct (hit && better) eqn:Hb; [|by left].
      apply andb_true_iff in Hb as [Hh _]. destruct (Hhit Hh) as [Hl He].
      right. exists 0%nat. cbn [drop fst length]. split_and!; [lia | lia | done | done].
    + right. exists (S k). cbn [drop length]. split_and!; [lia | lia | done | done].
  - intros Hpos Hbest. apply IH2; [lia|].
    unfold best'. destruct (hit && better); [cbn; lia | done].
  - intros Hpos [|k] Hk Hlen He.
    + cbn [drop] in Hlen, He. fold e in He.
      assert (Hh : hit = true).
      { unfold hit. apply andb_true_iff. split; [by apply Nat.leb_le | by apply Z.leb_le]. }
      apply IH2; [lia|]. unfold best'. rewrite Hh. cbn [andb].
      destruct better eqn:Hb; [cbn; lia|].
      unfold better in Hb. apply orb_false_iff in Hb as [Hb _].
      apply Z.ltb_ge in Hb. done.
    + cbn [drop length] in Hk, Hlen, He. apply (IH3 ltac:(lia) k); [lia | done | done].
Qed.

(** The reference search reports only matches within the tolerance, and
    reports one when there is one. *)
Lemma list_Find_sound : find_sound list_matches.
Proof.
  intros ol p. cbn [Find list_oligo]. unfold list_Find. cbv zeta.
  destruct (find_from_spec p PrimerErrors ol 0 (-1, 0)) as ([Heq | (k & Hk & Hpos & Hlen & He)] & _).
  { rewrite Heq. cbn. lia. }
  destruct (Z.ltb_spec (find_from ol p PrimerErrors 0 (-1, 0)).1 0) as [Hneg | _];
    [cbn; lia|]. cbn [fst snd]. intros _.
  rewrite Hpos, Z.add_0_l. rewrite length_drop in Hlen.
  unfold list_matches. rewrite Nat2Z.id. split_and!; [lia | lia | done | lia | done].
Qed.

Lemma list_Find_complete : find_complete list_matches.
Proof.
  intros ol p pos len (Hpos & -> & Hlen & He). cbn [Find list_oligo]. unfold list_Find. cbv zeta.
  destruct (find_from_spec p PrimerErrors ol 0 (-1, 0)) as (_ & _ & H3).
  specialize (H3 ltac:(lia) (Z.to_nat pos) ltac:(lia)).
  rewrite length_drop in H3. specialize (H3 ltac:(lia) He).
  destruct (Z.ltb_spec (find_from ol p PrimerErrors 0 (-1, 0)).1 0); [lia | done].
Qed.

(** C7.  [decode], and with it [Decode], compares the one match that the
    primer search reports for each primer with the place where the primer
    belongs.  For a search that reports only matches within the tolerance:
    when the 5' primer does not match at position 0 within the tolerance,
    or the 3' primer does not match ending at the end of the oligo, the
    primer-mismatch error is returned, with no address, flags or blocks;
    so it is whenever the reported 5' match is not at position 0 or the
    reported 3' match does not end at the end.  The primer-mismatch error
    is returned only then, or when recovery is requested and the recovery
    itself returns it.  A primer that matches in its place is reported
    there when the search finds a match whenever there is one and the
    primer matches nowhere else; then, with no recovery, the error is not
    returned.  When both reported matches are in place, the parser runs
    on the body between them with the last four symbols of the 5' primer
    as its first prefix. *)
Theorem decode_primer_mismatch {Crit O : Type} `{!Oligo O, !Level0 O Crit, !Recovery O Crit}
    (matches : O → O → Z → Z → Prop) (c : Codec Crit) (p5 p3 ol : O) recover :
  find_sound matches →
  (¬ matches_at_start matches p5 ol ∨ ¬ matches_at_end matches p3 ol →
   (∀ flip, decode c p5 p3 ol flip recover = Done (0, false, false, [], Some Eprimer)) ∧
   (∀ s, (Decode c p5 p3 ol recover s).2 = Done (0, false, [], Some Eprimer))) ∧
  (¬ primers_match p5 p3 ol →
   (∀ flip, decode c p5 p3 ol flip recover = Done (0, false, false, [], Some Eprimer)) ∧
   (∀ s, (Decode c p5 p3 ol recover s).2 = Done (0, false, [], Some Eprimer))) ∧
  (∀ flip address ef sf data,
     decode c p5 p3 ol flip recover = Done (address, ef, sf, data, Some Eprimer) →
     ¬ primers_match p5 p3 ol ∨
     recover = true ∧ (tryRecover c p5 p3 (body p5 p3 ol) flip).2 = Some Eprimer) ∧
  (∀ s address ef data,
     (Decode c p5 p3 ol recover s).2 = Done (address, ef, data, Some Eprimer) →
     ¬ primers_match p5 p3 ol ∨
     recover = true ∧ ∃ flip, (tryRecover c p5 p3 (body p5 p3 ol) flip).2 = Some Eprimer) ∧
  (find_complete matches →
   matches_at_start matches p5 ol → (∀ pos len, matches ol p5 pos len → pos = 0) →
   matches_at_end matches p3 ol → (∀ pos len, matches ol p3 pos len → pos + len = Len ol) →
   primers_match p5 p3 ol ∧
   (recover = false →
    (∀ flip address ef sf data,
       decode c p5 p3 ol flip recover ≠ Done (address, ef, sf, data, Some Eprimer)) ∧
    (∀ s address ef data,
       (Decode c p5 p3 ol recover s).2 ≠ Done (address, ef, data, Some Eprimer)))) ∧
  (primers_match p5 p3 ol →
   matches_at_start matches p5 ol ∧ matches_at_end matches p3 ol ∧
   ∀ flip, decode c p5 p3 ol flip recover =
     p ← parse_blocks c flip (primer_prefix p5) (body p5 p3 ol);
     validate c p5 p3 (body p5 p3 ol) flip recover p).
Proof.
  intros Hsound.
  assert (Hplace : primers_match p5 p3 ol →
    matches_at_start matches p5 ol ∧ matches_at_end matches p3 ol).
  { intros (H5 & H3 & Hend). split.
    - exists (Find ol p5 PrimerErrors).2.
      pose proof (Hsound ol p5) as Hs. rewrite H5 in Hs. by apply Hs.
    - exists (Find ol p3 PrimerErrors).1, (Find ol p3 PrimerErrors).2.
      split; [by apply Hsound | done]. }
  assert (Hno : ¬ primers_match p5 p3 ol →
    (∀ flip, decode c p5 p3 ol flip recover = Done (0, false, false, [], Some Eprimer)) ∧
    (∀ s, (Decode c p5 p3 ol recover s).2 = Done (0, false, [], Some Eprimer))).
  { intros Hno. split; [intros flip; by apply decode_mismatched|].
    intros s. rewrite Decode_run. cbv zeta.
    rewrite (decode_mismatched c p5 p3 ol false recover Hno). done. }
  assert (Hdec : ∀ flip address ef sf data,
    decode c p5 p3 ol flip recover = Done (address, ef, sf, data, Some Eprimer) →
    ¬ primers_match p5 p3 ol ∨
    recover = true ∧ (tryRecover c p5 p3 (body p5 p3 ol) flip).2 = Some Eprimer).
  { intros flip address ef sf data.
    destruct (primers_match_dec p5 p3 ol) as [Hm | Hm]; [|by left].
    rewrite decode_matched by done.
    destruct (parse_blocks _ _ _ _) as [p|]; [|done]. cbn [mbind run_bind].
    intros Hv. apply validate_spec in Hv as
      [(_ & _ & [=] & _) | [(_ & [=] & _) | (_ & Hr & _ & He & _)]].
    right. done. }
  assert (HDec : ∀ s address ef data,
    (Decode c p5 p3 ol recover s).2 = Done (address, ef, data, Some Eprimer) →
    ¬ primers_match p5 p3 ol ∨
    recover = true ∧ ∃ flip, (tryRecover c p5 p3 (body p5 p3 ol) flip).2 = Some Eprimer).
  { intros s address ef data. rewrite Decode_run. cbv zeta. cbn [snd].
    pose proof (Hdec false) as H1. pose proof (Hdec true) as H2.
    destruct (decode c p5 p3 ol false recover) as [[[[[a1 e1] s1] d1] [err1|]]|];
      [| |done].
    - cbn. intros [= <- <- <- ->].
      destruct (H1 _ _ _ _ eq_refl) as [? | [? ?]]; [by left | right; eauto].
    - destruct s1; [|done].
      destruct (decode c p5 p3 ol true recover) as [[[[[a2 e2] s2] d2] err2]|]; [|done].
      cbn. intros [= <- <- <- ->].
      destruct (H2 _ _ _ _ eq_refl) as [? | [? ?]]; [by left | right; eauto]. }
  split_and!.
  - intros Hout. apply Hno. intros Hm. destruct (Hplace Hm). tauto.
  - exact Hno.
  - exact Hdec.
  - exact HDec.
  - intros Hcomplete (len5 & H5) Hu5 (pos3 & len3 & H3 & Hend) Hu3.
    assert (Hm : primers_match p5 p3 ol).
    { pose proof (Hcomplete _ _ _ _ H5) as Hf5. pose proof (Hcomplete _ _ _ _ H3) as Hf3.
      split_and!.
      - by eapply Hu5, Hsound.
      - done.
      - by eapply Hu3, Hsound. }
    split; [done|]. intros ->. split.
    + intros flip address ef sf data Hd.
      destruct (Hdec _ _ _ _ _ Hd) as [? | [? _]]; done.
    + intros s address ef data Hd.
      destruct (HDec _ _ _ _ Hd) as [? | [? _]]; done.
  - intros Hm. destruct (Hplace Hm). split_and!; [done | done |].
    intros flip. by apply decode_matched.
Qed.

(** An instance of [decode_primer_mismatch], with the reference search:
    the oligo of the concrete scenario with two symbols of its 5' primer
    and one of its 3' primer changed is accepted and decodes to the
    address and the blocks, and with four symbols of its 5' primer
    changed it is refused. *)
Lemma decode_primer_mismatch_witness :
  find_sound list_matches ∧
  mismatches primer5 (take 6 oligo823_noisy) = 2 ∧
  mismatches primer3 (drop 170 oligo823_noisy) = 1 ∧
  matches_at_start list_matches primer5 oligo823_noisy ∧
  matches_at_end list_matches primer3 oligo823_noisy ∧
  decode codec823 primer5 primer3 oligo823_noisy false false =
    Done (12345, false, false, replicate 8 (Some [1; 2; 3; 4]), None) ∧
  mismatches primer5 (take 6 oligo823_broken) = 4 ∧
  ¬ matches_at_start list_matches primer5 oligo823_broken ∧
  decode codec823 primer5 primer3 oligo823_broken false false =
    Done (0, false, false, [], Some Eprimer).
Proof.
  assert (Hm : primers_match primer5 primer3 oligo823_noisy).
  { unfold primers_match. vm_compute. split_and!; [done | by intros [=] | done]. }
  assert (Hno : ¬ matches_at_start list_matches primer5 oligo823_broken).
  { intros (len & _ & _ & _ & He). vm_compute in He. done. }
  destruct (decode_primer_mismatch list_matches codec823 primer5 primer3
              oligo823_noisy false list_Find_sound) as (_ & _ & _ & _ & _ & Hacc).
  destruct (decode_primer_mismatch list_matches codec823 primer5 primer3
              oligo823_broken false list_Find_sound) as (Hrej & _).
  destruct (Hacc Hm) as (H5 & H3 & Hrun).
  split_and!; [exact list_Find_sound | done | done | done | done | | done | done |].
  - rewrite Hrun. by vm_compute.
  - apply Hrej. by left.
Defined.

(** Against C7 as it is worded.  An oligo whose 3' primer matches at the
    end within the tolerance (one symbol differs) and whose 5' primer
    matches at position 0 is refused with the primer-mismatch error when
    the search reports another match of the 3' primer, here an exact
    copy further in; so is one whose 5' primer matches at position 0
    with one symbol changed and exactly six symbols on.  And when
    recovery is requested, an oligo with both primers in place gets the
    primer-mismatch error from the recovery. *)
Lemma decode_primer_mismatch_counterexample :
  (matches_at_start list_matches primer5 oligo_shadowed3 ∧
   matches_at_end list_matches primer3 oligo_shadowed3 ∧
   Find oligo_shadowed3 primer3 PrimerErrors = (6, 6) ∧
   ∀ flip, decode codec823 primer5 primer3 oligo_shadowed3 flip false =
     Done (0, false, false, [], Some Eprimer)) ∧
  (matches_at_start list_matches primer5 oligo_shadowed5 ∧
   matches_at_end list_matches primer3 oligo_shadowed5 ∧
   Find oligo_shadowed5 primer5 PrimerErrors = (6, 6) ∧
   ∀ flip, decode codec823 primer5 primer3 oligo_shadowed5 flip false =
     Done (0, false, false, [], Some Eprimer)) ∧
  (primers_match primer5 primer3 oligo_empty ∧
   ∀ flip, @decode _ _ _ _ primer_recovery codec823 primer5 primer3 oligo_empty flip true =
     Done (0, false, false, [], Some Eprimer)).
Proof.
  split_and!.
  - exists 6. unfold list_matches. vm_compute. split_and!; first [done | by intros [=]].
  - exists 16, 6. unfold list_matches. vm_compute. split_and!; first [done | by intros [=]].
  - by vm_compute.
  - by intros [].
  - exists 6. unfold list_matches. vm_compute. split_and!; first [done | by intros [=]].
  - exists 12, 6. unfold list_matches. vm_compute. split_and!; first [done | by intros [=]].
  - by vm_compute.
  - by intros [].
  - unfold primers_match. vm_compute. split_and!; [done | by intros [=] | done].
  - by intros [].
Qed.

Section Blocks.
Context {Crit O : Type} `{!Oligo O, !Level0 O Crit, !Recovery O Crit}.
Implicit Types c : Codec Crit.

(** A finished parse has one data entry per block. *)
Lemma parse_blocks_done c flip (prefix sol : O) p :
  parse_blocks c flip prefix sol = Done p →
  0 ≤ blknum c ∧ parsed c flip prefix sol (Z.to_nat (blknum c)) p ∧
  length (p_mdblk p) = Z.to_nat (blknum c).
Proof.
  intros Hrun. destruct (Z.lt_ge_cases (blknum c) 0) as [Hneg | HB].
  - exfalso. revert Hrun. unfold parse_blocks, make.
    destruct (Z.ltb_spec (blknum c) 0); [done | lia].
  - destruct (parse_blocks_spec c flip prefix sol HB) as (p' & Hrun' & Hp & Hl).
    rewrite Hrun in Hrun'. injection Hrun' as <-. done.
Qed.

(** A run of [decode] that ends in the metadata error without recovery
    went through the parser and returns its blocks. *)
Lemma decode_metadata_error c (p5 p3 ol : O) flip address ef sf data :
  decode c p5 p3 ol flip false = Done (address, ef, sf, data, Some Emetadata) →
  address = 0 ∧ ef = false ∧ sf = false ∧
  ∃ p, parse_blocks c flip (primer_prefix p5) (body p5 p3 ol) = Done p ∧
       verified c p = false ∧ data = p_data p ∧
       length data = Z.to_nat (blknum c) ∧
       ∀ i, (i < Z.to_nat (blknum c))%nat →
            data !! i = Some (data_at c flip (primer_prefix p5) (body p5 p3 ol) i).
Proof.
  destruct (primers_match_dec p5 p3 ol) as [Hm | Hno];
    [|by rewrite decode_mismatched].
  rewrite decode_matched by done.
  destruct (parse_blocks _ _ _ _) as [p|] eqn:Hparse; [|done]. cbn [mbind run_bind].
  intros Hv. apply validate_spec in Hv as
    [(Hver & _ & _ & -> & -> & -> & ->) | [(_ & [=] & _) | (_ & [=] & _)]].
  apply parse_blocks_done in Hparse as (HB & (_ & Hlen & Hdata & _) & _).
  split_and!; [done | done | done |]. by exists p.
Qed.

End Blocks.

(** C10.  When [decode], called without recovery, returns the
    metadata-unrecoverable error, the address it returns is 0, both flags
    are false, and the data vector is the one the parser built: one entry
    per block, absent where the block is corrupted.  This is what
    [decode] returns whenever the primers match and the digits do not
    verify, and [Decode] hands the same results on. *)
Theorem metadata_error_keeps_blocks {Crit O : Type}
    `{!Oligo O, !Level0 O Crit, !Recovery O Crit} (c : Codec Crit) (p5 p3 ol : O) :
  (∀ flip address ef sf data,
     decode c p5 p3 ol flip false = Done (address, ef, sf, data, Some Emetadata) →
     address = 0 ∧ ef = false ∧ sf = false ∧
     ∃ p, parse_blocks c flip (primer_prefix p5) (body p5 p3 ol) = Done p ∧
          verified c p = false ∧ data = p_data p ∧
          length data = Z.to_nat (blknum c) ∧
          ∀ i, (i < Z.to_nat (blknum c))%nat →
               data !! i = Some (data_at c flip (primer_prefix p5) (body p5 p3 ol) i)) ∧
  (∀ flip p,
     primers_match p5 p3 ol →
     parse_blocks c flip (primer_prefix p5) (body p5 p3 ol) = Done p →
     verified c p = false →
     decode c p5 p3 ol flip false = Done (0, false, false, p_data p, Some Emetadata)) ∧
  (∀ s address ef data,
     (Decode c p5 p3 ol false s).2 = Done (address, ef, data, Some Emetadata) →
     address = 0 ∧ ef = false ∧ length data = Z.to_nat (blknum c) ∧
     ∃ flip p, parse_blocks c flip (primer_prefix p5) (body p5 p3 ol) = Done p ∧
               data = p_data p).
Proof.
  split_and!.
  - intros flip address ef sf data. apply decode_metadata_error.
  - intros flip p Hm Hparse Hver. rewrite decode_matched by done.
    rewrite Hparse. cbn [mbind run_bind]. by apply validate_unverified.
  - intros s address ef data. rewrite Decode_run. cbv zeta. cbn [snd].
    destruct (decode c p5 p3 ol false false) as [[[[[a1 e1] s1] d1] [err1|]]|] eqn:H1;
      [| |done].
    + cbn. intros [= <- <- <- ->].
      apply decode_metadata_error in H1 as (-> & -> & _ & p & Hp & _ & -> & Hl & _).
      split_and!; [done | done | done |]. by exists false, p.
    + destruct s1; [|done].
      destruct (decode c p5 p3 ol true false) as [[[[[a2 e2] s2] d2] err2]|] eqn:H2;
        [|done].
      cbn. intros [= <- <- <- ->].
      apply decode_metadata_error in H2 as (-> & -> & _ & p & Hp & _ & -> & Hl & _).
      split_and!; [done | done | done |]. by exists true, p.
Qed.

(** An instance of [metadata_error_keeps_blocks]: an oligo that is only
    the two primers gives eight absent blocks with the metadata error. *)
Lemma metadata_error_keeps_blocks_witness :
  decode codec823 primer5 primer3 oligo_empty false false
    = Done (0, false, false, replicate 8 None, Some Emetadata) ∧
  ∃ p, parse_blocks codec823 false (primer_prefix primer5)
         (body primer5 primer3 oligo_empty) = Done p ∧
       replicate 8 None = p_data p ∧ length (p_data p) = 8%nat.
Proof.
  assert (Hrun : decode codec823 primer5 primer3 oligo_empty false false
                 = Done (0, false, false, replicate 8 None, Some Emetadata))
    by by vm_compute.
  split; [exact Hrun|].
  destruct (metadata_error_keeps_blocks codec823 primer5 primer3 oligo_empty) as (H & _ & _).
  destruct (H _ _ _ _ _ Hrun) as (_ & _ & _ & p & Hp & _ & Hd & Hl & _).
  exists p. split_and!; [done | done | by rewrite <- Hd].
Defined.

(** C6 (amended).  For every block the parsing loop appends one entry
    to the data vector and goes on to the metadata segment and to the
    next block: the loop never aborts, and the vector it builds has
    exactly [B] entries.  The entry of block [i] is absent when fewer
    than 17 symbols remain, when the data segment does not decode or
    when its parity check fails; the stream in front of the next block
    and the metadata digit read for block [i] do not depend on that.
    [decode] returns this vector, unless the metadata does not verify and
    recovery is requested: then it returns the vector of the recovery. *)
Theorem parse_absent_blocks {Crit O : Type} `{!Oligo O, !Level0 O Crit, !Recovery O Crit}
    (c : Codec Crit) (p5 p3 ol : O) flip recover :
  0 ≤ blknum c →
  let prefix := primer_prefix p5 in
  let sol := body p5 p3 ol in
  ∃ p,
    parse_blocks c flip prefix sol = Done p ∧
    length (p_data p) = Z.to_nat (blknum c) ∧
    length (p_mdblk p) = Z.to_nat (blknum c) ∧
    (∀ i, (i < Z.to_nat (blknum c))%nat →
       p_data p !! i = Some (data_at c flip prefix sol i) ∧
       (Len (stream c i prefix sol).2 < 17 ∨
        is_Some (l0_Decode (stream c i prefix sol).1
                   (Slice (stream c i prefix sol).2 0 17) (crit c)).2 ∨
        data_block flip (l0_Decode (stream c i prefix sol).1
                           (Slice (stream c i prefix sol).2 0 17) (crit c)).1 = None →
        p_data p !! i = Some None) ∧
       (∀ m, md_at c prefix sol i = Some m → p_mdblk p !! i = Some m)) ∧
    (p_mdok p = true ↔
     ∀ i, (i < Z.to_nat (blknum c))%nat → is_Some (md_at c prefix sol i)) ∧
    (primers_match p5 p3 ol →
     ∀ address ef sf data err,
       decode c p5 p3 ol flip recover = Done (address, ef, sf, data, err) →
       (verified c p = true ∨ recover = false → data = p_data p) ∧
       (verified c p = false → recover = true →
        data = (tryRecover c p5 p3 sol flip).1.1)).
Proof.
  intros HB prefix sol.
  destruct (parse_blocks_spec c flip prefix sol HB) as
    (p & Hrun & (_ & Hlen & Hdata & Hok & Hmd) & Hl).
  exists p. split_and!; [done | done | done | | done |].
  - intros i Hi. split_and!.
    + by apply Hdata.
    + intros Hcase. rewrite Hdata by done. f_equal.
      unfold data_at. by apply parse_data_absent.
    + intros m. by apply Hmd.
  - intros Hm address ef sf data err. rewrite decode_matched by done.
    fold prefix sol. rewrite Hrun. cbn [mbind run_bind].
    intros Hv. apply validate_spec in Hv as
      [(Hver & -> & _ & _ & _ & _ & ->) | [(Hver & _ & -> & _) | (Hver & -> & -> & _)]].
    + split; [done|]. by intros _ [=].
    + split; [done|]. intros Hver'. congruence.
    + split; [|done]. intros [Hver' | [=]]. congruence.
Qed.

(** An instance of [parse_absent_blocks]: in the oligo of the concrete
    scenario with one symbol of the first data segment changed, the
    first block is absent and the parser goes on to read the others and
    all the metadata digits. *)
Lemma parse_absent_blocks_witness :
  ∃ p,
    parse_blocks codec823 false (primer_prefix primer5)
      (body primer5 primer3 oligo823_bad) = Done p ∧
    length (p_data p) = 8%nat ∧
    p_data p = None :: replicate 7 (Some [1; 2; 3; 4]) ∧
    p_mdok p = true ∧
    decode codec823 primer5 primer3 oligo823_bad false false
      = Done (12345, false, false, p_data p, None).
Proof.
  destruct (parse_absent_blocks codec823 primer5 primer3 oligo823_bad false false)
    as (p & Hrun & Hlen & _ & Hblk & _ & _); [cbn; lia|].
  exists p. split_and!; [done | done | | |].
  - vm_compute in Hrun. by injection Hrun as <-.
  - vm_compute in Hrun. by injection Hrun as <-.
  - vm_compute in Hrun. injection Hrun as <-. by vm_compute.
Defined.

(** C6 as stated fails on the code when recovery is requested: on an
    oligo that is only the two primers the loop runs over the eight
    blocks, the metadata does not verify, and [decode] returns the data
    vector of the recovery, here without any entry. *)
Lemma parse_absent_blocks_counterexample :
  primers_match primer5 primer3 oligo_empty ∧
  blknum codec823 = 8 ∧
  (∃ p, parse_blocks codec823 false (primer_prefix primer5)
          (body primer5 primer3 oligo_empty) = Done p ∧ length (p_data p) = 8%nat) ∧
  decode codec823 primer5 primer3 oligo_empty false true
    = Done (0, false, false, [], Some (Ecollab 2)).
Proof.
  split_and!.
  - unfold primers_match. vm_compute. split_and!; [done | by intros [=] | done].
  - done.
  - eexists. split; [by vm_compute | done].
  - by vm_compute.
Qed.
(** * Further properties of the codec *)

(** ** The address packer and its inverse *)

Section Addresses.
Context {Crit : Type}.
Implicit Types c : Codec Crit.

Lemma fold_digits_lt base l acc :
  0 < base → 0 ≤ acc → Forall (λ d, 0 ≤ d < base) l →
  0 ≤ fold_digits base l acc < (acc + 1) * base ^ Z.of_nat (length l).
Proof.
  intros Hb. revert acc. induction l as [|d l IH]; intros acc Hacc Hl.
  - cbn. lia.
  - apply Forall_cons_1 in Hl as [Hd Hl]. cbn [fold_digits fold_left length].
    specialize (IH (acc * base + d) ltac:(nia) Hl). unfold fold_digits in IH.
    rewrite Nat2Z.inj_succ, Z.pow_succ_r by lia.
    assert (0 < base ^ Z.of_nat (length l)) by (apply Z.pow_pos_nonneg; lia).
    nia.
Qed.

(** X1.  Within the address range, [0 ≤ address ≤ MaxAddr], the packer
    reaches its "address not zero" abort in one case only: the address is
    [MaxAddr], both flags are set, and [4 * MaxAddr] is the whole digit
    space [baseM ^ (B - R)]. *)
Theorem address_not_zero_iff c a ef sf maxaddr :
  counts_ok c → 3 ≤ mdsz c ≤ 5 → MaxAddr c = Done maxaddr → 0 ≤ a ≤ maxaddr →
  calculateMdBlocks c a ef sf = Panic Paddress_not_zero ↔
  a = maxaddr ∧ ef = true ∧ sf = true ∧
  4 * maxaddr = baseM (mdsz c) ^ Z.of_nat (mdnum c).
Proof.
  intros Hcnt Hm Hmax Ha.
  destruct (index_maxvals _ Hm) as [_ Hb].
  pose proof (MaxAddr_eq c Hm) as Hmax'. rewrite Hmax in Hmax'.
  injection Hmax' as Hmax'.
  set (pw := baseM (mdsz c) ^ Z.of_nat (mdnum c)) in *.
  assert (Hpw : 0 < pw) by (apply Z.pow_pos_nonneg; lia).
  pose proof (wrap64_range pw) as Hw.
  pose proof (wrap64_le pw ltac:(lia)) as Hle.
  assert (Hq : 4 * maxaddr ≤ wrap64 pw) by (rewrite Hmax'; apply Z.mul_div_le; lia).
  destruct (calculateMdBlocks_split c a ef sf maxaddr Hcnt Hm Hmax Ha)
    as (mdb & _ & _ & _ & Hval & Hrun).
  fold pw in Hval, Hrun. rewrite Hrun.
  assert (Hadj : adjusted a ef sf maxaddr ≤ 4 * maxaddr ∧
                 (0 < maxaddr → adjusted a ef sf maxaddr = 4 * maxaddr →
                  a = maxaddr ∧ ef = true ∧ sf = true)).
  { unfold adjusted. destruct sf, ef; split; try lia; intros ??; split_and!; (done || lia). }
  destruct Hadj as [Hadj1 Hadj2].
  destruct (Z.eqb_spec (adjusted a ef sf maxaddr / pw) 0) as [Hz | Hnz]; cbn [negb].
  - apply Z.div_small_iff in Hz; [|lia]. destruct Hz as [Hz | Hz]; [|lia].
    split.
    + destruct (mdsz c * 2 >? 8); [done|]. intros Her.
      by apply erasure_blocks_no_panic in Her.
    + intros (-> & -> & -> & Heq). unfold adjusted in Hz. lia.
  - split; [intros _ | done].
    assert (pw ≤ adjusted a ef sf maxaddr).
    { destruct (Z.lt_ge_cases (adjusted a ef sf maxaddr) pw); [|done].
      exfalso. apply Hnz. apply Z.div_small. lia. }
    destruct Hadj2 as (-> & -> & ->); [lia | lia |]. split_and!; try done. lia.
Qed.

(** X3.  When the digit space [baseM ^ (B - R)] fits 64 bits, the
    inverse of the packer takes every vector of digits below [baseM] to
    an address and two flags that add up to the value of the digits:
    [value = address + MaxAddr * [ef] + 2 * MaxAddr * [sf]].  The
    address is below [MaxAddr] unless both flags are set, and never more
    than [MaxAddr + 2]. *)
Theorem unpack_decomposes c mdblk maxaddr :
  counts_ok c → 3 ≤ mdsz c ≤ 5 → MaxAddr c = Done maxaddr →
  baseM (mdsz c) ^ Z.of_nat (mdnum c) < 2 ^ 64 →
  (mdnum c ≤ length mdblk)%nat →
  Forall (λ d, 0 ≤ d < baseM (mdsz c)) (take (mdnum c) mdblk) →
  ∃ a ef sf,
    unpack c mdblk = Done (a, ef, sf) ∧
    adjusted a ef sf maxaddr = fold_digits (baseM (mdsz c)) (take (mdnum c) mdblk) 0 ∧
    0 ≤ a ≤ maxaddr + 2 ∧
    (a < maxaddr ∨ (ef = true ∧ sf = true)).
Proof.
  intros Hcnt Hm Hmax Hfit Hlen Hdig.
  destruct (index_maxvals _ Hm) as [_ Hb].
  pose proof (MaxAddr_eq c Hm) as Hmax'. rewrite Hmax in Hmax'.
  injection Hmax' as Hmax'.
  set (pw := baseM (mdsz c) ^ Z.of_nat (mdnum c)) in *.
  assert (Hpw : 0 < pw) by (apply Z.pow_pos_nonneg; lia).
  rewrite wrap64_small in Hmax' by lia.
  pose proof (fold_digits_lt (baseM (mdsz c)) (take (mdnum c) mdblk) 0
                ltac:(lia) ltac:(lia) Hdig) as Hmd.
  rewrite length_take, Nat.min_l in Hmd by done. fold pw in Hmd.
  rewrite (unpack_spec c mdblk maxaddr Hcnt Hm Hmax Hlen); [| |lia].
  2:{ eapply Forall_impl; [|exact Hdig]. cbn. lia. }
  set (md := fold_digits (baseM (mdsz c)) (take (mdnum c) mdblk) 0) in *.
  assert (Hq : 4 * maxaddr ≤ pw < 4 * maxaddr + 4).
  { rewrite Hmax'. Z.div_mod_to_equations. lia. }
  rewrite (wrap64_small (2 * maxaddr)) by lia.
  unfold adjusted.
  destruct (Z.geb_spec md (2 * maxaddr)).
  - rewrite (wrap64_small (md - 2 * maxaddr)) by lia.
    destruct (Z.geb_spec (md - 2 * maxaddr) maxaddr).
    + rewrite wrap64_small by lia. eexists _, _, _. split; [done|]. split_and!; lia.
    + eexists _, _, _. split; [done|]. split_and!; lia.
  - destruct (Z.geb_spec md maxaddr).
    + rewrite wrap64_small by lia. eexists _, _, _. split; [done|]. split_and!; lia.
    + eexists _, _, _. split; [done|]. split_and!; lia.
Qed.

End Addresses.

(** An instance of [address_not_zero_iff]: B = 3, R = 1, M = 4, the
    address [MaxAddr] = 8649 with both flags set. *)
Lemma address_not_zero_iff_witness :
  calculateMdBlocks codec314 8649 true true = Panic Paddress_not_zero ↔
  8649 = 8649 ∧ true = true ∧ true = true ∧ 4 * 8649 = baseM 4 ^ Z.of_nat 2.
Proof.
  apply (address_not_zero_iff codec314 8649 true true 8649).
  - split; cbn; lia.
  - cbn. lia.
  - reflexivity.
  - lia.
Defined.

(** An instance of [unpack_decomposes]: the digits of the concrete
    scenario. *)
Lemma unpack_decomposes_witness :
  ∃ a ef sf,
    unpack codec823 [0; 0; 0; 5; 27; 31; 63; 63] = Done (a, ef, sf) ∧
    adjusted a ef sf 2694803832 = fold_digits 47 [0; 0; 0; 5; 27; 31] 0 ∧
    0 ≤ a ≤ 2694803832 + 2 ∧
    (a < 2694803832 ∨ (ef = true ∧ sf = true)).
Proof.
  apply (unpack_decomposes codec823 [0; 0; 0; 5; 27; 31; 63; 63] 2694803832).
  - split; cbn; lia.
  - cbn. lia.
  - reflexivity.
  - by vm_compute.
  - change (mdnum codec823) with 6%nat. cbn [length]. lia.
  - change (mdnum codec823) with 6%nat. change (baseM (mdsz codec823)) with 47.
    cbn [take]. repeat constructor; lia.
Defined.

(** X2.  Every codec that [NewCodec] returns has a width from 3 to 5,
    and its [MaxAddr] returns, without a fault, a quarter of the digit
    space as 64-bit arithmetic computes it,
    [(baseM ^ (B - R) mod 2^64) / 4]: a value below [2^62], and 0 when
    there is no address digit ([B ≤ R]). *)
Theorem NewCodec_MaxAddr `{!ReedSolomon} {Crit} b m r (crit : Crit) c :
  NewCodec b m r crit = Done (Some c) →
  3 ≤ m ≤ 5 ∧ blknum c = b ∧ rsnum c = r ∧ mdsz c = m ∧
  MaxAddr c = Done (wrap64 (baseM m ^ Z.of_nat (Z.to_nat (b - r))) / 4) ∧
  0 ≤ wrap64 (baseM m ^ Z.of_nat (Z.to_nat (b - r))) / 4 < 2 ^ 62 ∧
  (b ≤ r → MaxAddr c = Done 0).
Proof.
  unfold NewCodec. destruct (Z.ltb_spec m 3); [done|].
  destruct (Z.gtb_spec m 5); [done|]. cbn [orb].
  destruct (reedsolomon_New (b - r) r) as [enc|e]; [|done].
  intros [= <-]. cbn [blknum rsnum mdsz].
  pose proof (wrap64_range (baseM m ^ Z.of_nat (Z.to_nat (b - r)))) as Hw.
  assert (Hmax : MaxAddr {| blknum := b; rsnum := r; mdsz := m; crit := crit;
                            olen := b * 17 + m * (b - r) + 5 * r; ec := enc |}
                 = Done (wrap64 (baseM m ^ Z.of_nat (Z.to_nat (b - r))) / 4)).
  { by rewrite MaxAddr_eq by (cbn; lia). }
  split_and!; try done; try lia.
  - Z.div_mod_to_equations. lia.
  - Z.div_mod_to_equations. lia.
  - intros Hbr. rewrite Hmax. replace (Z.to_nat (b - r)) with 0%nat by lia. done.
Qed.

(** An instance of [NewCodec_MaxAddr]: B = 8, R = 2, M = 3. *)
Lemma NewCodec_MaxAddr_witness :
  3 ≤ 3 ≤ 5 ∧ blknum codec823 = 8 ∧ rsnum codec823 = 2 ∧ mdsz codec823 = 3 ∧
  MaxAddr codec823 = Done (wrap64 (baseM 3 ^ Z.of_nat (Z.to_nat (8 - 2))) / 4) ∧
  0 ≤ wrap64 (baseM 3 ^ Z.of_nat (Z.to_nat (8 - 2))) / 4 < 2 ^ 62 ∧
  (8 ≤ 2 → MaxAddr codec823 = Done 0).
Proof. apply (NewCodec_MaxAddr 8 3 2 tt codec823). reflexivity. Defined.

(** ** Decoding never aborts *)

Section Total.
Context {Crit O : Type} `{!Oligo O, !Level0 O Crit, !Recovery O Crit}.
Implicit Types c : Codec Crit.

Lemma unpack_loop_total (mdblk : list Z) base (k j : nat) acc :
  (j + k ≤ length mdblk)%nat →
  ∃ md, for_up k (Z.of_nat j)
          (λ i md, d ← index mdblk i; Done (wrap64 (wrap64 (md * base) + d))) acc
        = Done md.
Proof.
  revert j acc. induction k as [|k IH]; intros j acc Hjk; [by eexists|].
  cbn [for_up]. destruct (lookup_lt_is_Some_2 mdblk j) as [d Hd]; [lia|].
  rewrite (index_ok _ _ _ Hd). cbn [mbind run_bind].
  replace (Z.of_nat j + 1) with (Z.of_nat (S j)) by lia. apply IH. lia.
Qed.

(** The inverse of the packer returns on every vector that has the
    address digits, whatever they are. *)
Lemma unpack_total c mdblk :
  3 ≤ mdsz c ≤ 5 → (mdnum c ≤ length mdblk)%nat → ∃ r, unpack c mdblk = Done r.
Proof.
  intros Hm Hlen. unfold unpack.
  destruct (index_maxvals _ Hm) as [-> _]. cbn [mbind run_bind].
  destruct (unpack_loop_total mdblk (wrap64 (baseM (mdsz c))) (mdnum c) 0 0 ltac:(lia))
    as [md Hmd].
  unfold mdnum in Hmd. change (Z.of_nat 0) with 0 in Hmd. rewrite Hmd. cbn [mbind run_bind].
  rewrite (MaxAddr_eq c Hm). cbn [mbind run_bind].
  repeat case_match; by eexists.
Qed.

Lemma validate_verified c (p5 p3 sol : O) flip recover p :
  verified c p = true →
  validate c p5 p3 sol flip recover p = resolve c (p_data p) (p_mdblk p) None.
Proof.
  unfold verified, validate. intros [Hok Hver]%andb_prop. rewrite Hok.
  destruct (ec_Verify _ _) as [ok [e|]]; [done|]. by subst ok.
Qed.

(** [decode] without recovery on any oligo whatsoever. *)
Lemma decode_returns c (p5 p3 ol : O) flip :
  counts_ok c → 3 ≤ mdsz c ≤ 5 →
  ∃ a ef sf data err,
    decode c p5 p3 ol flip false = Done (a, ef, sf, data, err) ∧
    (err = None ∨ err = Some Eprimer ∨ err = Some Emetadata) ∧
    (is_Some err → a = 0 ∧ ef = false ∧ sf = false) ∧
    (err = Some Eprimer → data = []) ∧
    (err ≠ Some Eprimer → length data = Z.to_nat (blknum c)).
Proof.
  intros Hcnt Hm. destruct (primers_match_dec p5 p3 ol) as [Hyes | Hno].
  - rewrite decode_matched by done.
    destruct (parse_blocks_spec c flip (primer_prefix p5) (body p5 p3 ol))
      as (p & -> & (_ & Hdata & _) & Hmd); [destruct Hcnt; lia|].
    cbn [mbind run_bind].
    destruct (verified c p) eqn:Hver.
    + rewrite validate_verified by done. unfold resolve.
      destruct (unpack_total c (p_mdblk p) Hm) as [[[a ef] sf] ->].
      { rewrite Hmd. unfold mdnum. destruct Hcnt. lia. }
      cbn [mbind run_bind]. eexists a, ef, sf, _, None.
      split_and!; [done | by left | by intros [? [=]] | done | done].
    + rewrite validate_unverified by done. eexists 0, false, false, _, _.
      split_and!; [done | by right; right | done | done | done].
  - rewrite decode_mismatched by done. eexists 0, false, false, [], _.
    split_and!; [done | by right; left | done | done | done].
Qed.

End Total.

(** X4.  Without recovery, decoding returns on every oligo: for a
    codec with [0 ≤ R ≤ B] and a width from 3 to 5, [decode] and [Decode]
    raise no fault, whatever the oligo and the primers are.  The only
    errors are the primer mismatch and the metadata error, and each comes
    with the address 0 and clear flags; the primer mismatch comes without
    blocks, every other result with exactly [B] of them. *)
Theorem decode_total {Crit O : Type} `{!Oligo O, !Level0 O Crit, !Recovery O Crit}
    (c : Codec Crit) (p5 p3 ol : O) :
  counts_ok c → 3 ≤ mdsz c ≤ 5 →
  (∀ flip, ∃ a ef sf data err,
     decode c p5 p3 ol flip false = Done (a, ef, sf, data, err) ∧
     (err = None ∨ err = Some Eprimer ∨ err = Some Emetadata) ∧
     (is_Some err → a = 0 ∧ ef = false ∧ sf = false) ∧
     (err = Some Eprimer → data = []) ∧
     (err ≠ Some Eprimer → length data = Z.to_nat (blknum c))) ∧
  (∀ s, ∃ a ef data err,
     (Decode c p5 p3 ol false s).2 = Done (a, ef, data, err) ∧
     (err = None ∨ err = Some Eprimer ∨ err = Some Emetadata) ∧
     (is_Some err → a = 0 ∧ ef = false) ∧
     (err = Some Eprimer → data = []) ∧
     (err ≠ Some Eprimer → length data = Z.to_nat (blknum c))).
Proof.
  intros Hcnt Hm. split; [intros flip; by apply decode_returns|].
  intros s. rewrite Decode_run. cbn [snd].
  destruct (decode_returns c p5 p3 ol false Hcnt Hm)
    as (a & ef & sf & data & err & -> & H1 & H2 & H3 & H4).
  destruct (decode_returns c p5 p3 ol true Hcnt Hm)
    as (a' & ef' & sf' & data' & err' & -> & H1' & H2' & H3' & H4').
  destruct err as [e|], sf; cbn [result mbind run_bind].
  - eexists _, _, _, _. split; [done|]. split_and!; try done.
    intros He. by destruct (H2 He) as (? & ? & ?).
  - eexists _, _, _, _. split; [done|]. split_and!; try done.
    intros He. by destruct (H2 He) as (? & ? & ?).
  - eexists _, _, _, _. split; [done|]. split_and!; try done.
    intros He. by destruct (H2' He) as (? & ? & ?).
  - eexists _, _, _, _. split; [done|]. split_and!; done.
Qed.

(** An instance of [decode_total]: the oligo of the concrete scenario
    with one symbol changed. *)
Lemma decode_total_witness :
  ∃ a ef data err,
    (Decode codec823 primer5 primer3 oligo823_bad false
       {| bufs := []; vecs := []; calls := [] |}).2 = Done (a, ef, data, err) ∧
    (err = None ∨ err = Some Eprimer ∨ err = Some Emetadata) ∧
    (is_Some err → a = 0 ∧ ef = false) ∧
    (err = Some Eprimer → data = []) ∧
    (err ≠ Some Eprimer → length data = Z.to_nat (blknum codec823)).
Proof.
  apply (decode_total codec823 primer5 primer3 oligo823_bad).
  - split; cbn; lia.
  - cbn. lia.
Defined.

(** ** Reading and complementing the payload *)

Lemma vec_len_eval t l es :
  vecs t !! l = Some es → vec_len (Some l) t = (t, Done (Z.of_nat (length es))).
Proof. intros Hl. unfold vec_len. by rewrite Hl. Qed.

Lemma vec_get_eval t l es (k : nat) e :
  vecs t !! l = Some es → es !! k = Some e →
  vec_get (Some l) (Z.of_nat k) t = (t, Done e).
Proof. intros Hl Hk. unfold vec_get. by rewrite Hl, (index_ok _ _ _ Hk). Qed.

Lemma buf_len_eval t lb b :
  bufs t !! lb = Some b → buf_len (Some lb) t = (t, Done (Z.of_nat (length b))).
Proof. intros Hl. unfold buf_len. by rewrite Hl. Qed.

Lemma buf_get_eval t lb b (j : nat) x :
  bufs t !! lb = Some b → b !! j = Some x →
  buf_get (Some lb) (Z.of_nat j) t = (t, Done x).
Proof. intros Hl Hj. unfold buf_get. by rewrite Hl, (index_ok _ _ _ Hj). Qed.

Lemma new_vec_eval (n : nat) t :
  new_vec (Z.of_nat n) t =
    ({| bufs := bufs t; vecs := vecs t ++ [replicate n None]; calls := calls t |},
     Done (Some (length (vecs t)))).
Proof.
  unfold new_vec, make. destruct (Z.ltb_spec (Z.of_nat n) 0); [lia|].
  by rewrite Nat2Z.id.
Qed.

Lemma new_buf_eval (n : nat) t :
  new_buf (Z.of_nat n) t =
    ({| bufs := bufs t ++ [replicate n 0]; vecs := vecs t; calls := calls t |},
     Done (Some (length (bufs t)))).
Proof.
  unfold new_buf, make. destruct (Z.ltb_spec (Z.of_nat n) 0); [lia|].
  by rewrite Nat2Z.id.
Qed.

Lemma vec_set_eval t l es (k : nat) e :
  vecs t !! l = Some es → (k < length es)%nat →
  vec_set (Some l) (Z.of_nat k) e t =
    ({| bufs := bufs t; vecs := <[l := <[k := e]> es]> (vecs t); calls := calls t |},
     Done ()).
Proof. intros Hl Hk. unfold vec_set. by rewrite Hl, store_ok. Qed.

Lemma buf_set_eval t lb b (j : nat) x :
  bufs t !! lb = Some b → (j < length b)%nat →
  buf_set (Some lb) (Z.of_nat j) x t =
    ({| bufs := <[lb := <[j := x]> b]> (bufs t); vecs := vecs t; calls := calls t |},
     Done ()).
Proof. intros Hl Hj. unfold buf_set. by rewrite Hl, store_ok. Qed.

(** The cells behind an entry of the payload. *)
Lemma payload_lookup s data (k : nat) b :
  payload s data !! k = Some (Some b) →
  ∃ l es lb, data = Some l ∧ vecs s !! l = Some es ∧
             es !! k = Some (Some lb) ∧ bufs s !! lb = Some b.
Proof.
  unfold payload. destruct data as [l|]; cbn [mbind option_bind]; [|done].
  destruct (vecs s !! l) as [es|] eqn:Hes; [|done].
  rewrite list_lookup_fmap. destruct (es !! k) as [[lb|]|] eqn:Hk; cbn; [|done..].
  intros [= Hb]. by exists l, es, lb.
Qed.

Lemma payload_vec s data bs :
  payload s data = Some <$> bs → bs ≠ [] →
  ∃ l es, data = Some l ∧ vecs s !! l = Some es ∧ length es = length bs.
Proof.
  unfold payload. destruct data as [l|]; cbn [mbind option_bind].
  - destruct (vecs s !! l) as [es|] eqn:Hes.
    + intros Hp _. exists l, es. split_and!; [done..|].
      apply (f_equal length) in Hp. by rewrite !length_fmap in Hp.
    + by destruct bs.
  - by destruct bs.
Qed.

(** The payload is the same in a memory that keeps the vector and
    every buffer. *)
Lemma payload_preserved s s' l bs :
  vecs s' !! l = vecs s !! l →
  (∀ lb b, bufs s !! lb = Some b → bufs s' !! lb = Some b) →
  payload s (Some l) = Some <$> bs → payload s' (Some l) = Some <$> bs.
Proof.
  unfold payload. cbn [mbind option_bind]. intros -> Hb.
  destruct (vecs s !! l) as [es|]; [|done].
  intros Hp. rewrite <- Hp. apply list_eq. intros k.
  rewrite !list_lookup_fmap.
  apply (f_equal (.!! k)) in Hp. rewrite !list_lookup_fmap in Hp.
  destruct (es !! k) as [[lb|]|]; cbn in *; [|by destruct (bs !! k)..|done].
  destruct (bs !! k) as [b|]; [|done]. cbn in Hp.
  destruct (bufs s !! lb) as [b'|] eqn:Hlb; [|done]. by rewrite (Hb _ _ Hlb).
Qed.

Section Complement.
Variables (l ld : nat) (es : list (option nat)).
Hypothesis l_ld : l ≠ ld.

(** The loop over the bytes of block [i]: the new buffer [lb] is filled
    with the complements of the bytes of the source [lsrc]. *)
Lemma negate_bytes_spec (i : nat) lsrc lb src dv (k j : nat) t cur :
  vecs t !! l = Some es → es !! i = Some (Some lsrc) → bufs t !! lsrc = Some src →
  vecs t !! ld = Some dv → dv !! i = Some (Some lb) → bufs t !! lb = Some cur →
  lsrc ≠ lb → length cur = length src → (j + k ≤ length src)%nat →
  ∃ cur',
    forM_up k (Z.of_nat j) (negate_byte (Some l) (Some ld) (Z.of_nat i)) () t
    = ({| bufs := <[lb := cur']> (bufs t); vecs := vecs t; calls := calls t |},
       Done (Next ())) ∧
    length cur' = length cur ∧
    (∀ x, (j ≤ x < j + k)%nat → cur' !! x = not8 <$> src !! x) ∧
    (∀ x, ¬ (j ≤ x < j + k)%nat → cur' !! x = cur !! x).
Proof.
  intros Hes Hi Hsrc Hdv Hdi. revert j t cur Hes Hsrc Hdv.
  induction k as [|k IH]; intros j t cur Hes Hsrc Hdv Hcur Hne Hlen Hjk.
  - exists cur. split_and!; [|done| intros; lia |done].
    cbn [forM_up]. unfold mret, M_ret. rewrite list_insert_id by done. by destruct t.
  - cbn [forM_up]. unfold mbind at 1, M_bind at 1.
    destruct (lookup_lt_is_Some_2 src j) as [x Hx]; [lia|].
    assert (Hstep : negate_byte (Some l) (Some ld) (Z.of_nat i) (Z.of_nat j) () t
            = ({| bufs := <[lb := <[j := not8 x]> cur]> (bufs t); vecs := vecs t;
                  calls := calls t |}, Done (Next ()))).
    { unfold negate_byte.
      unfold mbind at 1, M_bind at 1. rewrite (vec_get_eval _ _ _ _ _ Hdv Hdi).
      unfold mbind at 1, M_bind at 1. rewrite (vec_get_eval _ _ _ _ _ Hes Hi).
      unfold mbind at 1, M_bind at 1. rewrite (buf_get_eval _ _ _ _ _ Hsrc Hx).
      unfold mbind at 1, M_bind at 1. rewrite (buf_set_eval _ _ _ _ _ Hcur) by lia.
      done. }
    rewrite Hstep. replace (Z.of_nat j + 1) with (Z.of_nat (S j)) by lia.
    set (t1 := {| bufs := <[lb := <[j := not8 x]> cur]> (bufs t); vecs := vecs t;
                  calls := calls t |}).
    destruct (IH (S j) t1 (<[j := not8 x]> cur)) as (cur' & Hrun & Hlen' & Hin & Hout);
      subst t1; cbn [bufs vecs calls]; try done.
    + by rewrite list_lookup_insert_ne.
    + apply list_lookup_insert_eq. by eapply lookup_lt_Some.
    + by rewrite length_insert.
    + lia.
    + rewrite Hrun. cbn [bufs vecs calls].
      exists cur'. rewrite list_insert_insert_eq. rewrite length_insert in Hlen'.
      split_and!; [done | done | |].
      * intros y Hy. destruct (decide (y = j)) as [-> | Hyj].
        -- rewrite Hout by lia. rewrite list_lookup_insert_eq by lia. by rewrite Hx.
        -- apply Hin. lia.
      * intros y Hy. rewrite Hout by lia. apply list_lookup_insert_ne. lia.
Qed.


(** One iteration of the loop over the blocks: block [i] gets a new
    buffer holding the complement of its bytes. *)
Lemma negate_block_spec bs (i : nat) dv t :
  vecs t !! l = Some es → payload t (Some l) = Some <$> bs →
  vecs t !! ld = Some dv → length dv = length bs → (i < length bs)%nat →
  (∀ x b, (x < i)%nat → bs !! x = Some b →
     ∃ lb, dv !! x = Some (Some lb) ∧ bufs t !! lb = Some (not8 <$> b)) →
  ∃ t' dv',
    negate_block (Some l) (Some ld) (Z.of_nat i) () t = (t', Done (Next ())) ∧
    vecs t' !! l = Some es ∧ payload t' (Some l) = Some <$> bs ∧
    vecs t' !! ld = Some dv' ∧ length dv' = length bs ∧ calls t' = calls t ∧
    (∀ x b, (x < S i)%nat → bs !! x = Some b →
       ∃ lb, dv' !! x = Some (Some lb) ∧ bufs t' !! lb = Some (not8 <$> b)).
Proof.
  intros Hes Hpay Hdv Hlen Hi Hdone.
  destruct (lookup_lt_is_Some_2 bs i Hi) as [src Hsrc].
  assert (Hp : payload t (Some l) !! i = Some (Some src)).
  { by rewrite Hpay, list_lookup_fmap, Hsrc. }
  apply payload_lookup in Hp as (l' & es' & lsrc & [= <-] & Hes' & Hei & Hbuf).
  rewrite Hes in Hes'. injection Hes' as <-.
  set (lb := length (bufs t)).
  assert (Hlsrc : (lsrc < lb)%nat) by (by eapply lookup_lt_Some).
  assert (Hld : (ld < length (vecs t))%nat) by (by eapply lookup_lt_Some).
  set (t2 := {| bufs := bufs t ++ [replicate (length src) 0];
                vecs := <[ld := <[i := Some lb]> dv]> (vecs t); calls := calls t |}).
  destruct (negate_bytes_spec i lsrc lb src (<[i := Some lb]> dv) (length src) 0 t2
              (replicate (length src) 0)) as (cur' & Hrun & Hlen' & Hin & _);
    subst t2; cbn [bufs vecs calls].
  - by rewrite list_lookup_insert_ne.
  - done.
  - by rewrite lookup_app_l.
  - by rewrite list_lookup_insert_eq.
  - apply list_lookup_insert_eq. lia.
  - subst lb. by rewrite list_lookup_middle.
  - lia.
  - by rewrite length_replicate.
  - lia.
  - assert (Hcur : cur' = not8 <$> src).
    { apply list_eq. intros x. rewrite list_lookup_fmap.
      destruct (decide (x < length src)%nat).
      - apply Hin. lia.
      - rewrite !lookup_ge_None_2; [done | lia |].
        rewrite Hlen', length_replicate. lia. }
    subst cur'. cbn [bufs vecs calls] in Hrun.
    eexists _, (<[i := Some lb]> dv). split.
    { unfold negate_block.
      unfold mbind at 1, M_bind at 1. rewrite (vec_get_eval _ _ _ _ _ Hes Hei).
      unfold mbind at 1, M_bind at 1. rewrite (buf_len_eval _ _ _ Hbuf).
      unfold mbind at 1, M_bind at 1. rewrite new_buf_eval.
      unfold mbind at 1, M_bind at 1.
      rewrite (vec_set_eval _ ld dv i) by (done || lia). cbn [bufs vecs calls].
      unfold mbind at 1, M_bind at 1. rewrite Nat2Z.id.
      change (Z.of_nat 0) with 0 in Hrun. fold lb. rewrite Hrun. done. }
    cbn [bufs vecs calls].
    assert (Hkeep : ∀ x b, bufs t !! x = Some b →
              <[lb := not8 <$> src]> (bufs t ++ [replicate (length src) 0]) !! x = Some b).
    { intros x b Hx. assert (x < lb)%nat by (by eapply lookup_lt_Some).
      rewrite list_lookup_insert_ne by lia. by rewrite lookup_app_l. }
    split_and!.
    + by rewrite list_lookup_insert_ne.
    + eapply payload_preserved; [| |exact Hpay]; cbn [bufs vecs calls].
      * by rewrite list_lookup_insert_ne.
      * exact Hkeep.
    + by rewrite list_lookup_insert_eq.
    + by rewrite length_insert.
    + done.
    + intros x b Hx Hb. destruct (decide (x = i)) as [-> | Hxi].
      * exists lb. rewrite Hsrc in Hb. injection Hb as <-. split.
        -- apply list_lookup_insert_eq. lia.
        -- apply list_lookup_insert_eq. rewrite length_app. cbn. lia.
      * destruct (Hdone x b ltac:(lia) Hb) as (lb0 & Hd0 & Hb0).
        exists lb0. split; [by rewrite list_lookup_insert_ne | by apply Hkeep].
Qed.

Lemma negate_blocks_spec bs (k i : nat) dv t :
  vecs t !! l = Some es → payload t (Some l) = Some <$> bs →
  vecs t !! ld = Some dv → length dv = length bs → (i + k ≤ length bs)%nat →
  (∀ x b, (x < i)%nat → bs !! x = Some b →
     ∃ lb, dv !! x = Some (Some lb) ∧ bufs t !! lb = Some (not8 <$> b)) →
  ∃ t' dv',
    forM_up k (Z.of_nat i) (negate_block (Some l) (Some ld)) () t = (t', Done (Next ())) ∧
    vecs t' !! ld = Some dv' ∧ length dv' = length bs ∧ calls t' = calls t ∧
    (∀ x b, (x < i + k)%nat → bs !! x = Some b →
       ∃ lb, dv' !! x = Some (Some lb) ∧ bufs t' !! lb = Some (not8 <$> b)).
Proof.
  revert i dv t. induction k as [|k IH]; intros i dv t Hes Hpay Hdv Hlen Hik Hdone.
  - exists t, dv. rewrite Nat.add_0_r. by split_and!.
  - destruct (negate_block_spec bs i dv t) as
      (t1 & dv1 & Hstep & Hes1 & Hpay1 & Hdv1 & Hlen1 & Hcalls1 & Hdone1);
      [done | done | done | done | lia | done |].
    destruct (IH (S i) dv1 t1) as (t' & dv' & Hrun & Hdv' & Hlen' & Hcalls' & Hdone');
      [done | done | done | done | lia | done |].
    exists t', dv'. cbn [forM_up]. unfold mbind at 1, M_bind at 1. rewrite Hstep.
    replace (Z.of_nat i + 1) with (Z.of_nat (S i)) by lia. rewrite Hrun.
    split_and!; [done | done | done | congruence |].
    intros x b Hx. apply Hdone'. lia.
Qed.

End Complement.

(** The [if sf] block of [encode] returns a vector that holds the
    complement of every byte of the payload. *)
Lemma negate_spec s data (bs : list (list Z)) :
  payload s data = Some <$> bs → bs ≠ [] →
  ∃ s1 d, negate data s = (s1, Done d) ∧ calls s1 = calls s ∧
          payload s1 d = Some <$> ((λ b : list Z, not8 <$> b) <$> bs).
Proof.
  intros Hpay Hne.
  destruct (payload_vec s data bs Hpay Hne) as (l & es & -> & Hes & Hlen).
  assert (Hl : (l < length (vecs s))%nat) by (by eapply lookup_lt_Some).
  set (ld := length (vecs s)).
  set (t0 := {| bufs := bufs s; vecs := vecs s ++ [replicate (length es) None];
                calls := calls s |}).
  destruct (negate_blocks_spec l ld es ltac:(lia) bs (length bs) 0
              (replicate (length es) None) t0)
    as (t' & dv' & Hrun & Hdv' & Hlen' & Hcalls' & Hdone'); subst t0; cbn [bufs vecs calls].
  - by rewrite lookup_app_l.
  - eapply payload_preserved; [| |exact Hpay]; cbn [bufs vecs calls]; [|done].
    by rewrite lookup_app_l.
  - subst ld. by rewrite list_lookup_middle.
  - by rewrite length_replicate.
  - lia.
  - intros; lia.
  - exists t', (Some ld). split_and!.
    + unfold negate. unfold mbind at 1, M_bind at 1. rewrite (vec_len_eval _ _ _ Hes).
      unfold mbind at 1, M_bind at 1. rewrite new_vec_eval.
      unfold mbind at 1, M_bind at 1. rewrite Nat2Z.id. fold ld.
      change (Z.of_nat 0) with 0 in Hrun. rewrite <- Hlen in Hrun. by rewrite Hrun.
    + done.
    + unfold payload. cbn [mbind option_bind]. rewrite Hdv'.
      apply list_eq. intros x. rewrite !list_lookup_fmap.
      destruct (bs !! x) as [b|] eqn:Hb.
      * destruct (Hdone' x b) as (lb & -> & Hlb); [|done|].
        { apply lookup_lt_Some in Hb. lia. }
        cbn. by rewrite Hlb.
      * rewrite lookup_ge_None_2; [done|]. apply lookup_ge_None_1 in Hb. lia.
Qed.

(** ** The digits that go into an oligo *)

Section Pack.
Context {Crit : Type}.
Implicit Types c : Codec Crit.

(** The erasure blocks of digits that are bytes: the vector read back
    from the shards holds bytes and verifies. *)
Lemma erasure_blocks_verified c mdb :
  encoder_contract c → verify_contract c → (mdnum c ≤ length mdb)%nat →
  length mdb = Z.to_nat (blknum c) →
  Forall (λ d, 0 ≤ d < 256) (take (mdnum c) mdb) →
  ∃ mdb',
    erasure_blocks c mdb = Done (mdb', None) ∧
    length mdb' = length mdb ∧
    take (mdnum c) mdb' = take (mdnum c) mdb ∧
    Forall is_byte mdb' ∧
    ec_Verify (ec c) ((λ m, [to_byte m]) <$> mdb') = (true, None).
Proof.
  intros Henc Hver Hn Hlen Hdig. unfold erasure_blocks.
  destruct (Henc ((λ d, [to_byte d]) <$> mdb)) as (shards' & Hrun & Hlen' & Hone & Htake).
  { by rewrite length_fmap. }
  { apply Forall_fmap, Forall_true. done. }
  destruct (Hver ((λ d, [to_byte d]) <$> mdb) shards') as [Hbytes Hok]; [| |done|].
  { by rewrite length_fmap. }
  { apply Forall_fmap, Forall_true. intros d. cbn. constructor; [|done].
    unfold is_byte, to_byte. apply Z.mod_pos_bound. lia. }
  rewrite Hrun, length_fmap. rewrite length_fmap in Hlen'.
  destruct (readback_spec shards' (length mdb) 0 mdb) as (mdb' & Hrb & Hl & Hin & _);
    [done | done | lia |].
  change (Z.of_nat 0) with 0 in Hrb. rewrite Hrb. cbn [mbind run_bind].
  assert (Hcell : ∀ i x, mdb' !! i = Some x → shards' !! i = Some [x] ∧ is_byte x).
  { intros i x Hx. assert (Hi : (i < length mdb)%nat).
    { rewrite <- Hl. by eapply lookup_lt_Some. }
    rewrite Hin in Hx by lia.
    destruct (shards' !! i) as [sh|] eqn:Hsh; [|done]. cbn in Hx.
    pose proof (Forall_lookup_1 _ _ _ _ Hone Hsh) as Hsh1.
    pose proof (Forall_lookup_1 _ _ _ _ Hbytes Hsh) as Hshb.
    destruct sh as [|y [|??]]; try done. cbn in Hx. injection Hx as ->.
    split; [done|]. by apply Forall_cons_1 in Hshb as [? _]. }
  exists mdb'. split_and!; [done | done | | |].
  - apply list_eq. intros i. destruct (decide (i < mdnum c)%nat) as [Hi | Hi].
    + rewrite !lookup_take_lt by done. rewrite Hin by lia.
      assert (Hsh : shards' !! i = ((λ d, [to_byte d]) <$> mdb) !! i).
      { rewrite <- (lookup_take_lt shards' (mdnum c)) by done.
        fold (mdnum c) in Htake. rewrite Htake. by apply lookup_take_lt. }
      rewrite Hsh, list_lookup_fmap.
      destruct (mdb !! i) as [d|] eqn:Hd; [|done]. cbn.
      assert (0 ≤ d < 256) as Hd256.
      { eapply (Forall_lookup_1 _ _ i d Hdig). by rewrite lookup_take_lt. }
      unfold to_byte. by rewrite Z.mod_small.
    + rewrite !lookup_take_ge by lia. done.
  - apply Forall_lookup_2. intros i x Hx. by apply Hcell in Hx as [_ ?].
  - replace ((λ m, [to_byte m]) <$> mdb') with shards'; [done|].
    apply list_eq. intros i. rewrite list_lookup_fmap.
    destruct (mdb' !! i) as [x|] eqn:Hx.
    + apply Hcell in Hx as [-> Hb]. cbn. unfold to_byte, is_byte in *.
      by rewrite Z.mod_small.
    + cbn. apply lookup_ge_None_2. apply lookup_ge_None_1 in Hx. lia.
Qed.

(** The packer below [MaxAddr], width 3 or 4: the digits come back as
    bytes that verify and that unpack to what was packed. *)
Lemma pack_spec c a ef sf maxaddr :
  counts_ok c → mdsz c = 3 ∨ mdsz c = 4 → encoder_contract c → verify_contract c →
  MaxAddr c = Done maxaddr → 0 ≤ a < maxaddr →
  ∃ mdb,
    calculateMdBlocks c a ef sf = Done (mdb, None) ∧
    length mdb = Z.to_nat (blknum c) ∧
    Forall is_byte mdb ∧
    ec_Verify (ec c) ((λ m, [to_byte m]) <$> mdb) = (true, None) ∧
    unpack c mdb = Done (a, ef, sf).
Proof.
  intros Hcnt HM Henc Hver Hmax Ha.
  assert (Hm : 3 ≤ mdsz c ≤ 5) by lia.
  destruct (index_maxvals _ Hm) as [_ Hb].
  assert (Hb' : baseM (mdsz c) ≤ 186) by (destruct HM as [-> | ->]; by vm_compute).
  pose proof (MaxAddr_eq c Hm) as Hmax'. rewrite Hmax in Hmax'.
  injection Hmax' as Hmax'.
  pose proof (wrap64_range (baseM (mdsz c) ^ Z.of_nat (mdnum c))) as Hw.
  assert (Hq : 4 * maxaddr ≤ wrap64 (baseM (mdsz c) ^ Z.of_nat (mdnum c))).
  { rewrite Hmax'. apply Z.mul_div_le. lia. }
  assert (Hpow : wrap64 (baseM (mdsz c) ^ Z.of_nat (mdnum c))
                 ≤ baseM (mdsz c) ^ Z.of_nat (mdnum c)).
  { apply wrap64_le, Z.pow_nonneg. lia. }
  destruct (calculateMdBlocks_split c a ef sf maxaddr Hcnt Hm Hmax ltac:(lia))
    as (mdb & Hlen & Hdig & Hfold & Hval & Hrun).
  assert (Hlt : adjusted a ef sf maxaddr < 4 * maxaddr).
  { unfold adjusted. destruct sf, ef; lia. }
  rewrite Z.div_small in Hfold, Hrun by lia.
  change (negb (0 =? 0)) with false in Hrun. cbv iota in Hrun.
  destruct (Z.gtb_spec (mdsz c * 2) 8) as [|_]; [lia|].
  assert (Hn : (mdnum c ≤ length mdb)%nat).
  { rewrite Hlen. unfold mdnum. destruct Hcnt. lia. }
  destruct (erasure_blocks_verified c mdb Henc Hver Hn Hlen)
    as (mdb' & Hrun' & Hlen' & Htake & Hbytes & Hok).
  { eapply Forall_impl; [|exact Hdig]. cbn. lia. }
  exists mdb'. rewrite Hrun. split_and!; [done | congruence | done | done |].
  rewrite (unpack_spec c mdb' maxaddr Hcnt Hm Hmax); rewrite ?Htake, ?Hfold.
  - apply adjusted_flags; lia.
  - lia.
  - eapply Forall_impl; [|exact Hdig]. cbn. lia.
  - lia.
Qed.

End Pack.

(** ** The assembling loop, one block at a time *)

Section Assemble.
Context {Crit O : Type} `{!Oligo O, !Level0 O Crit}.
Implicit Types c : Codec Crit.

(** Blocks of [BlockSize] bytes pass the size check. *)
Lemma check_size_pass c data (bs : list (list Z)) s (n i : nat) :
  payload s data = Some <$> bs → Forall is_block bs → (i + n ≤ length bs)%nat →
  forM_up n (Z.of_nat i) (check_size (O := O) c data) () s = (s, Done (Next ())).
Proof.
  intros Hpay Hbs. revert i. induction n as [|n IH]; intros i Hin; [done|].
  destruct (lookup_lt_is_Some_2 bs i) as [b Hb]; [lia|].
  assert (Hp : payload s data !! i = Some (Some b)).
  { by rewrite Hpay, list_lookup_fmap, Hb. }
  apply payload_lookup in Hp as (l & es & lb & -> & Hes & Hei & Hbuf).
  destruct (Forall_lookup_1 _ _ _ _ Hbs Hb) as [Hlen _].
  cbn [forM_up]. unfold mbind at 1, M_bind at 1. unfold check_size.
  unfold mbind at 1, M_bind at 1. rewrite (vec_get_eval _ _ _ _ _ Hes Hei).
  unfold mbind at 1, M_bind at 1. rewrite (buf_len_eval _ _ _ Hbuf).
  rewrite Hlen. cbn [negb Z.eqb Z.of_nat BlockSize Pos.of_succ_nat Pos.succ Pos.eqb].
  unfold mret at 1, M_ret at 1.
  replace (Z.of_nat i + 1) with (Z.of_nat (S i)) by lia. apply IH. lia.
Qed.

(** One iteration of the assembling loop on a block of four bytes. *)
Lemma encode_block_eval c mdb data s (k : nat) b0 b1 b2 b3 m (o : O) :
  payload s data !! k = Some (Some [b0; b1; b2; b3]) → mdb !! k = Some m →
  encode_block c mdb data (Z.of_nat k) o s =
    (s, Done
       match l0_Encode (Slice o (Len o - 4) (Len o))
               (with_parity (block_value b0 b1 b2 b3)) 17 (crit c) with
       | inr e => Return (None, Some e)
       | inl d =>
           match l0_Encode (Slice (Append o d) (Len (Append o d) - 4) 0) m
                   (md_width c (Z.of_nat k)) (crit c) with
           | inr e => Return (None, Some e)
           | inl mb => Next (Append (Append o d) mb)
           end
       end).
Proof.
  intros Hp Hm.
  apply payload_lookup in Hp as (l & es & lb & -> & Hes & Hei & Hbuf).
  unfold encode_block.
  unfold mbind at 1, M_bind at 1. rewrite (vec_get_eval _ _ _ _ _ Hes Hei).
  assert (H0 : buf_get (Some lb) 0 s = (s, Done b0))
    by apply (buf_get_eval _ _ _ 0 b0 Hbuf eq_refl).
  assert (H1 : buf_get (Some lb) 1 s = (s, Done b1))
    by apply (buf_get_eval _ _ _ 1 b1 Hbuf eq_refl).
  assert (H2 : buf_get (Some lb) 2 s = (s, Done b2))
    by apply (buf_get_eval _ _ _ 2 b2 Hbuf eq_refl).
  assert (H3 : buf_get (Some lb) 3 s = (s, Done b3))
    by apply (buf_get_eval _ _ _ 3 b3 Hbuf eq_refl).
  unfold mbind at 1, M_bind at 1. rewrite H0.
  unfold mbind at 1, M_bind at 1. rewrite H1.
  unfold mbind at 1, M_bind at 1. rewrite H2.
  unfold mbind at 1, M_bind at 1. rewrite H3.
  destruct (l0_Encode _ _ 17 _) as [d|e]; [|done].
  unfold mbind at 1, M_bind at 1, lift. rewrite (index_ok _ _ _ Hm).
  unfold md_width. by destruct (l0_Encode _ m _ _).
Qed.

End Assemble.

(** ** Assembling and parsing the same blocks *)

Lemma with_parity_range b0 b1 b2 b3 :
  is_byte b0 → is_byte b1 → is_byte b2 → is_byte b3 →
  0 ≤ with_parity (block_value b0 b1 b2 b3) < 2 ^ 64.
Proof.
  intros H0 H1 H2 H3.
  pose proof (block_value_sum b0 b1 b2 b3 H0 H1 H2 H3) as Hsum.
  assert (Hv : 0 ≤ block_value b0 b1 b2 b3 < 2 ^ 32) by (unfold is_byte in *; lia).
  destruct (with_parity_spec _ Hv) as (p & -> & _). destruct p; cbn [Z.b2z]; lia.
Qed.

(** The parser gives back the block of the assembler, on both
    polarities. *)
Lemma data_block_roundtrip (flip : bool) b0 b1 b2 b3 :
  is_byte b0 → is_byte b1 → is_byte b2 → is_byte b3 →
  let nb := λ b, if flip then not8 b else b in
  data_block flip (with_parity (block_value (nb b0) (nb b1) (nb b2) (nb b3)))
    = Some [b0; b1; b2; b3].
Proof.
  intros H0 H1 H2 H3 nb.
  assert (N0 : is_byte (nb b0)) by (unfold is_byte, nb, not8 in *; destruct flip; lia).
  assert (N1 : is_byte (nb b1)) by (unfold is_byte, nb, not8 in *; destruct flip; lia).
  assert (N2 : is_byte (nb b2)) by (unfold is_byte, nb, not8 in *; destruct flip; lia).
  assert (N3 : is_byte (nb b3)) by (unfold is_byte, nb, not8 in *; destruct flip; lia).
  pose proof (block_value_sum _ _ _ _ N0 N1 N2 N3) as Hsum.
  set (v := block_value (nb b0) (nb b1) (nb b2) (nb b3)) in *.
  assert (Hv : 0 ≤ v < 2 ^ 32) by (unfold is_byte in *; lia).
  destruct (with_parity_spec v Hv) as (p & Hw & Heven & _).
  rewrite Hw, data_block_word by done. rewrite Heven. cbn [Z.eqb]. f_equal.
  subst nb. destruct flip; cbn beta iota in *.
  - rewrite <- (le_bytes_sum b0 b1 b2 b3 (2 ^ 32 - 1)) by done. f_equal.
    unfold not64. rewrite Hsum. unfold not8. lia.
  - rewrite <- (le_bytes_sum b0 b1 b2 b3 0) by done. f_equal. lia.
Qed.

Lemma span_step {Crit} (c : Codec Crit) (i : nat) :
  span c (Z.of_nat (S i)) = span c (Z.of_nat i) + 17 + md_width c (Z.of_nat i).
Proof.
  unfold span, md_width. rewrite Nat2Z.inj_succ.
  destruct (Z.geb_spec (Z.of_nat i) (blknum c - rsnum c)).
  - rewrite !Z.min_r, !Z.max_r by lia. lia.
  - rewrite !Z.min_l, !Z.max_l by lia. lia.
Qed.

Section Sequence.
Context {Crit O A : Type} `{!Oligo O, !Level0 O Crit} (repr : O → list A).
Hypothesis Hseq : sequence_laws repr.
Implicit Types c : Codec Crit.

Lemma Len_Append (o b : O) : Len (Append o b) = Len o + Len b.
Proof.
  rewrite !(repr_Len _ Hseq), (repr_Append _ Hseq), length_app. lia.
Qed.

Lemma Len_nonneg (o : O) : 0 ≤ Len o.
Proof. rewrite (repr_Len _ Hseq). lia. Qed.

(** The last four symbols of [o ++ b] are those of [b] when [b] has
    four. *)
Lemma last4_Append (o b : O) :
  4 ≤ Len b →
  Slice (Append o b) (Len (Append o b) - 4) (Len (Append o b))
  = Slice b (Len b - 4) (Len b).
Proof.
  intros Hb. pose proof (Len_nonneg o). apply (repr_inj _ Hseq).
  rewrite !(repr_Slice _ Hseq) by (rewrite ?Len_Append; lia).
  rewrite (repr_Append _ Hseq), Len_Append.
  rewrite drop_app_ge by (rewrite !(repr_Len _ Hseq) in *; lia).
  do 2 f_equal; rewrite !(repr_Len _ Hseq) in *; lia.
Qed.

Lemma last4_end (o : O) :
  4 ≤ Len o → Slice o (Len o - 4) 0 = Slice o (Len o - 4) (Len o).
Proof.
  intros Ho. apply (repr_inj _ Hseq).
  rewrite (repr_Slice _ Hseq o (Len o - 4) (Len o)) by lia.
  rewrite (repr_Slice_end _ Hseq) by lia.
  rewrite take_ge; [done|]. rewrite length_drop. rewrite !(repr_Len _ Hseq) in *. lia.
Qed.

(** One block of the stream: what the parser cuts out of a stream that
    starts with a data segment [d] and a metadata segment [mb], written
    behind [o]. *)
Lemma stream_step c (i : nat) (prefix sol o d mb : O) rest :
  0 ≤ md_width c (Z.of_nat i) → 4 ≤ Len o → Len d = 17 →
  Len mb = md_width c (Z.of_nat i) →
  (stream c i prefix sol).1 = Slice o (Len o - 4) (Len o) →
  repr (stream c i prefix sol).2 = repr d ++ repr mb ++ rest →
  17 ≤ Len (stream c i prefix sol).2 ∧
  Slice (stream c i prefix sol).2 0 17 = d ∧
  md_segment c prefix sol i = mb ∧
  Slice (stream c i prefix sol).2 13 17 = Slice (Append o d) (Len (Append o d) - 4) 0 ∧
  (stream c (S i) prefix sol).1
    = Slice (Append (Append o d) mb) (Len (Append (Append o d) mb) - 4)
            (Len (Append (Append o d) mb)) ∧
  repr (stream c (S i) prefix sol).2 = rest.
Proof.
  intros Hw Ho Hd Hmb Hpre Hol. unfold md_segment. cbn [stream fst snd].
  set (ol := (stream c i prefix sol).2) in *.
  set (w := md_width c (Z.of_nat i)) in *.
  assert (Hld : length (repr d) = 17%nat) by (rewrite (repr_Len _ Hseq) in Hd; lia).
  assert (Hlm : length (repr mb) = Z.to_nat w) by (rewrite (repr_Len _ Hseq) in Hmb; lia).
  assert (Hlen : Len ol = 17 + w + Z.of_nat (length rest)).
  { rewrite (repr_Len _ Hseq), Hol, !length_app. lia. }
  split_and!.
  - lia.
  - apply (repr_inj _ Hseq). rewrite (repr_Slice _ Hseq), Hol by lia.
    change (Z.to_nat (17 - 0)) with 17%nat. change (Z.to_nat 0) with 0%nat.
    by rewrite drop_0, take_app_length'.
  - apply (repr_inj _ Hseq). rewrite (repr_Slice _ Hseq), Hol by lia.
    change (Z.to_nat 17) with 17%nat. rewrite drop_app_length' by done.
    apply take_app_length'. lia.
  - rewrite last4_end by (rewrite Len_Append; lia).
    rewrite last4_Append by lia. apply (repr_inj _ Hseq).
    rewrite !(repr_Slice _ Hseq) by lia. rewrite Hol, Hd.
    change (Z.to_nat (17 - 13)) with 4%nat. change (Z.to_nat (17 - 4)) with 13%nat.
    change (Z.to_nat 13) with 13%nat.
    rewrite drop_app_le by lia. rewrite take_app_le by (rewrite length_drop; lia).
    done.
  - apply (repr_inj _ Hseq).
    assert (Hdm : Len (Append (Append o d) mb) = Len o + 17 + w).
    { rewrite !Len_Append. lia. }
    pose proof (Len_nonneg o).
    rewrite !(repr_Slice _ Hseq) by lia. rewrite Hol, Hdm.
    rewrite !(repr_Append _ Hseq), <- !app_assoc.
    rewrite (drop_app_ge (repr o)) by (rewrite (repr_Len _ Hseq) in *; lia).
    replace (Z.to_nat (Len o + 17 + w - 4) - length (repr o))%nat
      with (Z.to_nat (13 + w)) by (rewrite (repr_Len _ Hseq) in *; lia).
    rewrite !app_assoc. rewrite (drop_app_le (repr d ++ repr mb))
      by (rewrite length_app; lia).
    rewrite take_app_le by (rewrite length_drop, length_app; lia).
    f_equal. lia.
  - rewrite (repr_Slice_end _ Hseq), Hol by lia.
    rewrite app_assoc. apply drop_app_length'. rewrite length_app. lia.
Qed.


Hypothesis Hl0 : level0_laws (O := O) (Crit := Crit).

(** What the parser reads from a block the assembler has written. *)
Lemma block_parsed c flip (i : nat) (prefix sol o d mb : O) v m rest :
  3 ≤ mdsz c ≤ 5 → 0 ≤ v < 2 ^ 64 → 0 ≤ m < 2 ^ 64 → 4 ≤ Len o →
  l0_Encode (Slice o (Len o - 4) (Len o)) v 17 (crit c) = inl d →
  l0_Encode (Slice (Append o d) (Len (Append o d) - 4) 0) m
    (md_width c (Z.of_nat i)) (crit c) = inl mb →
  (stream c i prefix sol).1 = Slice o (Len o - 4) (Len o) →
  repr (stream c i prefix sol).2 = repr d ++ repr mb ++ rest →
  data_at c flip prefix sol i = data_block flip v ∧
  md_at c prefix sol i = Some m ∧
  (stream c (S i) prefix sol).1
    = Slice (Append (Append o d) mb) (Len (Append (Append o d) mb) - 4)
            (Len (Append (Append o d) mb)) ∧
  repr (stream c (S i) prefix sol).2 = rest ∧
  Len (Append (Append o d) mb) = Len o + 17 + md_width c (Z.of_nat i).
Proof.
  intros HM Hv Hm Ho Hd Hmb Hpre Hol.
  assert (Hw : 0 ≤ md_width c (Z.of_nat i)).
  { unfold md_width. case_match; lia. }
  destruct (Hl0 _ _ _ 17 _ Hv ltac:(lia) Hd) as [Hld Hdd].
  destruct (Hl0 _ _ _ _ _ Hm Hw Hmb) as [Hlm Hdm].
  destruct (stream_step c i prefix sol o d mb rest Hw Ho Hld Hlm Hpre Hol)
    as (Hlen & Hs1 & Hs2 & Hs3 & Hs4 & Hs5).
  split_and!; [| |done|done|].
  - unfold data_at, parse_data. destruct (Z.ltb_spec (Len (stream c i prefix sol).2) 17);
      [lia|]. by rewrite Hs1, Hpre, Hdd.
  - unfold md_at. rewrite Hs2, Hlm, Z.eqb_refl, Hs3. by rewrite Hdm.
  - rewrite !Len_Append. lia.
Qed.

(** The assembling loop over the blocks [i .. i+n-1] and the parser on
    what it has written. *)
Lemma assemble_parse c mdb data s (bs : list (list Z)) (n i : nat) (o o' : O) s' :
  3 ≤ mdsz c ≤ 5 →
  payload s data = Some <$> bs → Forall is_block bs → Forall is_byte mdb →
  (i + n ≤ length bs)%nat → (i + n ≤ length mdb)%nat → 4 ≤ Len o →
  forM_up n (Z.of_nat i) (encode_block c mdb data) o s = (s', Done (Next o')) →
  s' = s ∧
  ∃ rest,
    repr o' = repr o ++ rest ∧
    Len o' = Len o + (span c (Z.of_nat (i + n)) - span c (Z.of_nat i)) ∧
    4 ≤ Len o' ∧
    ∀ prefix sol tail,
      (stream c i prefix sol).1 = Slice o (Len o - 4) (Len o) →
      repr (stream c i prefix sol).2 = rest ++ tail →
      (∀ k b0 b1 b2 b3 flip, (i ≤ k < i + n)%nat → bs !! k = Some [b0; b1; b2; b3] →
         data_at c flip prefix sol k
         = data_block flip (with_parity (block_value b0 b1 b2 b3))) ∧
      (∀ k, (i ≤ k < i + n)%nat → md_at c prefix sol k = mdb !! k) ∧
      (stream c (i + n) prefix sol).1 = Slice o' (Len o' - 4) (Len o') ∧
      repr (stream c (i + n) prefix sol).2 = tail.
Proof.
  intros HM Hpay Hbs Hmdb. revert i o.
  induction n as [|n IH]; intros i o Hib Him Ho.
  - cbn [forM_up]. intros [= <- <-]. split; [done|]. exists [].
    rewrite Nat.add_0_r, app_nil_r. split_and!; [done | lia | done |].
    intros prefix sol tail Hpre Hol. split_and!; [intros; lia | intros; lia | done | done].
  - destruct (lookup_lt_is_Some_2 bs i) as [b Hb]; [lia|].
    destruct (lookup_lt_is_Some_2 mdb i) as [m Hm]; [lia|].
    destruct (Forall_lookup_1 _ _ _ _ Hbs Hb) as [Hlen Hbytes].
    destruct b as [|b0 [|b1 [|b2 [|b3 [|??]]]]]; try done.
    apply Forall_cons_1 in Hbytes as [H0 Hbytes].
    apply Forall_cons_1 in Hbytes as [H1 Hbytes].
    apply Forall_cons_1 in Hbytes as [H2 Hbytes].
    apply Forall_cons_1 in Hbytes as [H3 _].
    pose proof (with_parity_range b0 b1 b2 b3 H0 H1 H2 H3) as Hv.
    pose proof (Forall_lookup_1 _ _ _ _ Hmdb Hm) as Hmr. unfold is_byte in Hmr.
    cbn [forM_up]. unfold mbind at 1, M_bind at 1.
    rewrite (encode_block_eval c mdb data s i b0 b1 b2 b3 m o);
      [|by rewrite Hpay, list_lookup_fmap, Hb | done].
    destruct (l0_Encode (Slice o (Len o - 4) (Len o)) _ 17 _) as [d|e] eqn:Hd; [|done].
    destruct (l0_Encode (Slice (Append o d) _ 0) m _ _) as [mb|e] eqn:Hmb; [|done].
    replace (Z.of_nat i + 1) with (Z.of_nat (S i)) by lia. intros Hrun.
    assert (Hw : 0 ≤ md_width c (Z.of_nat i)) by (unfold md_width; case_match; lia).
    assert (Hlen2 : Len (Append (Append o d) mb) = Len o + 17 + md_width c (Z.of_nat i)).
    { destruct (Hl0 _ _ _ 17 _ Hv ltac:(lia) Hd) as [Hld _].
      destruct (Hl0 _ _ m _ _ ltac:(lia) Hw Hmb) as [Hlm _].
      rewrite !Len_Append. lia. }
    destruct (IH (S i) (Append (Append o d) mb)) as (-> & rest & Hrest & Hlen' & Ho' & Hsim);
      [lia | lia | lia | done |].
    split; [done|]. exists (repr d ++ repr mb ++ rest). split_and!.
    + rewrite Hrest, !(repr_Append _ Hseq), <- !app_assoc. done.
    + rewrite Hlen', Hlen2. replace (i + S n)%nat with (S i + n)%nat by lia.
      rewrite (span_step c i). lia.
    + done.
    + intros prefix sol tail Hpre Hol. rewrite <- !app_assoc in Hol.
      destruct (block_parsed c false i prefix sol o d mb _ m (rest ++ tail)
                  HM Hv ltac:(lia) Ho Hd Hmb Hpre Hol) as (_ & Hmd & Hnext1 & Hnext2 & _).
      destruct (Hsim prefix sol tail Hnext1 Hnext2) as (Hdat & Hmdat & Hend1 & Hend2).
      replace (i + S n)%nat with (S i + n)%nat by lia.
      split_and!; [| |done|done].
      * intros k c0 c1 c2 c3 flip Hk Hbk. destruct (decide (k = i)) as [-> | Hki].
        -- rewrite Hb in Hbk. injection Hbk as <- <- <- <-.
           by destruct (block_parsed c flip i prefix sol o d mb _ m (rest ++ tail)
                          HM Hv ltac:(lia) Ho Hd Hmb Hpre Hol) as (-> & _).
        -- apply Hdat; [lia | done].
      * intros k Hk. destruct (decide (k = i)) as [-> | Hki]; [by rewrite Hmd, Hm|].
        apply Hmdat. lia.
Qed.

End Sequence.

(** ** What [encode] does with a well-formed payload *)

Section Encode.
Context {Crit O : Type} `{!Oligo O, !Level0 O Crit}.
Implicit Types c : Codec Crit.

(** The assembling loop returns: it goes through, or leaves with an
    error of the level-0 codec. *)
Lemma assemble_total c mdb data s (bs : list (list Z)) (n i : nat) (o : O) :
  payload s data = Some <$> bs → Forall is_block bs →
  (i + n ≤ length bs)%nat → (i + n ≤ length mdb)%nat →
  ∃ f, forM_up n (Z.of_nat i) (encode_block c mdb data) o s = (s, Done f) ∧
       ∀ r, f = Return r → ∃ e, r = (None, Some e).
Proof.
  intros Hpay Hbs. revert i o. induction n as [|n IH]; intros i o Hib Him.
  - exists (Next o). by split.
  - destruct (lookup_lt_is_Some_2 bs i) as [b Hb]; [lia|].
    destruct (lookup_lt_is_Some_2 mdb i) as [m Hm]; [lia|].
    destruct (Forall_lookup_1 _ _ _ _ Hbs Hb) as [Hlen _].
    destruct b as [|b0 [|b1 [|b2 [|b3 [|??]]]]]; try done.
    cbn [forM_up]. unfold mbind at 1, M_bind at 1.
    rewrite (encode_block_eval c mdb data s i b0 b1 b2 b3 m o);
      [|by rewrite Hpay, list_lookup_fmap, Hb | done].
    destruct (l0_Encode (Slice o (Len o - 4) (Len o)) _ 17 _) as [d|e].
    + destruct (l0_Encode (Slice (Append o d) _ 0) m _ _) as [mb|e].
      * replace (Z.of_nat i + 1) with (Z.of_nat (S i)) by lia. apply IH; lia.
      * eexists. split; [done|]. intros r [= <-]. by eexists.
    + eexists. split; [done|]. intros r [= <-]. by eexists.
Qed.

Lemma address_digits c a maxaddr :
  3 ≤ mdsz c ≤ 5 → MaxAddr c = Done maxaddr → 0 ≤ a < maxaddr →
  0 < blknum c - rsnum c.
Proof.
  intros Hm Hmax Ha. rewrite (MaxAddr_eq c Hm) in Hmax. injection Hmax as <-.
  destruct (decide (0 < blknum c - rsnum c)) as [|Hn]; [done|].
  unfold mdnum in Ha. replace (Z.to_nat (blknum c - rsnum c)) with 0%nat in Ha by lia.
  change (Z.of_nat 0) with 0 in Ha. rewrite Z.pow_0_r in Ha.
  change (wrap64 1 / 4) with 0 in Ha. lia.
Qed.

Lemma complement_blocks (sf : bool) (bs : list (list Z)) :
  Forall is_block bs →
  Forall is_block ((λ b : list Z, (λ x, if sf then not8 x else x) <$> b) <$> bs).
Proof.
  intros Hbs. apply Forall_fmap. eapply Forall_impl; [|exact Hbs].
  intros b [Hlen Hb]. split; [by rewrite length_fmap|].
  apply Forall_fmap. eapply Forall_impl; [|exact Hb].
  intros x. unfold is_byte, not8. cbn. destruct sf; lia.
Qed.

(** [encode] on an address below [MaxAddr] and a payload of [B] blocks
    of four bytes: the checks pass, the packer returns its digits, and
    what is left is the assembling loop over the payload, complemented
    when [sf] is set. *)
Lemma encode_run c (p5 p3 : O) a ef sf data s maxaddr (bs : list (list Z)) :
  counts_ok c → mdsz c = 3 ∨ mdsz c = 4 → encoder_contract c → verify_contract c →
  MaxAddr c = Done maxaddr → 0 ≤ a < maxaddr →
  payload s data = Some <$> bs → Forall is_block bs →
  length bs = Z.to_nat (blknum c) → 4 ≤ Len p5 →
  ∃ mdb s1 data1 f,
    length mdb = Z.to_nat (blknum c) ∧ Forall is_byte mdb ∧
    ec_Verify (ec c) ((λ m, [to_byte m]) <$> mdb) = (true, None) ∧
    unpack c mdb = Done (a, ef, sf) ∧
    calls s1 = calls s ∧ (sf = false → s1 = s) ∧
    payload s1 data1
      = Some <$> ((λ b : list Z, (λ x, if sf then not8 x else x) <$> b) <$> bs) ∧
    forM_up (Z.to_nat (blknum c)) 0 (encode_block c mdb data1) (Copy p5) s1
      = (s1, Done f) ∧
    (∀ r, f = Return r → ∃ e, r = (None, Some e)) ∧
    encode c p5 p3 a ef sf data s =
      (s1, Done match f with
                | Next o => (Some (Append o p3), None)
                | Return r => r
                end).
Proof.
  intros Hcnt HM Henc Hver Hmax Ha Hpay Hbs Hlen Hp5.
  pose proof Hcnt as [HR HB].
  pose proof (address_digits c a maxaddr ltac:(lia) Hmax Ha) as Hdig.
  assert (Hne : bs ≠ []).
  { intros ->. cbn in Hlen. lia. }
  destruct (pack_spec c a ef sf maxaddr Hcnt HM Henc Hver Hmax Ha)
    as (mdb & Hpack & Hmlen & Hmbytes & Hmver & Hunpack).
  assert (Hneg : ∃ s1 data1,
            (if sf then negate data else mret data) s = (s1, Done data1) ∧
            calls s1 = calls s ∧ (sf = false → s1 = s) ∧
            payload s1 data1
            = Some <$> ((λ b : list Z, (λ x, if sf then not8 x else x) <$> b) <$> bs)).
  { destruct sf.
    - destruct (negate_spec s data bs Hpay Hne) as (s1 & d & Hrun & Hcalls & Hpay1).
      by exists s1, d.
    - exists s, data. split_and!; [done | done | done |]. rewrite Hpay. f_equal.
      rewrite <- (list_fmap_id bs) at 1. apply list_fmap_ext. intros _ b _.
      by rewrite list_fmap_id. }
  destruct Hneg as (s1 & data1 & Hneg & Hcalls & Hsame & Hpay1).
  destruct (assemble_total c mdb data1 s1 _ (Z.to_nat (blknum c)) 0 (Copy p5) Hpay1)
    as (f & Hloop & Hret).
  { by apply complement_blocks. }
  { rewrite !length_fmap. lia. }
  { lia. }
  change (Z.of_nat 0) with 0 in Hloop.
  exists mdb, s1, data1, f. split_and!; try done.
  destruct (payload_vec s data bs Hpay Hne) as (l & es & -> & Hes & Hles).
  unfold encode.
  unfold mbind at 1, M_bind at 1. rewrite (vec_len_eval _ _ _ Hes).
  unfold BlockNum. destruct (Z.eqb_spec (Z.of_nat (length es)) (blknum c)) as [Hn|Hn];
    [|lia]. cbn [negb].
  unfold mbind at 1, M_bind at 1.
  pose proof (check_size_pass (O := O) c (Some l) bs s (length es) 0 Hpay Hbs ltac:(lia))
    as Hchk.
  change (Z.of_nat 0) with 0 in Hchk. rewrite Nat2Z.id, Hchk.
  destruct (Z.ltb_spec (Len p5) 4); [lia|].
  unfold mbind at 1, M_bind at 1, lift at 1. rewrite Hpack.
  unfold mbind at 1, M_bind at 1. rewrite Hneg.
  unfold mbind at 1, M_bind at 1. rewrite Hloop.
  by destruct f.
Qed.

End Encode.

(** ** Decoding what [encode] has assembled *)

Section Assembled.
Context {Crit O A : Type} `{!Oligo O, !Level0 O Crit, !Recovery O Crit} (repr : O → list A).
Hypothesis Hseq : sequence_laws repr.
Hypothesis Hl0 : level0_laws (O := O) (Crit := Crit).
Implicit Types c : Codec Crit.

Lemma Len_Copy (o : O) : Len (Copy o) = Len o.
Proof. by rewrite !(repr_Len _ Hseq), (repr_Copy _ Hseq). Qed.

Lemma primers_found_match (p5 p3 o1 : O) :
  primers_found p5 p3 (Append o1 p3) → primers_match p5 p3 (Append o1 p3).
Proof.
  intros [H5 H3]. unfold primers_match. rewrite H5, H3. cbn [fst snd].
  pose proof (Len_nonneg repr Hseq o1). rewrite (Len_Append repr Hseq).
  split_and!; lia.
Qed.

(** The oligo that the assembling loop leaves behind the copy of the 5'
    primer, closed with the 3' primer: its length, and what [decode]
    makes of it on either polarity. *)
Lemma decode_assembled c (p5 p3 o1 : O) mdb data1 s1 (nbs : list (list Z)) a ef sf :
  counts_ok c → 3 ≤ mdsz c ≤ 5 →
  length mdb = Z.to_nat (blknum c) → Forall is_byte mdb →
  ec_Verify (ec c) ((λ m, [to_byte m]) <$> mdb) = (true, None) →
  unpack c mdb = Done (a, ef, sf) →
  payload s1 data1 = Some <$> nbs → Forall is_block nbs →
  length nbs = Z.to_nat (blknum c) → 4 ≤ Len p5 →
  forM_up (Z.to_nat (blknum c)) 0 (encode_block c mdb data1) (Copy p5) s1
    = (s1, Done (Next o1)) →
  Len (Append o1 p3) = Len p5 + span c (blknum c) + Len p3 ∧
  (primers_found p5 p3 (Append o1 p3) →
   ∀ flip recover, ∃ data,
     decode c p5 p3 (Append o1 p3) flip recover = Done (a, ef, sf, data, None) ∧
     length data = Z.to_nat (blknum c) ∧
     ∀ k b0 b1 b2 b3, nbs !! k = Some [b0; b1; b2; b3] →
       data !! k = Some (data_block flip (with_parity (block_value b0 b1 b2 b3)))).
Proof.
  intros Hcnt HM Hmlen Hmbytes Hmver Hunpack Hpay Hbs Hlen Hp5 Hloop.
  pose proof Hcnt as [HR HB].
  change 0 with (Z.of_nat 0) in Hloop at 1.
  destruct (assemble_parse repr Hseq Hl0 c mdb data1 s1 nbs (Z.to_nat (blknum c)) 0
              (Copy p5) o1 s1 HM Hpay Hbs Hmbytes)
    as (_ & rest & Hrest & Hlen1 & Ho1 & Hsim); [lia | lia | by rewrite Len_Copy | done |].
  cbn [Nat.add] in Hlen1. rewrite Z2Nat.id in Hlen1 by lia.
  change (span c (Z.of_nat 0)) with (17 * 0 + mdsz c * Z.min 0 (blknum c - rsnum c)
    + 5 * Z.max 0 (0 - (blknum c - rsnum c))) in Hlen1.
  rewrite Z.min_l, Z.max_l in Hlen1 by lia. rewrite Len_Copy in Hlen1.
  split; [rewrite (Len_Append repr Hseq); lia|].
  intros Hfound flip recover.
  pose proof (primers_found_match p5 p3 o1 Hfound) as Hmatch.
  destruct Hfound as [H5 H3].
  rewrite decode_matched by done.
  set (o := Append o1 p3) in *.
  assert (Hlo1 : Len o1 = Len p5 + Z.of_nat (length rest)).
  { rewrite (repr_Len _ Hseq o1), Hrest, length_app, (repr_Copy _ Hseq).
    rewrite (repr_Len _ Hseq p5). lia. }
  assert (Hlo : Len o = Len o1 + Len p3) by apply (Len_Append repr Hseq).
  assert (Hbody : repr (body p5 p3 o) = rest ++ []).
  { unfold body. rewrite H5, H3. cbn [fst snd].
    pose proof (Len_nonneg repr Hseq p3).
    rewrite (repr_Slice _ Hseq) by lia.
    subst o. rewrite (repr_Append _ Hseq), Hrest, (repr_Copy _ Hseq), <- app_assoc.
    rewrite drop_app_length' by (rewrite (repr_Len _ Hseq) in *; lia).
    rewrite app_nil_r. apply take_app_length'. lia. }
  assert (Hpre : (stream c 0 (primer_prefix p5) (body p5 p3 o)).1
                 = Slice (Copy p5) (Len (Copy p5) - 4) (Len (Copy p5))).
  { cbn [stream fst]. unfold primer_prefix. apply (repr_inj _ Hseq).
    rewrite !(repr_Slice _ Hseq) by (rewrite ?Len_Copy; lia).
    by rewrite Len_Copy, (repr_Copy _ Hseq). }
  destruct (Hsim (primer_prefix p5) (body p5 p3 o) [] Hpre Hbody)
    as (Hdat & Hmdat & _ & _).
  destruct (parse_blocks_spec c flip (primer_prefix p5) (body p5 p3 o) ltac:(lia))
    as (p & -> & (_ & Hdl & Hdata & Hok & Hmd) & Hml).
  cbn [mbind run_bind].
  assert (Hmdblk : p_mdblk p = mdb).
  { apply list_eq. intros k. destruct (decide (k < Z.to_nat (blknum c))%nat) as [Hk|Hk].
    - destruct (lookup_lt_is_Some_2 mdb k) as [m Hm]; [lia|].
      rewrite Hm. apply Hmd; [done|]. rewrite Hmdat by lia. done.
    - rewrite !lookup_ge_None_2 by lia. done. }
  assert (Hmdok : p_mdok p = true).
  { apply Hok. intros k Hk. rewrite Hmdat by lia. apply lookup_lt_is_Some_2. lia. }
  assert (Hver : verified c p = true).
  { unfold verified. by rewrite Hmdok, Hmdblk, Hmver. }
  rewrite validate_verified by done. unfold resolve. rewrite Hmdblk, Hunpack.
  cbn [mbind run_bind]. exists (p_data p). split_and!; [done | done |].
  intros k b0 b1 b2 b3 Hk.
  assert (Hkl : (k < Z.to_nat (blknum c))%nat).
  { rewrite <- Hlen. by eapply lookup_lt_Some. }
  rewrite Hdata by done. f_equal. apply Hdat; [lia | done].
Qed.

End Assembled.

Section Roundtrips.
Context {Crit O A : Type} `{!Oligo O, !Level0 O Crit, !Recovery O Crit} (repr : O → list A).
Hypothesis Hseq : sequence_laws repr.
Hypothesis Hl0 : level0_laws (O := O) (Crit := Crit).
Implicit Types c : Codec Crit.

(** [encode] followed by [decode], on either polarity. *)
Lemma encode_decode c (p5 p3 o : O) a ef sf data s maxaddr (bs : list (list Z)) :
  counts_ok c → mdsz c = 3 ∨ mdsz c = 4 → encoder_contract c → verify_contract c →
  MaxAddr c = Done maxaddr → 0 ≤ a < maxaddr →
  payload s data = Some <$> bs → Forall is_block bs →
  length bs = Z.to_nat (blknum c) → 4 ≤ Len p5 →
  (encode c p5 p3 a ef sf data s).2 = Done (Some o, None) →
  Len o = Len p5 + span c (blknum c) + Len p3 ∧
  (primers_found p5 p3 o →
   ∀ flip recover, ∃ data',
     decode c p5 p3 o flip recover = Done (a, ef, sf, data', None) ∧
     (flip = sf → data' = Some <$> bs)).
Proof.
  intros Hcnt HM Henc Hver Hmax Ha Hpay Hbs Hlen Hp5 Hrun.
  destruct (encode_run c p5 p3 a ef sf data s maxaddr bs Hcnt HM Henc Hver Hmax Ha
              Hpay Hbs Hlen Hp5)
    as (mdb & s1 & data1 & f & Hmlen & Hmbytes & Hmver & Hunpack & _ & _ & Hpay1
        & Hloop & Hret & Heq).
  rewrite Heq in Hrun. cbn [snd] in Hrun.
  destruct f as [o1|r]; [|by destruct (Hret r eq_refl) as [e ->]].
  injection Hrun as <-.
  destruct (decode_assembled repr Hseq Hl0 c p5 p3 o1 mdb data1 s1 _ a ef sf Hcnt
              ltac:(lia) Hmlen Hmbytes Hmver Hunpack Hpay1) as [HL Hdec];
    [by apply complement_blocks | by rewrite length_fmap | done | done |].
  split; [done|]. intros Hfound flip recover.
  destruct (Hdec Hfound flip recover) as (data' & Hd & Hdl & Hdk).
  exists data'. split; [done|]. intros ->.
  apply list_eq. intros k. rewrite list_lookup_fmap.
  destruct (bs !! k) as [b|] eqn:Hb.
  - destruct (Forall_lookup_1 _ _ _ _ Hbs Hb) as [Hbl Hbb].
    destruct b as [|b0 [|b1 [|b2 [|b3 [|??]]]]]; try done.
    apply Forall_cons_1 in Hbb as [H0 Hbb]. apply Forall_cons_1 in Hbb as [H1 Hbb].
    apply Forall_cons_1 in Hbb as [H2 Hbb]. apply Forall_cons_1 in Hbb as [H3 _].
    rewrite (Hdk k _ _ _ _ ltac:(by rewrite list_lookup_fmap, Hb)).
    cbn. f_equal. by apply (data_block_roundtrip sf).
  - cbn. apply lookup_ge_None_2. apply lookup_ge_None_1 in Hb. lia.
Qed.

End Roundtrips.

(** X5.  With an oligo type that behaves as a sequence, a level-0
    codec that decodes what it encodes, and an erasure coder that
    verifies what it encodes: when [encode] returns an oligo for an
    address below [MaxAddr] and a payload of [B] blocks of four bytes
    (width 3 or 4), and the primers are found where they were put, then
    [decode] on the polarity [sf] of the encoding returns the address,
    [ef], [sf] and exactly the payload, without error; on the other
    polarity it still returns the address and both flags. *)
Theorem encode_decode_roundtrip {Crit O A : Type}
    `{!Oligo O, !Level0 O Crit, !Recovery O Crit} (repr : O → list A)
    (c : Codec Crit) (p5 p3 o : O) a ef sf data s maxaddr (bs : list (list Z)) :
  sequence_laws repr → level0_laws (O := O) (Crit := Crit) →
  counts_ok c → mdsz c = 3 ∨ mdsz c = 4 → encoder_contract c → verify_contract c →
  MaxAddr c = Done maxaddr → 0 ≤ a < maxaddr →
  payload s data = Some <$> bs → Forall is_block bs →
  length bs = Z.to_nat (blknum c) → 4 ≤ Len p5 →
  (encode c p5 p3 a ef sf data s).2 = Done (Some o, None) →
  primers_found p5 p3 o →
  ∀ recover,
    decode c p5 p3 o sf recover = Done (a, ef, sf, Some <$> bs, None) ∧
    ∃ data', decode c p5 p3 o (negb sf) recover = Done (a, ef, sf, data', None).
Proof.
  intros Hseq Hl0 Hcnt HM Henc Hver Hmax Ha Hpay Hbs Hlen Hp5 Hrun Hfound recover.
  destruct (encode_decode repr Hseq Hl0 c p5 p3 o a ef sf data s maxaddr bs
              Hcnt HM Henc Hver Hmax Ha Hpay Hbs Hlen Hp5 Hrun) as [_ Hdec].
  split.
  - destruct (Hdec Hfound sf recover) as (data' & Hd & Hdata). by rewrite Hd, Hdata.
  - destruct (Hdec Hfound (negb sf) recover) as (data' & Hd & _). by exists data'.
Qed.

(** X6.  Under the same conditions on the collaborators, what [Encode]
    returns without error, [Decode] gives back: the address, [ef] and
    exactly the payload, whether [Encode] has kept the first oligo or the
    one of the complemented payload. *)
Theorem Encode_Decode_roundtrip {Crit O A : Type}
    `{!Oligo O, !Level0 O Crit, !Recovery O Crit} (repr : O → list A)
    (c : Codec Crit) (p5 p3 o : O) a ef data s maxaddr (bs : list (list Z)) :
  sequence_laws repr → level0_laws (O := O) (Crit := Crit) →
  counts_ok c → mdsz c = 3 ∨ mdsz c = 4 → encoder_contract c → verify_contract c →
  MaxAddr c = Done maxaddr → 0 ≤ a < maxaddr →
  payload s data = Some <$> bs → Forall is_block bs →
  length bs = Z.to_nat (blknum c) → 4 ≤ Len p5 →
  (Encode c p5 p3 a ef data s).2 = Done (Some o, None) →
  primers_found p5 p3 o →
  ∀ recover t,
    (Decode c p5 p3 o recover t).2 = Done (a, ef, Some <$> bs, None).
Proof.
  intros Hseq Hl0 Hcnt HM Henc Hver Hmax Ha Hpay Hbs Hlen Hp5 Hrun Hfound recover t.
  rewrite Encode_run in Hrun. cbv zeta in Hrun.
  set (s0 := logged (Call_encode false) s) in *.
  assert (Hpay0 : payload s0 data = Some <$> bs) by exact Hpay.
  destruct (encode_run c p5 p3 a ef false data s0 maxaddr bs Hcnt HM Henc Hver Hmax Ha
              Hpay0 Hbs Hlen Hp5)
    as (_ & s1 & _ & f & _ & _ & _ & _ & _ & Hs1 & _ & _ & Hret & Heq).
  rewrite (Hs1 eq_refl) in Heq. clear Hs1.
  pose proof (encode_decode repr Hseq Hl0 c p5 p3) as Hrt.
  assert (Hfirst : ∀ o1, (encode c p5 p3 a ef false data s0).2 = Done (Some o1, None) →
            primers_found p5 p3 o1 → ∀ recover t,
            (Decode c p5 p3 o1 recover t).2 = Done (a, ef, Some <$> bs, None)).
  { intros o1 Ho1 Hf1 rec t'.
    destruct (Hrt o1 a ef false data s0 maxaddr bs Hcnt HM Henc Hver Hmax Ha
                Hpay0 Hbs Hlen Hp5 Ho1) as [_ Hdec].
    destruct (Hdec Hf1 false rec) as (d & Hd & Hdata).
    rewrite Decode_run. cbv zeta. rewrite Hd. cbn [snd result mbind run_bind].
    by rewrite Hdata. }
  rewrite Heq in Hrun, Hfirst. cbn [fst snd] in Hrun, Hfirst.
  destruct f as [o1|r]; [|destruct (Hret r eq_refl) as [e ->]; done].
  destruct (high_gc (GCcontent (Append o1 p3))).
  - set (s2 := logged (Call_encode true) s0) in *.
    assert (Hpay2 : payload s2 data = Some <$> bs) by exact Hpay.
    destruct (encode c p5 p3 a ef true data s2) as [s3 r2] eqn:Hsecond.
    cbn [fst snd] in Hrun.
    destruct r2 as [[[o2|] [e|]]|p]; try done.
    destruct (high_gc (GCcontent o2)); [done|]. cbn [snd] in Hrun.
    injection Hrun as ->.
    destruct (Hrt o a ef true data s2 maxaddr bs Hcnt HM Henc Hver Hmax Ha
                Hpay2 Hbs Hlen Hp5 ltac:(by rewrite Hsecond)) as [_ Hdec].
    destruct (Hdec Hfound false recover) as (d1 & Hd1 & _).
    destruct (Hdec Hfound true recover) as (d2 & Hd2 & Hdata).
    rewrite Decode_run. cbv zeta. rewrite Hd1, Hd2. cbn [snd result mbind run_bind].
    by rewrite Hdata.
  - cbn [snd] in Hrun. injection Hrun as <-. by apply Hfirst.
Qed.

(** X7.  For a codec as [NewCodec] builds it and under the same
    conditions on the collaborators, every oligo that [encode] returns
    has the length of the two primers plus [OligoLen]. *)
Theorem encode_length {Crit O A : Type}
    `{!ReedSolomon, !Oligo O, !Level0 O Crit} (repr : O → list A)
    (c : Codec Crit) (p5 p3 o : O) a ef sf data s maxaddr (bs : list (list Z)) :
  sequence_laws repr → level0_laws (O := O) (Crit := Crit) →
  NewCodec (blknum c) (mdsz c) (rsnum c) (crit c) = Done (Some c) →
  counts_ok c → mdsz c = 3 ∨ mdsz c = 4 → encoder_contract c → verify_contract c →
  MaxAddr c = Done maxaddr → 0 ≤ a < maxaddr →
  payload s data = Some <$> bs → Forall is_block bs →
  length bs = Z.to_nat (blknum c) → 4 ≤ Len p5 →
  (encode c p5 p3 a ef sf data s).2 = Done (Some o, None) →
  Len o = Len p5 + OligoLen c + Len p3.
Proof.
  intros Hseq Hl0 Hnew Hcnt HM Henc Hver Hmax Ha Hpay Hbs Hlen Hp5 Hrun.
  destruct (encode_run c p5 p3 a ef sf data s maxaddr bs Hcnt HM Henc Hver Hmax Ha
              Hpay Hbs Hlen Hp5)
    as (mdb & s1 & data1 & f & Hmlen & Hmbytes & _ & _ & _ & _ & Hpay1
        & Hloop & Hret & Heq).
  rewrite Heq in Hrun. cbn [snd] in Hrun.
  destruct f as [o1|r]; [|by destruct (Hret r eq_refl) as [e ->]].
  injection Hrun as <-.
  pose proof Hcnt as [HR HB].
  change 0 with (Z.of_nat 0) in Hloop at 1.
  destruct (assemble_parse repr Hseq Hl0 c mdb data1 s1 _ (Z.to_nat (blknum c)) 0
              (Copy p5) o1 s1 ltac:(lia) Hpay1 (complement_blocks sf bs Hbs) Hmbytes)
    as (_ & rest & _ & Hlen1 & _ & _).
  { rewrite !length_fmap. lia. }
  { lia. }
  { rewrite !(repr_Len _ Hseq), (repr_Copy _ Hseq), <- (repr_Len _ Hseq). done. }
  { done. }
  rewrite (Len_Append repr Hseq), Hlen1.
  rewrite !(repr_Len _ Hseq (Copy p5)), (repr_Copy _ Hseq), <- (repr_Len _ Hseq).
  cbn [Nat.add]. rewrite Z2Nat.id by lia.
  assert (Holen : olen c = blknum c * 17 + mdsz c * (blknum c - rsnum c) + 5 * rsnum c).
  { unfold NewCodec in Hnew. destruct (_ || _); [done|].
    destruct (reedsolomon_New _ _); [|done]. injection Hnew as Hc.
    rewrite <- Hc at 1. done. }
  unfold OligoLen. rewrite Holen. unfold span. change (Z.of_nat 0) with 0.
  rewrite (Z.min_r (blknum c)), (Z.max_r 0 (blknum c - _)), Z.min_l, Z.max_l by lia.
  lia.
Qed.

(** X8.  For an address below [MaxAddr], a width of 3 or 4, a payload
    of [B] blocks of four bytes, a 5' primer of four symbols or more and
    a lawful erasure coder, [encode] raises no fault: it returns an oligo
    and no error, or an error and no oligo.  It leaves the call trace as
    it is and, when [sf] is clear, the whole memory. *)
Theorem encode_returns {Crit O : Type} `{!Oligo O, !Level0 O Crit}
    (c : Codec Crit) (p5 p3 : O) a ef sf data s maxaddr (bs : list (list Z)) :
  counts_ok c → mdsz c = 3 ∨ mdsz c = 4 → encoder_contract c → verify_contract c →
  MaxAddr c = Done maxaddr → 0 ≤ a < maxaddr →
  payload s data = Some <$> bs → Forall is_block bs →
  length bs = Z.to_nat (blknum c) → 4 ≤ Len p5 →
  ∃ s' o err,
    encode c p5 p3 a ef sf data s = (s', Done (o, err)) ∧
    (is_Some o ↔ err = None) ∧
    calls s' = calls s ∧ (sf = false → s' = s).
Proof.
  intros Hcnt HM Henc Hver Hmax Ha Hpay Hbs Hlen Hp5.
  destruct (encode_run c p5 p3 a ef sf data s maxaddr bs Hcnt HM Henc Hver Hmax Ha
              Hpay Hbs Hlen Hp5)
    as (mdb & s1 & data1 & f & _ & _ & _ & _ & Hcalls & Hsame & _ & _ & Hret & Heq).
  destruct f as [o1|r].
  - exists s1, (Some (Append o1 p3)), None. split_and!; [done | | done | done].
    split; [done | by eexists].
  - destruct (Hret r eq_refl) as [e ->]. exists s1, None, (Some e).
    split_and!; [done | | done | done]. split; [by intros [? [=]] | done].
Qed.

(** ** The reference collaborators keep the laws *)

Lemma list_sequence_laws : sequence_laws (O := list nt) (λ o, o).
Proof.
  split.
  - done.
  - done.
  - done.
  - done.
  - intros o from to Hf Ht. cbn in *. unfold list_Slice.
    destruct (Z.leb_spec to 0); [lia|].
    rewrite Z.min_l, Z.max_r by lia. done.
  - intros o from Hf. cbn in *. unfold list_Slice. cbn [Z.leb Z.compare].
    rewrite Z.max_r by lia. apply take_ge. rewrite length_drop. lia.
Qed.

Lemma value4_digits4 (w : nat) v :
  0 ≤ v < 4 ^ Z.of_nat w → value4 (digits4 w v) = v.
Proof.
  revert v. induction w as [|w IH]; intros v Hv.
  - cbn in *. lia.
  - rewrite Nat2Z.inj_succ, Z.pow_succ_r in Hv by lia.
    cbn [digits4 value4 foldr]. fold (value4 (digits4 w (v / 4))).
    rewrite IH by (Z.div_mod_to_equations; lia).
    assert (Hd : Z_of_nt (nt_of_Z (v mod 4)) = v mod 4).
    { assert (Hr : 0 ≤ v mod 4 < 4) by (apply Z.mod_pos_bound; lia).
      unfold nt_of_Z.
      destruct (Z.eqb_spec (v mod 4) 0) as [->|]; [done|].
      destruct (Z.eqb_spec (v mod 4) 1) as [->|]; [done|].
      destruct (Z.eqb_spec (v mod 4) 2) as [->|]; [done|]. cbn. lia. }
    rewrite Hd. Z.div_mod_to_equations. lia.
Qed.

Lemma base4_level0_laws : level0_laws (O := list nt) (Crit := unit).
Proof.
  intros prefix b v n crit Hv Hn. cbn.
  destruct (Z.ltb_spec v (4 ^ n)); [|done]. intros [= <-]. split.
  - cbn. assert (Hl : ∀ w u, length (digits4 w u) = w).
    { intros w. induction w as [|w IH]; intros u; [done|]. cbn. by rewrite IH. }
    rewrite Hl. lia.
  - f_equal. apply value4_digits4. rewrite Z2Nat.id by lia. lia.
Qed.

Lemma sum_verify_contract {Crit} (c : Codec Crit) :
  counts_ok c → ec c = sum_encoder (blknum c - rsnum c) (rsnum c) → verify_contract c.
Proof.
  intros [HR HB] Hec shards shards' Hlen Hbytes. rewrite Hec. cbn.
  intros [= <-].
  set (d := Z.to_nat (blknum c - rsnum c)).
  assert (Hd : length (take d shards) = d) by (rewrite length_take; lia).
  split.
  - apply Forall_app. split; [by apply Forall_take|].
    apply Forall_replicate. constructor; [|done].
    unfold is_byte, sum_bytes. destruct (take d shards); cbn; [lia|].
    apply Z.mod_pos_bound. lia.
  - rewrite take_app_length', drop_app_length' by done.
    by rewrite bool_decide_eq_true_2.
Qed.

(** ** Instances of the round trip *)

(** An instance of [encode_decode_roundtrip]: B = 3, R = 1, M = 4,
    address 100, the payload of [mem_flip] encoded with [sf] set. *)
Lemma encode_decode_roundtrip_witness :
  decode codec314 primer5 primer3 oligo314 true false
    = Done (100, false, true,
            Some <$> [[85; 85; 85; 149]; [149; 149; 149; 149]; [149; 149; 149; 149]],
            None) ∧
  ∃ data', decode codec314 primer5 primer3 oligo314 (negb true) false
           = Done (100, false, true, data', None).
Proof.
  apply (encode_decode_roundtrip (λ o, o) codec314 primer5 primer3 oligo314 100 false
           true (Some 0%nat) mem_flip 8649
           [[85; 85; 85; 149]; [149; 149; 149; 149]; [149; 149; 149; 149]]).
  - apply list_sequence_laws.
  - apply base4_level0_laws.
  - split; cbn; lia.
  - right. reflexivity.
  - apply sum_encoder_contract; [split; cbn; lia | reflexivity].
  - apply sum_verify_contract; [split; cbn; lia | reflexivity].
  - reflexivity.
  - lia.
  - reflexivity.
  - unfold is_block, is_byte.
    repeat first [apply Forall_nil_2 | apply Forall_cons_2 | split]; (reflexivity || lia).
  - reflexivity.
  - cbn. lia.
  - by vm_compute.
  - split; by vm_compute.
Defined.

(** An instance of [Encode_Decode_roundtrip]: the same payload through
    [Encode], which keeps the oligo of its second run, and [Decode], which
    decodes twice. *)
Lemma Encode_Decode_roundtrip_witness :
  (Decode codec314 primer5 primer3 oligo314 false mem_flip).2
  = Done (100, false,
          Some <$> [[85; 85; 85; 149]; [149; 149; 149; 149]; [149; 149; 149; 149]],
          None).
Proof.
  apply (Encode_Decode_roundtrip (λ o, o) codec314 primer5 primer3 oligo314 100 false
           (Some 0%nat) mem_flip 8649
           [[85; 85; 85; 149]; [149; 149; 149; 149]; [149; 149; 149; 149]]).
  - apply list_sequence_laws.
  - apply base4_level0_laws.
  - split; cbn; lia.
  - right. reflexivity.
  - apply sum_encoder_contract; [split; cbn; lia | reflexivity].
  - apply sum_verify_contract; [split; cbn; lia | reflexivity].
  - reflexivity.
  - lia.
  - reflexivity.
  - unfold is_block, is_byte.
    repeat first [apply Forall_nil_2 | apply Forall_cons_2 | split]; (reflexivity || lia).
  - reflexivity.
  - cbn. lia.
  - by vm_compute.
  - split; by vm_compute.
Defined.

(** An instance of [encode_length]: the oligo of the concrete scenario,
    B = 8, R = 2, M = 3. *)
Lemma encode_length_witness :
  Len oligo823 = Len primer5 + OligoLen codec823 + Len primer3.
Proof.
  apply (encode_length (λ o, o) codec823 primer5 primer3 oligo823 12345 false false
           (Some 0%nat) mem8 2694803832 (replicate 8 [1; 2; 3; 4])).
  - apply list_sequence_laws.
  - apply base4_level0_laws.
  - reflexivity.
  - split; cbn; lia.
  - left. reflexivity.
  - apply sum_encoder_contract; [split; cbn; lia | reflexivity].
  - apply sum_verify_contract; [split; cbn; lia | reflexivity].
  - reflexivity.
  - lia.
  - reflexivity.
  - apply Forall_replicate. unfold is_block, is_byte.
    repeat first [apply Forall_nil_2 | apply Forall_cons_2 | split]; (reflexivity || lia).
  - reflexivity.
  - cbn. lia.
  - by vm_compute.
Defined.

(** An instance of [encode_returns]: the concrete scenario. *)
Lemma encode_returns_witness :
  ∃ s' o err,
    encode codec823 primer5 primer3 12345 false false (Some 0%nat) mem8
      = (s', Done (o, err)) ∧
    (is_Some o ↔ err = None) ∧
    calls s' = calls mem8 ∧ (false = false → s' = mem8).
Proof.
  apply (encode_returns codec823 primer5 primer3 12345 false false (Some 0%nat) mem8
           2694803832 (replicate 8 [1; 2; 3; 4])).
  - split; cbn; lia.
  - left. reflexivity.
  - apply sum_encoder_contract; [split; cbn; lia | reflexivity].
  - apply sum_verify_contract; [split; cbn; lia | reflexivity].
  - reflexivity.
  - lia.
  - reflexivity.
  - apply Forall_replicate. unfold is_block, is_byte.
    repeat first [apply Forall_nil_2 | apply Forall_cons_2 | split]; (reflexivity || lia).
  - reflexivity.
  - cbn. lia.
Defined.

(** ** The two polarities of [decode] *)

Lemma to_byte_not64 w (k : Z) :
  k = 0 ∨ k = 8 ∨ k = 16 ∨ k = 24 →
  to_byte (not64 w ≫ k) = not8 (to_byte (w ≫ k)).
Proof.
  unfold to_byte, not64, not8. intros Hk.
  rewrite !Z.shiftr_div_pow2 by lia.
  destruct Hk as [-> | [-> | [-> | ->]]]; Z.div_mod_to_equations; lia.
Qed.

(** The block of the inverted polarity is the complement of the block
    of the plain one, and is absent when that one is. *)
Lemma data_block_flip v :
  data_block true v = (λ b : list Z, not8 <$> b) <$> data_block false v.
Proof.
  unfold data_block. set (w := v ≫ 1). case_match; [|done].
  cbn [fmap option_fmap option_map list_fmap].
  rewrite <- (to_byte_not64 w 8), <- (to_byte_not64 w 16), <- (to_byte_not64 w 24) by lia.
  pose proof (to_byte_not64 w 0 ltac:(lia)) as H0. rewrite !Z.shiftr_0_r in H0.
  by rewrite H0.
Qed.

Section Polarity.
Context {Crit O : Type} `{!Oligo O, !Level0 O Crit, !Recovery O Crit}.
Implicit Types c : Codec Crit.

Lemma data_at_flip c (prefix sol : O) i :
  data_at c true prefix sol i = (λ b : list Z, not8 <$> b) <$> data_at c false prefix sol i.
Proof.
  unfold data_at, parse_data. case_match; [done|].
  destruct (l0_Decode _ _ _) as [v [e|]]; [done|]. cbn [fst]. apply data_block_flip.
Qed.

(** [decode] on the inverted polarity, without recovery, in terms of
    [decode] on the plain one. *)
Lemma decode_flip_run c (p5 p3 ol : O) a ef sf data err :
  0 ≤ blknum c →
  decode c p5 p3 ol false false = Done (a, ef, sf, data, err) →
  decode c p5 p3 ol true false
    = Done (a, ef, sf, (λ d : option (list Z), (λ b : list Z, not8 <$> b) <$> d) <$> data,
            err) ∧
  (sf = true → err = None).
Proof.
  intros HB. destruct (primers_match_dec p5 p3 ol) as [Hyes | Hno].
  2:{ rewrite !decode_mismatched by done. intros [= <- <- <- <- <-]. by split. }
  rewrite !decode_matched by done.
  destruct (parse_blocks_spec c false (primer_prefix p5) (body p5 p3 ol) HB)
    as (p & -> & (_ & Hdl & Hdata & Hok & Hmd) & Hml).
  destruct (parse_blocks_spec c true (primer_prefix p5) (body p5 p3 ol) HB)
    as (p' & -> & (_ & Hdl' & Hdata' & Hok' & Hmd') & Hml').
  cbn [mbind run_bind].
  assert (Hd : p_data p'
               = (λ d : option (list Z), (λ b : list Z, not8 <$> b) <$> d) <$> p_data p).
  { apply list_eq. intros k. rewrite list_lookup_fmap.
    destruct (decide (k < Z.to_nat (blknum c))%nat) as [Hk|Hk].
    - rewrite Hdata, Hdata' by done. cbn. f_equal. apply data_at_flip.
    - rewrite !lookup_ge_None_2 by lia. done. }
  assert (Hmdok : p_mdok p' = p_mdok p).
  { destruct (p_mdok p) eqn:E, (p_mdok p') eqn:E'; try done.
    - apply (proj2 Hok'), (proj1 Hok). done.
    - symmetry. apply (proj2 Hok), (proj1 Hok'). done. }
  assert (Hver : verified c p' = verified c p).
  { unfold verified. rewrite Hmdok. destruct (p_mdok p) eqn:E; [|done].
    replace (p_mdblk p') with (p_mdblk p); [done|].
    apply list_eq. intros k. destruct (decide (k < Z.to_nat (blknum c))%nat) as [Hk|Hk].
    - destruct (proj1 Hok eq_refl k Hk) as [m Hm].
      by rewrite (Hmd k m Hk Hm), (Hmd' k m Hk Hm).
    - rewrite !lookup_ge_None_2 by lia. done. }
  destruct (verified c p) eqn:Hv.
  - rewrite !validate_verified by done.
    assert (Hblk : p_mdblk p' = p_mdblk p).
    { unfold verified in Hv. apply andb_prop in Hv as [E _].
      apply list_eq. intros k.
      destruct (decide (k < Z.to_nat (blknum c))%nat) as [Hk|Hk].
      - destruct (proj1 Hok E k Hk) as [m Hm].
        by rewrite (Hmd k m Hk Hm), (Hmd' k m Hk Hm).
      - rewrite !lookup_ge_None_2 by lia. done. }
    rewrite Hblk. unfold resolve.
    destruct (unpack c (p_mdblk p)) as [[[a0 ef0] sf0]|?]; [|done].
    cbn [mbind run_bind]. intros [= <- <- <- <- <-]. by rewrite Hd.
  - rewrite !validate_unverified by done. intros [= <- <- <- <- <-]. by rewrite Hd.
Qed.

End Polarity.

(** X9.  Without recovery the two polarities of [decode] agree on
    everything but the bytes: on any oligo, when the plain run returns,
    the inverted run returns the same address, flags and error, the same
    blocks are absent, and every block is the bytewise complement of the
    plain one.  So [Decode] returns the result of its first run, with the
    payload complemented exactly when that run reports [sf]. *)
Theorem decode_flip_complement {Crit O : Type} `{!Oligo O, !Level0 O Crit, !Recovery O Crit}
    (c : Codec Crit) (p5 p3 ol : O) a ef sf data err :
  0 ≤ blknum c →
  decode c p5 p3 ol false false = Done (a, ef, sf, data, err) →
  let inverted :=
    (λ d : option (list Z), (λ b : list Z, not8 <$> b) <$> d) <$> data in
  decode c p5 p3 ol true false = Done (a, ef, sf, inverted, err) ∧
  ∀ s, (Decode c p5 p3 ol false s).2
       = Done (a, ef, if sf then inverted else data, err).
Proof.
  intros HB Hplain inverted.
  destruct (decode_flip_run c p5 p3 ol a ef sf data err HB Hplain) as [Hinv Hsf].
  split; [done|]. intros s. rewrite Decode_run. cbv zeta. rewrite Hplain, Hinv.
  cbn [snd]. destruct sf.
  - rewrite (Hsf eq_refl). done.
  - by destruct err.
Qed.

(** An instance of [decode_flip_complement]: the oligo of the
    complemented payload, whose plain run reports [sf]. *)
Lemma decode_flip_complement_witness :
  decode codec314 primer5 primer3 oligo314 true false
  = Done (100, false, true,
          (λ d : option (list Z), (λ b : list Z, not8 <$> b) <$> d) <$>
            [Some [170; 170; 170; 106]; Some [106; 106; 106; 106];
             Some [106; 106; 106; 106]],
          None) ∧
  ∀ s, (Decode codec314 primer5 primer3 oligo314 false s).2
       = Done (100, false,
               if true
               then (λ d : option (list Z), (λ b : list Z, not8 <$> b) <$> d) <$>
                      [Some [170; 170; 170; 106]; Some [106; 106; 106; 106];
                       Some [106; 106; 106; 106]]
               else [Some [170; 170; 170; 106]; Some [106; 106; 106; 106];
                     Some [106; 106; 106; 106]],
               None).
Proof.
  apply (decode_flip_complement codec314 primer5 primer3 oligo314 100 false true
           [Some [170; 170; 170; 106]; Some [106; 106; 106; 106];
            Some [106; 106; 106; 106]] None).
  - cbn. lia.
  - by vm_compute.
Defined.

(** ** The checks of [encode] *)

Section Validation.
Context {Crit O : Type} `{!Oligo O, !Level0 O Crit}.
Implicit Types c : Codec Crit.

(** The loop over the sizes of the blocks: it goes through when every
    block has [BlockSize] bytes, and leaves with the size error at the
    first one that has not. *)
Lemma check_size_run c data (bs : list (list Z)) s (n i : nat) :
  payload s data = Some <$> bs → (i + n ≤ length bs)%nat →
  forM_up n (Z.of_nat i) (check_size (O := O) c data) () s =
    (s, Done (if decide (Forall (λ b : list Z, length b = 4%nat) (take n (drop i bs)))
              then Next () else Return (None, Some Einvalid_data_size))).
Proof.
  intros Hpay. revert i. induction n as [|n IH]; intros i Hin.
  - cbn [forM_up take]. by rewrite decide_True by constructor.
  - destruct (lookup_lt_is_Some_2 bs i) as [b Hb]; [lia|].
    assert (Hp : payload s data !! i = Some (Some b)).
    { by rewrite Hpay, list_lookup_fmap, Hb. }
    apply payload_lookup in Hp as (l & es & lb & -> & Hes & Hei & Hbuf).
    rewrite (drop_S _ _ _ Hb). cbn [take].
    cbn [forM_up]. unfold mbind at 1, M_bind at 1. unfold check_size.
    unfold mbind at 1, M_bind at 1. rewrite (vec_get_eval _ _ _ _ _ Hes Hei).
    unfold mbind at 1, M_bind at 1. rewrite (buf_len_eval _ _ _ Hbuf).
    unfold BlockSize.
    destruct (Z.eqb_spec (Z.of_nat (length b)) 4) as [Hl|Hl]; cbn [negb].
    + unfold mret at 1, M_ret at 1.
      replace (Z.of_nat i + 1) with (Z.of_nat (S i)) by lia. rewrite IH by lia.
      do 2 f_equal. destruct (decide (Forall _ (take n (drop (S i) bs)))) as [Hf|Hf].
      * rewrite decide_True; [done|]. constructor; [lia | done].
      * rewrite decide_False; [done|]. by intros [_ ?]%Forall_cons_1.
    + unfold mret, M_ret. rewrite decide_False; [done|].
      intros [? _]%Forall_cons_1. lia.
Qed.

End Validation.

(** X10.  The checks of [encode] come in a fixed order, each returns
    its own error with a nil oligo, and none of them touches the memory:
    a payload whose number of blocks is not [B] gives "invalid block
    number"; otherwise a block that has not four bytes gives "invalid
    data size"; otherwise a 5' primer shorter than four gives the primer
    error; otherwise an address above [MaxAddr] gives "address too
    big". *)
Theorem encode_rejects {Crit O : Type} `{!Oligo O, !Level0 O Crit}
    (c : Codec Crit) (p5 p3 : O) a ef sf data s (bs : list (list Z)) :
  payload s data = Some <$> bs → bs ≠ [] ∨ data = None →
  let sized := Forall (λ b : list Z, length b = 4%nat) bs in
  (Z.of_nat (length bs) ≠ blknum c →
   encode c p5 p3 a ef sf data s = (s, Done (None, Some Einvalid_block_number))) ∧
  (Z.of_nat (length bs) = blknum c → ¬ sized →
   encode c p5 p3 a ef sf data s = (s, Done (None, Some Einvalid_data_size))) ∧
  (Z.of_nat (length bs) = blknum c → sized → Len p5 < 4 →
   encode c p5 p3 a ef sf data s = (s, Done (None, Some Eprimer5_short))) ∧
  (Z.of_nat (length bs) = blknum c → sized → 4 ≤ Len p5 →
   ∀ maxaddr, MaxAddr c = Done maxaddr → maxaddr < a →
   encode c p5 p3 a ef sf data s = (s, Done (None, Some Eaddress_too_big))).
Proof.
  intros Hpay Hwf sized.
  assert (Hlen : vec_len data s = (s, Done (Z.of_nat (length bs)))).
  { destruct Hwf as [Hne | ->].
    - destruct (payload_vec s data bs Hpay Hne) as (l & es & -> & Hes & <-).
      by apply vec_len_eval.
    - by destruct bs. }
  pose proof (check_size_run (O := O) c data bs s (length bs) 0 Hpay ltac:(lia)) as Hchk.
  rewrite drop_0, firstn_all in Hchk. change (Z.of_nat 0) with 0 in Hchk.
  assert (Hhead : Z.of_nat (length bs) = blknum c →
            encode c p5 p3 a ef sf data s =
              match (if decide sized then Next ()
                     else Return (None, Some Einvalid_data_size))
                    : flow () (option O * option error) with
              | Return r => (s, Done r)
              | Next _ =>
                  if Len p5 <? 4 then (s, Done (None, Some Eprimer5_short))
                  else
                    match calculateMdBlocks c a ef sf with
                    | Done (_, Some e) => (s, Done (None, Some e))
                    | Done (mdb, None) =>
                        (data ← (if sf then negate data else mret data);
                         res ← forM_up (Z.to_nat (blknum c)) 0
                                 (encode_block c mdb data) (Copy p5);
                         match res with
                         | Return r => mret r
                         | Next o => mret (Some (Append o p3), None)
                         end) s
                    | Panic p => (s, Panic p)
                    end
              end).
  { intros Hn. unfold encode. unfold mbind at 1, M_bind at 1. rewrite Hlen.
    unfold BlockNum. rewrite (proj2 (Z.eqb_eq _ _) Hn). cbn [negb].
    unfold mbind at 1, M_bind at 1. rewrite Nat2Z.id, Hchk.
    unfold sized. destruct (decide (Forall _ bs)); [|done].
    destruct (Len p5 <? 4); [done|].
    unfold mbind at 1, M_bind at 1, lift at 1.
    by destruct (calculateMdBlocks c a ef sf) as [[mdb [e|]]|p]. }
  split_and!.
  - intros Hn. unfold encode. unfold mbind at 1, M_bind at 1. rewrite Hlen.
    unfold BlockNum. by destruct (Z.eqb_spec (Z.of_nat (length bs)) (blknum c)).
  - intros Hn Hs. rewrite (Hhead Hn). by rewrite decide_False.
  - intros Hn Hs Hp5. rewrite (Hhead Hn). rewrite decide_True by done.
    by destruct (Z.ltb_spec (Len p5) 4); [|lia].
  - intros Hn Hs Hp5 maxaddr Hmax Ha. rewrite (Hhead Hn). rewrite decide_True by done.
    destruct (Z.ltb_spec (Len p5) 4); [lia|].
    by rewrite (address_too_big c a ef sf maxaddr Hmax Ha).
Qed.

(** An instance of [encode_rejects]: the payload of the concrete
    scenario, eight blocks, handed to a codec of three blocks. *)
Lemma encode_rejects_witness :
  encode codec314 primer5 primer3 0 false false (Some 0%nat) mem8
  = (mem8, Done (None, Some Einvalid_block_number)).
Proof.
  apply (encode_rejects codec314 primer5 primer3 0 false false (Some 0%nat) mem8
           (replicate 8 [1; 2; 3; 4])).
  - reflexivity.
  - by left.
  - cbn. lia.
Defined.

(** ** Where the parser reads *)

Lemma span_0 {Crit} (c : Codec Crit) : 0 ≤ blknum c - rsnum c → span c 0 = 0.
Proof. intros Hn. unfold span. rewrite Z.min_l, Z.max_l by lia. lia. Qed.

Lemma md_width_nonneg {Crit} (c : Codec Crit) i : 0 ≤ mdsz c → 0 ≤ md_width c i.
Proof. intros HM. unfold md_width. case_match; lia. Qed.

(** Blocks are at least 17 symbols apart. *)
Lemma span_le {Crit} (c : Codec Crit) (i j : nat) :
  0 ≤ mdsz c → (i ≤ j)%nat →
  span c (Z.of_nat i) + 17 * (Z.of_nat j - Z.of_nat i) ≤ span c (Z.of_nat j).
Proof.
  intros HM Hij. induction Hij as [|j Hij IH]; [lia|].
  rewrite span_step. pose proof (md_width_nonneg c (Z.of_nat j) HM). lia.
Qed.

Lemma agree_slice {A} (l l' : list A) (m n : nat) :
  (∀ j, (m ≤ j < m + n)%nat → l' !! j = l !! j) →
  take n (drop m l') = take n (drop m l).
Proof.
  intros Hj. apply list_eq. intros x.
  destruct (decide (x < n)%nat).
  - rewrite !lookup_take_lt, !lookup_drop by done. apply Hj. lia.
  - rewrite !lookup_take_ge by lia. done.
Qed.

Section Layout.
Context {Crit O A : Type} `{!Oligo O, !Level0 O Crit} (repr : O → list A).
Hypothesis Hseq : sequence_laws repr.
Variable c : Codec Crit.
Hypothesis Hcnt : counts_ok c.
Hypothesis HM : 3 ≤ mdsz c ≤ 5.

(** In a body that holds all [B] blocks, the parser is in front of
    block [i] at the offset [span c i], with the four symbols before it
    as the prefix. *)
Lemma stream_offset (prefix sol : O) (i : nat) :
  span c (blknum c) ≤ Len sol → (i ≤ Z.to_nat (blknum c))%nat →
  repr (stream c i prefix sol).2 = drop (Z.to_nat (span c (Z.of_nat i))) (repr sol) ∧
  (i ≠ 0%nat →
   repr (stream c i prefix sol).1
   = take 4 (drop (Z.to_nat (span c (Z.of_nat i) - 4)) (repr sol))).
Proof.
  intros Hlen. pose proof Hcnt as [HR HB]. induction i as [|i IH]; intros Hi.
  - split; [|done]. cbn [stream snd]. change (Z.of_nat 0) with 0.
    rewrite span_0 by lia. done.
  - destruct IH as [IH _]; [lia|]. cbn [stream fst snd].
    set (ol := (stream c i prefix sol).2) in *.
    set (w := md_width c (Z.of_nat i)).
    pose proof (md_width_nonneg c (Z.of_nat i) ltac:(lia)) as Hw. fold w in Hw.
    pose proof (span_step c i) as Hstep. fold w in Hstep.
    pose proof (span_le c 0 i ltac:(lia) ltac:(lia)) as H0.
    pose proof (span_le c (S i) (Z.to_nat (blknum c)) ltac:(lia) ltac:(lia)) as H1.
    change (Z.of_nat 0) with 0 in H0. rewrite span_0 in H0 by lia.
    rewrite Z2Nat.id in H1 by lia.
    assert (Hol : Len ol = Len sol - span c (Z.of_nat i)).
    { rewrite !(repr_Len _ Hseq), IH, length_drop. rewrite (repr_Len _ Hseq) in Hlen. lia. }
    split.
    + rewrite (repr_Slice_end _ Hseq), IH by lia. rewrite drop_drop. f_equal. lia.
    + intros _. rewrite (repr_Slice _ Hseq), IH by lia. rewrite drop_drop.
      f_equal; [lia|]. f_equal. lia.
Qed.

(** A slice the parser cuts in front of block [i], as a part of the
    body. *)
Lemma stream_slice (prefix sol : O) (i : nat) from to :
  span c (blknum c) ≤ Len sol → (i < Z.to_nat (blknum c))%nat →
  0 ≤ from ≤ to → 0 < to ≤ 17 + md_width c (Z.of_nat i) →
  repr (Slice (stream c i prefix sol).2 from to)
  = take (Z.to_nat (to - from))
         (drop (Z.to_nat (span c (Z.of_nat i) + from)) (repr sol)).
Proof.
  intros Hlen Hi Hf Ht. pose proof Hcnt as [HR HB].
  destruct (stream_offset prefix sol i Hlen ltac:(lia)) as [Hoff _].
  pose proof (span_step c i) as Hstep.
  pose proof (span_le c 0 i ltac:(lia) ltac:(lia)) as H0.
  pose proof (span_le c (S i) (Z.to_nat (blknum c)) ltac:(lia) ltac:(lia)) as H1.
  change (Z.of_nat 0) with 0 in H0. rewrite span_0 in H0 by lia.
  rewrite Z2Nat.id in H1 by lia.
  assert (Hol : Len (stream c i prefix sol).2 = Len sol - span c (Z.of_nat i)).
  { rewrite !(repr_Len _ Hseq), Hoff, length_drop. rewrite (repr_Len _ Hseq) in Hlen. lia. }
  rewrite (repr_Slice _ Hseq), Hoff by lia. rewrite drop_drop. do 2 f_equal. lia.
Qed.

End Layout.

(** ** Damage that stays in its block *)

Section Damage.
Context {Crit O A : Type} `{!Oligo O, !Level0 O Crit} (repr : O → list A).
Hypothesis Hseq : sequence_laws repr.
Variable c : Codec Crit.
Hypothesis Hcnt : counts_ok c.
Hypothesis HM : 3 ≤ mdsz c ≤ 5.
Variables (prefix sol sol' : O) (D : nat → Prop).
Hypothesis Hlen : span c (blknum c) ≤ Len sol.
Hypothesis Hlen' : span c (blknum c) ≤ Len sol'.
Hypothesis Hagree :
  ∀ j : nat, Z.of_nat j < span c (blknum c) →
    (∀ k : nat, D k → ¬ (span c (Z.of_nat k) ≤ Z.of_nat j < span c (Z.of_nat k) + 13)) →
    repr sol' !! j = repr sol !! j.

Lemma span_bounds (i : nat) :
  (i < Z.to_nat (blknum c))%nat →
  0 ≤ span c (Z.of_nat i) ∧
  span c (Z.of_nat i) + 17 + md_width c (Z.of_nat i) ≤ span c (blknum c) ∧
  0 ≤ md_width c (Z.of_nat i).
Proof.
  intros Hi. pose proof Hcnt as [HR HB].
  pose proof (span_step c i) as Hstep.
  pose proof (span_le c 0 i ltac:(lia) ltac:(lia)) as H0.
  pose proof (span_le c (S i) (Z.to_nat (blknum c)) ltac:(lia) ltac:(lia)) as H1.
  change (Z.of_nat 0) with 0 in H0. rewrite span_0 in H0 by lia.
  rewrite Z2Nat.id in H1 by lia.
  pose proof (md_width_nonneg c (Z.of_nat i) ltac:(lia)). lia.
Qed.

(** A position in block [i] behind the first 13 symbols of its data
    segment when [i] is damaged, is in no damaged window. *)
Lemma outside_windows (i : nat) (j : Z) from :
  (i < Z.to_nat (blknum c))%nat → 0 ≤ from → (D i → 13 ≤ from) →
  span c (Z.of_nat i) + from ≤ j < span c (Z.of_nat i) + 17 + md_width c (Z.of_nat i) →
  ∀ k : nat, D k → ¬ (span c (Z.of_nat k) ≤ j < span c (Z.of_nat k) + 13).
Proof.
  intros Hi Hf Hd Hj k Hk. destruct (Nat.lt_trichotomy k i) as [Hki | [-> | Hki]].
  - pose proof (span_le c (S k) i ltac:(lia) ltac:(lia)) as H1.
    pose proof (span_step c k) as Hstep.
    pose proof (md_width_nonneg c (Z.of_nat k) ltac:(lia)). lia.
  - specialize (Hd Hk). lia.
  - pose proof (span_le c (S i) k ltac:(lia) ltac:(lia)) as H1.
    pose proof (span_step c i) as Hstep. lia.
Qed.

Lemma slice_agree (i : nat) from to :
  (i < Z.to_nat (blknum c))%nat → 0 ≤ from ≤ to →
  0 < to ≤ 17 + md_width c (Z.of_nat i) → (D i → 13 ≤ from) →
  Slice (stream c i prefix sol').2 from to = Slice (stream c i prefix sol).2 from to.
Proof.
  intros Hi Hf Ht Hd. destruct (span_bounds i Hi) as (H0 & H1 & Hw).
  apply (repr_inj _ Hseq).
  rewrite !(stream_slice repr Hseq c Hcnt HM) by done.
  apply agree_slice. intros j Hj. apply Hagree; [lia|].
  apply (outside_windows i (Z.of_nat j) from); [done | lia | done | lia].
Qed.

Lemma prefix_agree (i : nat) :
  (i < Z.to_nat (blknum c))%nat →
  (stream c i prefix sol').1 = (stream c i prefix sol).1.
Proof.
  intros Hi. destruct i as [|i]; [done|].
  destruct (span_bounds (S i) Hi) as (H0 & H1 & Hw).
  destruct (span_bounds i ltac:(lia)) as (H0' & H1' & Hw').
  pose proof (span_step c i) as Hstep.
  apply (repr_inj _ Hseq).
  destruct (stream_offset repr Hseq c Hcnt HM prefix sol (S i) Hlen ltac:(lia))
    as [_ Hs]. rewrite Hs by done.
  destruct (stream_offset repr Hseq c Hcnt HM prefix sol' (S i) Hlen' ltac:(lia))
    as [_ Hs']. rewrite Hs' by done.
  apply agree_slice. intros j Hj. apply Hagree; [lia|].
  apply (outside_windows i (Z.of_nat j) (13 + md_width c (Z.of_nat i)));
    [lia | lia | lia | lia].
Qed.

Lemma stream_long (s0 : O) (i : nat) :
  span c (blknum c) ≤ Len s0 → (i < Z.to_nat (blknum c))%nat →
  17 ≤ Len (stream c i prefix s0).2.
Proof.
  intros Hl Hi. destruct (span_bounds i Hi) as (H0 & H1 & Hw).
  destruct (stream_offset repr Hseq c Hcnt HM prefix s0 i Hl ltac:(lia)) as [Hoff _].
  rewrite (repr_Len _ Hseq), Hoff, length_drop. rewrite (repr_Len _ Hseq) in Hl. lia.
Qed.

(** The metadata digit of every block, and the data of every block
    that is not damaged, are read from symbols that are the same in both
    bodies. *)
Lemma md_at_agree (i : nat) :
  (i < Z.to_nat (blknum c))%nat → md_at c prefix sol' i = md_at c prefix sol i.
Proof.
  intros Hi. destruct (span_bounds i Hi) as (H0 & H1 & Hw).
  unfold md_at, md_segment.
  rewrite (slice_agree i 17 (17 + md_width c (Z.of_nat i))) by (done || lia).
  rewrite (slice_agree i 13 17) by (done || lia). done.
Qed.

Lemma data_at_agree flip (i : nat) :
  (i < Z.to_nat (blknum c))%nat → ¬ D i →
  data_at c flip prefix sol' i = data_at c flip prefix sol i.
Proof.
  intros Hi Hd. destruct (span_bounds i Hi) as (H0 & H1 & Hw).
  unfold data_at, parse_data. rewrite (prefix_agree i Hi).
  pose proof (stream_long sol i Hlen Hi). pose proof (stream_long sol' i Hlen' Hi).
  destruct (Z.ltb_spec (Len (stream c i prefix sol').2) 17); [lia|].
  destruct (Z.ltb_spec (Len (stream c i prefix sol).2) 17); [lia|].
  rewrite (slice_agree i 0 17) by (done || lia). done.
Qed.

End Damage.

(** X11.  Damage stays in its block.  Take two oligos whose primers
    match and whose bodies both hold all [B] blocks, and a set [D] of
    blocks: let the bodies agree at every position in front of the end
    of the last block, except within the first 13 symbols of the data
    segments of the blocks in [D].  Then, without recovery, [decode]
    returns for both the same address, flags and error, and the same
    block at every index outside [D].  (The last four symbols of a data
    segment are the prefix of the metadata segment behind it; what comes
    after the last block is not read at all.) *)
Theorem damage_is_local {Crit O A : Type} `{!Oligo O, !Level0 O Crit, !Recovery O Crit}
    (repr : O → list A) (c : Codec Crit) (p5 p3 ol ol' : O) (D : nat → Prop)
    flip a ef sf data err :
  sequence_laws repr → counts_ok c → 3 ≤ mdsz c ≤ 5 →
  primers_match p5 p3 ol → primers_match p5 p3 ol' →
  span c (blknum c) ≤ Len (body p5 p3 ol) →
  span c (blknum c) ≤ Len (body p5 p3 ol') →
  (∀ j : nat, Z.of_nat j < span c (blknum c) →
     (∀ k : nat, D k →
        ¬ (span c (Z.of_nat k) ≤ Z.of_nat j < span c (Z.of_nat k) + 13)) →
     repr (body p5 p3 ol') !! j = repr (body p5 p3 ol) !! j) →
  decode c p5 p3 ol flip false = Done (a, ef, sf, data, err) →
  ∃ data',
    decode c p5 p3 ol' flip false = Done (a, ef, sf, data', err) ∧
    length data' = length data ∧
    ∀ i, ¬ D i → data' !! i = data !! i.
Proof.
  intros Hseq Hcnt HM Hm Hm' Hlen Hlen' Hagree.
  pose proof Hcnt as [HR HB].
  rewrite !decode_matched by done.
  set (prefix := primer_prefix p5) in *.
  set (sol := body p5 p3 ol) in *. set (sol' := body p5 p3 ol') in *.
  destruct (parse_blocks_spec c flip prefix sol ltac:(lia))
    as (p & -> & (_ & Hdl & Hdata & Hok & Hmd) & Hml).
  destruct (parse_blocks_spec c flip prefix sol' ltac:(lia))
    as (p' & -> & (_ & Hdl' & Hdata' & Hok' & Hmd') & Hml').
  cbn [mbind run_bind].
  pose proof (md_at_agree repr Hseq c Hcnt HM prefix sol sol' D Hlen Hlen' Hagree) as Hmda.
  pose proof (data_at_agree repr Hseq c Hcnt HM prefix sol sol' D Hlen Hlen' Hagree flip)
    as Hdta.
  assert (Hd : ∀ i, ¬ D i → p_data p' !! i = p_data p !! i).
  { intros i Hi. destruct (decide (i < Z.to_nat (blknum c))%nat) as [Hk|Hk].
    - rewrite Hdata, Hdata' by done. f_equal. by apply Hdta.
    - rewrite !lookup_ge_None_2 by lia. done. }
  assert (Hall : (∀ i, (i < Z.to_nat (blknum c))%nat → is_Some (md_at c prefix sol' i)) ↔
                 (∀ i, (i < Z.to_nat (blknum c))%nat → is_Some (md_at c prefix sol i))).
  { split; intros H i Hi; specialize (H i Hi); by rewrite ?Hmda in * by done. }
  assert (Hmdok : p_mdok p' = p_mdok p).
  { destruct (p_mdok p) eqn:E, (p_mdok p') eqn:E'; try done.
    - apply (proj2 Hok'), (proj2 Hall), (proj1 Hok). done.
    - symmetry. apply (proj2 Hok), (proj1 Hall), (proj1 Hok'). done. }
  assert (Hblk : p_mdok p = true → p_mdblk p' = p_mdblk p).
  { intros E. apply list_eq. intros k.
    destruct (decide (k < Z.to_nat (blknum c))%nat) as [Hk|Hk].
    - destruct (proj1 Hok E k Hk) as [m Hmk].
      rewrite (Hmd k m Hk Hmk). apply Hmd'; [done|]. by rewrite Hmda.
    - rewrite !lookup_ge_None_2 by lia. done. }
  assert (Hver : verified c p' = verified c p).
  { unfold verified. rewrite Hmdok. destruct (p_mdok p) eqn:E; [|done].
    by rewrite Hblk. }
  destruct (verified c p) eqn:Hv.
  - rewrite !validate_verified by done.
    rewrite Hblk by (unfold verified in Hv; by apply andb_prop in Hv as [? _]).
    unfold resolve.
    destruct (unpack c (p_mdblk p)) as [[[a0 ef0] sf0]|?]; [|done].
    cbn [mbind run_bind]. intros [= <- <- <- <- <-].
    exists (p_data p'). split_and!; [done | congruence | done].
  - rewrite !validate_unverified by done. intros [= <- <- <- <- <-].
    exists (p_data p'). split_and!; [done | congruence | done].
Qed.

(** An instance of [damage_is_local]: the oligo of the concrete
    scenario and the one with the first symbol of its first data segment
    changed; the blocks 1 to 7 are the same. *)
Lemma damage_is_local_witness :
  ∃ data',
    decode codec823 primer5 primer3 oligo823_bad false false
      = Done (12345, false, false, data', None) ∧
    length data' = length (replicate 8 (Some [1; 2; 3; 4])) ∧
    ∀ i, ¬ i = 0%nat → data' !! i = replicate 8 (Some [1; 2; 3; 4]) !! i.
Proof.
  apply (damage_is_local (λ o, o) codec823 primer5 primer3 oligo823 oligo823_bad
           (λ k, k = 0%nat) false 12345 false false
           (replicate 8 (Some [1; 2; 3; 4])) None).
  - apply list_sequence_laws.
  - split; cbn; lia.
  - cbn. lia.
  - unfold primers_match. vm_compute. split_and!; [done | by intros [=] | done].
  - unfold primers_match. vm_compute. split_and!; [done | by intros [=] | done].
  - vm_compute. by intros [=].
  - vm_compute. by intros [=].
  - intros j _ Hj. destruct j as [|j].
    + exfalso. apply (Hj 0%nat eq_refl).
      change (span codec823 (Z.of_nat 0)) with 0. change (Z.of_nat 0) with 0. lia.
    + reflexivity.
  - by vm_compute.
Defined.

(** ** The address [MaxAddr] *)

Section Alias.
Context {Crit O : Type} `{!Oligo O, !Level0 O Crit}.
Implicit Types c : Codec Crit.

Lemma MaxAddr_range c maxaddr : MaxAddr c = Done maxaddr → 0 ≤ maxaddr < 2 ^ 62.
Proof.
  unfold MaxAddr. destruct (index maxvals (mdsz c)) as [maxval|]; [|done].
  cbn [mbind run_bind]. intros [= <-].
  assert (Hma : 0 ≤ Nat.iter (Z.to_nat (blknum c - rsnum c))
                      (λ ma, wrap64 (ma * wrap64 maxval)) 1 < 2 ^ 64).
  { destruct (Z.to_nat (blknum c - rsnum c)) as [|n]; [cbn; lia|].
    rewrite Nat.iter_succ. apply wrap64_range. }
  Z.div_mod_to_equations. lia.
Qed.

(** The packer at the address [MaxAddr] with [ef] clear and at the
    address 0 with [ef] set. *)
Lemma pack_alias c maxaddr sf :
  MaxAddr c = Done maxaddr →
  calculateMdBlocks c maxaddr false sf = calculateMdBlocks c 0 true sf.
Proof.
  intros Hmax. pose proof (MaxAddr_range c maxaddr Hmax) as Hr.
  unfold calculateMdBlocks. rewrite Hmax. cbn [mbind run_bind].
  destruct (Z.gtb_spec maxaddr maxaddr); [lia|].
  destruct (Z.gtb_spec 0 maxaddr); [lia|].
  replace (wrap64 ((if sf then wrap64 (0 + wrap64 (maxaddr * 2)) else 0) + maxaddr))
    with (if sf then wrap64 (maxaddr + wrap64 (maxaddr * 2)) else maxaddr); [done|].
  destruct sf.
  - rewrite (wrap64_small (maxaddr * 2)) by lia.
    rewrite (wrap64_small (0 + maxaddr * 2)) by lia. f_equal. lia.
  - rewrite wrap64_small by lia. lia.
Qed.

End Alias.

(** X12.  The address [MaxAddr], which the packer accepts, is not an
    address of its own: a data oligo at [MaxAddr] is the erasure oligo at
    the address 0.  The packer returns the same digits for
    [(MaxAddr, ef = false)] and for [(0, ef = true)], on both values of
    [sf], so [encode] and [Encode] return the same for the two. *)
Theorem MaxAddr_alias {Crit O : Type} `{!Oligo O, !Level0 O Crit}
    (c : Codec Crit) (p5 p3 : O) data s maxaddr :
  MaxAddr c = Done maxaddr →
  (∀ sf, calculateMdBlocks c maxaddr false sf = calculateMdBlocks c 0 true sf) ∧
  (∀ sf, encode c p5 p3 maxaddr false sf data s = encode c p5 p3 0 true sf data s) ∧
  Encode c p5 p3 maxaddr false data s = Encode c p5 p3 0 true data s.
Proof.
  intros Hmax.
  assert (Henc : ∀ sf t, encode c p5 p3 maxaddr false sf data t
                         = encode c p5 p3 0 true sf data t).
  { intros sf t. unfold encode. by rewrite (pack_alias c maxaddr sf Hmax). }
  split_and!.
  - intros sf. by apply pack_alias.
  - intros sf. apply Henc.
  - rewrite !Encode_run. cbv zeta. by rewrite !Henc.
Qed.

(** An instance of [MaxAddr_alias]: B = 8, R = 2, M = 3. *)
Lemma MaxAddr_alias_witness :
  Encode codec823 primer5 primer3 2694803832 false (Some 0%nat) mem8
  = Encode codec823 primer5 primer3 0 true (Some 0%nat) mem8.
Proof. apply (MaxAddr_alias codec823 primer5 primer3 (Some 0%nat) mem8 2694803832). reflexivity. Defined.

(** ** Recovery *)

(** X13.  The argument [recover] matters only when the metadata does
    not verify: on any oligo, a result of [decode] or [Decode] without
    recovery whose error is not the metadata error is also the result
    with recovery. *)
Theorem recover_only_for_metadata {Crit O : Type}
    `{!Oligo O, !Level0 O Crit, !Recovery O Crit} (c : Codec Crit) (p5 p3 ol : O) :
  0 ≤ blknum c →
  (∀ flip r, decode c p5 p3 ol flip false = Done r → r.2 ≠ Some Emetadata →
     decode c p5 p3 ol flip true = Done r) ∧
  (∀ s r, (Decode c p5 p3 ol false s).2 = Done r → r.2 ≠ Some Emetadata →
     (Decode c p5 p3 ol true s).2 = Done r).
Proof.
  intros HB.
  assert (Hdec : ∀ flip r, decode c p5 p3 ol flip false = Done r →
            r.2 ≠ Some Emetadata → decode c p5 p3 ol flip true = Done r).
  { intros flip r. destruct (primers_match_dec p5 p3 ol) as [Hyes | Hno].
    2:{ by rewrite !decode_mismatched by done. }
    rewrite !decode_matched by done.
    destruct (parse_blocks_spec c flip (primer_prefix p5) (body p5 p3 ol) HB)
      as (p & -> & _). cbn [mbind run_bind].
    destruct (verified c p) eqn:Hv.
    - by rewrite !validate_verified by done.
    - rewrite validate_unverified by done. by intros [= <-] []. }
  split; [done|]. intros s r. rewrite !Decode_run. cbv zeta. cbn [snd].
  destruct (decode c p5 p3 ol false false) as [[[[[a ef] sf] data] err]|?] eqn:H1;
    [|by destruct (decode c p5 p3 ol true false)].
  destruct err as [e|].
  - cbn [result mbind run_bind]. intros [= <-] He.
    by rewrite (Hdec false _ H1 He).
  - rewrite (Hdec false _ H1 ltac:(done)). destruct sf; [|done].
    destruct (decode c p5 p3 ol true false) as [[[[[a' ef'] sf'] data'] err']|?] eqn:H2;
      [|done].
    cbn [result mbind run_bind]. intros [= <-] He. cbn [snd] in He.
    by rewrite (Hdec true _ H2 He).
Qed.

(** An instance of [recover_only_for_metadata]: the oligo of the
    concrete scenario. *)
Lemma recover_only_for_metadata_witness :
  decode codec823 primer5 primer3 oligo823 false true
  = Done (12345, false, false, replicate 8 (Some [1; 2; 3; 4]), None).
Proof.
  apply (recover_only_for_metadata codec823 primer5 primer3 oligo823).
  - cbn. lia.
  - by vm_compute.
  - done.
Defined.

(** ** What the parity bit detects *)

(** Inverting one of the low [n] bits changes the count by one. *)
Lemma popcount_flip (n k : nat) v :
  (k < n)%nat →
  popcount n (Z.lxor v (2 ^ Z.of_nat k))
  = popcount n v + (if Z.testbit v (Z.of_nat k) then -1 else 1).
Proof.
  revert k v. induction n as [|n IH]; intros k v Hk; [lia|].
  cbn [popcount].
  assert (Hdiv : ∀ a, a / 2 = a ≫ 1) by (intros a; by rewrite Z.shiftr_div_pow2).
  rewrite !Hdiv, Z.shiftr_lxor, <- !Z.bit0_odd, Z.lxor_spec.
  destruct k as [|k].
  - change (2 ^ Z.of_nat 0) with 1. change (1 ≫ 1) with 0. rewrite Z.lxor_0_r.
    change (Z.testbit 1 0) with true. change (Z.of_nat 0) with 0.
    destruct (Z.testbit v 0); cbn [xorb negb Z.b2z]; lia.
  - rewrite Z.pow2_bits_false by lia. rewrite xorb_false_r.
    rewrite Z.shiftr_div_pow2 with (a := 2 ^ Z.of_nat (S k)) by lia.
    rewrite Nat2Z.inj_succ, Z.pow_succ_r by lia.
    rewrite Z.pow_1_r, Z.mul_comm, Z.div_mul by lia.
    rewrite IH by lia. rewrite Z.shiftr_spec by lia.
    replace (Z.of_nat k + 1) with (Z.succ (Z.of_nat k)) by lia. lia.
Qed.

(** The test of the parser is the parity of the bits of the word. *)
Lemma data_block_parity flip u :
  data_block flip u =
    if popcount 65 u mod 2 =? 0
    then Some (le_bytes (if flip then not64 (u ≫ 1) else u ≫ 1)) else None.
Proof.
  unfold data_block, OnesCount64, le_bytes.
  change (popcount 65 u) with (Z.b2z (Z.odd u) + popcount 64 (u / 2)).
  assert (Hbit : Z.land u 1 = Z.b2z (Z.odd u)).
  { change 1 with (Z.ones 1). rewrite Z.land_ones by lia.
    rewrite <- Z.bit0_odd, Z.bit0_mod. done. }
  assert (Hsh : u / 2 = u ≫ 1) by (by rewrite Z.shiftr_div_pow2).
  rewrite Hbit, Hsh. by rewrite (Z.add_comm (popcount 64 (u ≫ 1))).
Qed.

(** X14.  The parity bit detects every single inverted bit: of a word
    and the word with one of its 64 bits inverted, the parser
    materializes a block for exactly one.  So a data word that comes back
    from the level-0 codec with one bit wrong never yields a block. *)
Theorem parity_detects_flip (flip : bool) (w k : Z) :
  0 ≤ k < 64 →
  is_Some (data_block flip w) ↔ data_block flip (Z.lxor w (2 ^ k)) = None.
Proof.
  intros Hk. rewrite !data_block_parity.
  pose proof (popcount_flip 65 (Z.to_nat k) w ltac:(lia)) as Hflip.
  rewrite Z2Nat.id in Hflip by lia. rewrite Hflip.
  set (p := popcount 65 w). set (d := if Z.testbit w k then -1 else 1).
  assert (Hd : d = -1 ∨ d = 1) by (subst d; destruct (Z.testbit w k); auto).
  destruct (Z.eqb_spec (p mod 2) 0) as [He|He];
    destruct (Z.eqb_spec ((p + d) mod 2) 0) as [He'|He'].
  - exfalso. revert He He'. Z.div_mod_to_equations. lia.
  - split; [done | by eexists].
  - split; [by intros [? [=]] | done].
  - exfalso. revert He He'. Z.div_mod_to_equations. lia.
Qed.

(** An instance of [parity_detects_flip]: the word of the block
    [01 02 03 04] with the bit 7 inverted. *)
Lemma parity_detects_flip_witness :
  is_Some (data_block false (with_parity (block_value 1 2 3 4))) ↔
  data_block false (Z.lxor (with_parity (block_value 1 2 3 4)) (2 ^ 7)) = None.
Proof. apply (parity_detects_flip false (with_parity (block_value 1 2 3 4)) 7). lia. Defined.
